(** * Poker: a Rocq model of the deck, the hand evaluator and the betting
    state machine of [SpriteFile.py] and [GameFile.py].

    The Python classes are embedded shallowly.  Card names stay strings and
    every test on them is the string test the source performs ([split], the
    substring test [in], the scan for the letters C, D, H, S).  Code that can
    raise returns a [result]; mutation of [self] is explicit state passing.
    Sprites, fonts, images and drawing have no counterpart here. *)

From Stdlib Require Import String Ascii QArith Lia Lqa.
From stdpp Require Import base list strings sorting.
Open Scope string_scope.
Open Scope list_scope.
Open Scope nat_scope.

(** * Python as far as the game needs it *)

(** ** Exceptions *)

Inductive exn :=
| IndexError   (* list index out of range *)
| ValueError   (* [list.index] of an absent value *)
| SystemExit   (* [exit(...)] *)
| PygameQuit.  (* [pygame.quit()]: the window is gone and [run] ends *)

Inductive result (A : Type) :=
| Ok (a : A)
| Raise (e : exn).

Arguments Ok {A} a.

Arguments Raise {A} e.

Definition bind {A B} (m : result A) (f : A -> result B) : result B :=
  match m with
  | Ok a => f a
  | Raise e => Raise e
  end.

Notation "'let!' x ':=' m 'in' k" := (bind m (fun x => k))
  (at level 10, x name, m at level 200, k at level 200,
   format "'[v' 'let!'  x  ':='  m  'in' '/' k ']'").

Global Instance result_fmap : FMap result := fun A B f m =>
  match m with
  | Ok a => Ok (f a)
  | Raise e => Raise e
  end.

Definition isOk {A} (r : result A) : bool :=
  match r with Ok _ => true | Raise _ => false end.

(** ** Strings and lists *)

Module Py.

(** [str.isspace] on one character (code points below 256). *)
Definition isSpace (c : ascii) : bool :=
  let n := N_of_ascii c in
  (((9 <=? n) && (n <=? 13)) || ((28 <=? n) && (n <=? 32))
   || (n =? 133) || (n =? 160))%N.

Fixpoint dropSpaces (s : string) : string :=
  match s with
  | EmptyString => EmptyString
  | String c s' => if isSpace c then dropSpaces s' else s
  end.

Fixpoint takeWord (s : string) : string :=
  match s with
  | EmptyString => EmptyString
  | String c s' => if isSpace c then EmptyString else String c (takeWord s')
  end.

(** [s.split()[0]]: the first whitespace-delimited word; [IndexError] when
    [s] has none. *)
Definition split0 (s : string) : result string :=
  match takeWord (dropSpaces s) with
  | EmptyString => Raise IndexError
  | w => Ok w
  end.

(** [sub in s] *)
Fixpoint contains (sub s : string) : bool :=
  String.prefix sub s ||
  match s with
  | EmptyString => false
  | String _ s' => contains sub s'
  end.

(** [l.pop()]: the last element and the list without it. *)
Fixpoint pop {A} (l : list A) : option (A * list A) :=
  match l with
  | [] => None
  | [x] => Some (x, [])
  | x :: l' => prod_map id (cons x) <$> pop l'
  end.

(** [l.index(x)] *)
Fixpoint index (x : string) (l : list string) : result nat :=
  match l with
  | [] => Raise ValueError
  | y :: l' => if String.eqb y x then Ok 0 else S <$> index x l'
  end.

End Py.

(** * Cards and the deck ([SpriteFile.py]) *)

(** ** [Card] *)

(** A card is its name, [_cardType]; the sprite's image and position are
    left out. *)
Record Card := mkCard { getCardName : string }.

Global Instance Card_eq_dec : EqDecision Card.
Proof. solve_decision. Defined.

(** [Card.getType]: [self._cardType.split()[0]] *)
Definition getType (c : Card) : result string := Py.split0 (getCardName c).

(** ** [Deck] *)

Definition TYPES : list string :=
  ["Ace"; "Two"; "Three"; "Four"; "Five"; "Six"; "Seven"; "Eight"; "Nine";
   "Ten"; "Jack"; "Queen"; "King"].

Definition SUITS : list string := ["Clubs"; "Diamonds"; "Hearts"; "Spades"].

Record Deck := mkDeck {
  cardsInDeck : list Card;
  cardsOutOfDeck : list Card;
  deckMultiple : nat
}.

(** One pass of the two inner loops of [Deck.__init__]: every type with
    every suit, types outermost. *)
Definition oneDeck : list Card :=
  aType ← TYPES; aSuit ← SUITS; [mkCard (aType +:+ " of " +:+ aSuit)].

(** [Deck.__init__] *)
Definition newDeck (deckMultiple : nat) : Deck :=
  {| cardsInDeck := mjoin (replicate deckMultiple oneDeck);
     cardsOutOfDeck := [];
     deckMultiple := deckMultiple |}.

(** [randint(lo, hi)] answers some integer between [lo] and [hi]; the
    number [r] drawn from the random source picks which. *)
Definition randint (lo hi r : nat) : nat := lo + r mod (hi - lo + 1).

(** One iteration of the loop of [Deck.shuffle]: pop the card at [num] and
    insert it at the front. *)
Definition shuffleStep (num : nat) (cards : list Card) : list Card :=
  match cards !! num with
  | Some aCard => aCard :: delete num cards
  | None => cards
  end.

(** [Deck.shuffle]; [rs] is the random source, one number per iteration
    (0 once it is used up). *)
Definition shuffleCards (rs : list nat) (cards : list Card) : list Card :=
  foldl (fun cs i =>
           shuffleStep (randint i (length cs - 1) (nth i rs 0)) cs)
        cards (seq 0 (length cards)).

Definition shuffle (rs : list nat) (d : Deck) : Deck :=
  {| cardsInDeck := shuffleCards rs (cardsInDeck d);
     cardsOutOfDeck := cardsOutOfDeck d;
     deckMultiple := deckMultiple d |}.

(** [Deck.getNumOfCardsInDeck] *)
Definition getNumOfCardsInDeck (d : Deck) : nat := length (cardsInDeck d).

(** [Deck.addAllCardsBackIntoDeck] *)
Definition addAllCardsBackIntoDeck (d : Deck) : Deck :=
  {| cardsInDeck := cardsOutOfDeck d ++ cardsInDeck d;
     cardsOutOfDeck := [];
     deckMultiple := deckMultiple d |}.

(** [Deck.__isInDeck] *)
Fixpoint isInDeck (cardParam : Card) (deckOfCards : list Card) : result bool :=
  match deckOfCards with
  | [] => Ok false
  | card :: rest =>
      let! t1 := getType cardParam in
      let! t2 := getType card in
      if String.eqb t1 t2 then Ok true else isInDeck cardParam rest
  end.

(** The inner loop of [addSpecificCardsBackIntoDeck]: pop the first card of
    [outOfDeck] that has the type of [card]. *)
Fixpoint popSameType (card : Card) (outOfDeck : list Card) : result (list Card) :=
  match outOfDeck with
  | [] => Ok []
  | c :: rest =>
      let! t1 := getType card in
      let! t2 := getType c in
      if String.eqb t1 t2 then Ok rest else cons c <$> popSameType card rest
  end.

(** The first loop of [addSpecificCardsBackIntoDeck], and the removal of the
    entries it marked ['0']: the cards kept, and what is left out of the
    deck. *)
Fixpoint takeBack (cardList outOfDeck : list Card)
  : result (list Card * list Card) :=
  match cardList with
  | [] => Ok ([], outOfDeck)
  | card :: rest =>
      let! known := isInDeck card outOfDeck in
      if known then
        let! popped := popSameType card outOfDeck in
        let! r := takeBack rest popped in
        Ok (card :: r.1, r.2)
      else takeBack rest outOfDeck
  end.

(** [Deck.addSpecificCardsBackIntoDeck] *)
Definition addSpecificCardsBackIntoDeck (cardList : list Card) (d : Deck)
  : result Deck :=
  let! r := takeBack cardList (cardsOutOfDeck d) in
  Ok {| cardsInDeck := r.1 ++ cardsInDeck d;
        cardsOutOfDeck := r.2;
        deckMultiple := deckMultiple d |}.

(** [Deck.getCardFromDeck]: the drawn card and the deck after the draw. *)
Definition getCardFromDeck (d : Deck) : result (Card * Deck) :=
  match Py.pop (cardsInDeck d) with
  | None => Raise SystemExit
  | Some (topCard, rest) =>
      Ok (topCard, {| cardsInDeck := rest;
                      cardsOutOfDeck := cardsOutOfDeck d ++ [topCard];
                      deckMultiple := deckMultiple d |})
  end.

(** [Deck.viewCardAt] *)
Definition viewCardAt (index : nat) (d : Deck) : result Card :=
  match cardsInDeck d !! index with
  | Some c => Ok c
  | None => Raise SystemExit
  end.

(** * The hand evaluator ([GameFile.PokerGame], its static methods and
    [checkHand]) *)

Definition CARD_HANDS : list string :=
  ["Royal Flush"; "Straight Flush"; "Four of a Kind"; "Full House"; "Flush";
   "Straight"; "Three of a Kind"; "Two Pairs"; "One Pair"; "No Pair"].

(** [Deck.TYPES[1:] + ["Ace"]]: the card types from lowest to highest. *)
Definition aList : list string := drop 1 TYPES ++ ["Ace"].

Fixpoint foldM {A B} (f : B -> A -> result B) (b : B) (l : list A) : result B :=
  match l with
  | [] => Ok b
  | x :: l' => let! b' := f b x in foldM f b' l'
  end.

(** [PokerGame.getHighCard]; [None] is Python's [None], returned when no
    name contains a card type. *)
Definition getHighCard (cards : list Card) : option string :=
  find (fun ranking =>
          existsb (fun card => Py.contains ranking (getCardName card)) cards)
       (rev aList).

Definition isSuitLetter (ch : ascii) : bool :=
  Ascii.eqb ch "C" || Ascii.eqb ch "D" || Ascii.eqb ch "H" || Ascii.eqb ch "S".

(** The inner loop of [isFlush] on the first name: the first of the letters
    C, D, H, S in it becomes [letter]. *)
Fixpoint firstSuitLetter (letter : ascii) (name : string) : ascii :=
  match name with
  | EmptyString => letter
  | String ch rest =>
      if isSuitLetter ch then ch else firstSuitLetter letter rest
  end.

(** The inner loop of [isFlush] on a later name: [false] when it reaches
    [return False]. *)
Fixpoint lettersAgree (letter : ascii) (name : string) : bool :=
  match name with
  | EmptyString => true
  | String ch rest =>
      if isSuitLetter ch && negb (Ascii.eqb letter ch) then false
      else lettersAgree letter rest
  end.

(** [PokerGame.isFlush] *)
Definition isFlush (cards : list Card) : bool :=
  match map getCardName cards with
  | [] => true
  | name0 :: names =>
      forallb (lettersAgree (firstSuitLetter "o" name0)) names
  end.

(** The loops [for k in range(len(aList)): if aList[k] == word: v = k],
    started from [v = 0]. *)
Definition indexInRanking (word : string) : nat :=
  foldl (fun v k =>
           match aList !! k with
           | Some a => if String.eqb a word then k else v
           | None => v
           end)
        0 (seq 0 (length aList)).

Definition rankValue (name : string) : result nat :=
  let! word := Py.split0 name in Ok (indexInRanking word).

(** The body of the two loops that sort [temp] in [isStraight]. *)
Definition swapIfGreater (i j : nat) (temp : list string) : result (list string) :=
  match temp !! i, temp !! j with
  | Some ni, Some nj =>
      let! v1 := rankValue ni in
      let! v2 := rankValue nj in
      Ok (if v2 <? v1 then <[i:=nj]> (<[j:=ni]> temp) else temp)
  | _, _ => Raise IndexError
  end.

Definition sortByRank (temp : list string) : result (list string) :=
  foldM (fun t i =>
           foldM (fun t j => swapIfGreater i j t) t
                 (seq (i + 1) (length temp - (i + 1))))
        temp (seq 0 (length temp)).

(** [temp[i].split()[0]] *)
Definition wordAt (i : nat) (temp : list string) : result string :=
  match temp !! i with
  | Some name => Py.split0 name
  | None => Raise IndexError
  end.

(** The last loop of [isStraight], from index [i] on; [rest] is [temp[i:]]. *)
Fixpoint consecutiveFrom (startListIndex i : nat) (rest : list string)
  : result bool :=
  match rest with
  | [] => Ok true
  | name :: rest' =>
      let! word := Py.split0 name in
      match aList !! (startListIndex + i) with
      | None => Raise IndexError
      | Some a =>
          if String.eqb word a then consecutiveFrom startListIndex (S i) rest'
          else Ok false
      end
  end.

(** [PokerGame.isStraight] *)
Definition isStraight (cards : list Card) : result bool :=
  let! temp := sortByRank (map getCardName cards) in
  let! w4 := wordAt 4 temp in
  let! wheel :=
    (if String.eqb w4 "Ace"
     then let! w0 := wordAt 0 temp in Ok (String.eqb w0 "Two")
     else Ok false) in
  let temp := if wheel then delete 4 temp else temp in
  let! w0 := wordAt 0 temp in
  consecutiveFrom (indexInRanking w0) 1 (drop 1 temp).

(** The inner loop of [isRoyalFlush]: the first entry of [needed] equal to
    [word] becomes a star. *)
Fixpoint markFirst (word : string) (needed : list string) : list string :=
  match needed with
  | [] => []
  | n :: rest =>
      if String.eqb word n then "*" :: rest else n :: markFirst word rest
  end.

(** [PokerGame.isRoyalFlush] *)
Definition isRoyalFlush (cards : list Card) : result bool :=
  if negb (isFlush cards) then Ok false
  else
    let! needed :=
      foldM (fun needed value =>
               let! word := Py.split0 value in Ok (markFirst word needed))
            (drop 9 TYPES ++ ["Ace"]) (map getCardName cards) in
    Ok (forallb (String.eqb "*") needed).

(** [PokerGame.isStraightFlush] *)
Definition isStraightFlush (cards : list Card) : result bool :=
  if isFlush cards then isStraight cards else Ok false.

(** The loop [for j in range(len(aList)): if aList[j] == word:
    occurrences[j] += 1]. *)
Definition tally (word : string) (occurrences : list nat) : list nat :=
  foldl (fun occ j =>
           match aList !! j with
           | Some a => if String.eqb a word then alter S j occ else occ
           | None => occ
           end)
        occurrences (seq 0 (length aList)).

(** The number of occurrences of each card type, as [isXofAKind] and
    [isTwoPairs] count them. *)
Definition countOccurrences (cards : list Card) : result (list nat) :=
  foldM (fun occ name => let! word := Py.split0 name in Ok (tally word occ))
        (replicate (length TYPES) 0) (map getCardName cards).

(** [PokerGame.isXofAKind] *)
Definition isXofAKind (cards : list Card) (X : Z) : result bool :=
  if ((X <? 0) || (4 <? X))%Z then Raise SystemExit
  else
    let! occurrences := countOccurrences cards in
    Ok (existsb (fun n => (Z.of_nat n =? X)%Z) occurrences).

(** [PokerGame.isTwoPairs] *)
Definition isTwoPairs (cards : list Card) : result bool :=
  let! occurrences := countOccurrences cards in
  Ok (length (filter (fun n => n = 2) occurrences) =? 2).

Definition isOnePair (cards : list Card) : result bool := isXofAKind cards 2.

Definition isFourOfAKind (cards : list Card) : result bool := isXofAKind cards 4.

Definition isThreeOfAKind (cards : list Card) : result bool := isXofAKind cards 3.

(** [PokerGame.isFullHouse] *)
Definition isFullHouse (cards : list Card) : result bool :=
  let! three := isXofAKind cards 3 in
  if three then isXofAKind cards 2 else Ok false.

(** The nine tests of [checkHand], in the order of its list [functions]. *)
Definition functions : list (list Card -> result bool) :=
  [isRoyalFlush; isStraightFlush; isFourOfAKind; isFullHouse;
   (fun cards => Ok (isFlush cards)); isStraight; isThreeOfAKind; isTwoPairs;
   isOnePair].

(** The slice [l[start:end]] for [0 <= start] and [0 <= end]. *)
Definition slice {A} (start end_ : nat) (l : list A) : list A :=
  drop start (take end_ l).

(** The windows of [checkHand]: [width] cards from [start] on, going round
    to the front of the list when they pass its end. *)
Definition window {A} (width start : nat) (l : list A) : list A :=
  let end_ := start + width in
  if length l + 1 <=? end_
  then drop start l ++ take (end_ - length l) l
  else slice start end_ l.

(** Every [temp] of [checkHand], in the order of its loops over [j] and [k]. *)
Definition fiveCardHands (cards : list Card) : list (list Card) :=
  j ← seq 0 (length cards);
  let specificCards := window 6 j cards in
  k ← seq 0 (length specificCards);
  [window 5 k specificCards].

(** The loops over [j] and [k] for one test: [true] when some hand passes. *)
Fixpoint anyHand (test : list Card -> result bool) (hands : list (list Card))
  : result bool :=
  match hands with
  | [] => Ok false
  | temp :: hands' =>
      let! passed := test temp in
      if passed then Ok true else anyHand test hands'
  end.

(** The loop over [i]: the name of the first test that some hand passes. *)
Fixpoint firstCategory (tests : list ((list Card -> result bool) * string))
  (hands : list (list Card)) : result (option string) :=
  match tests with
  | [] => Ok None
  | (test, name) :: tests' =>
      let! found := anyHand test hands in
      if found then Ok (Some name) else firstCategory tests' hands
  end.

(** [PokerGame.checkHand] on the seven cards it assembles: the five
    [_displayCards], then the two cards of the player.  The answer is a name
    of [CARD_HANDS] or, when no test passes, what [getHighCard] says of the
    player's two cards. *)
Definition checkHandCards (cards : list Card) : result (option string) :=
  let! found := firstCategory (zip functions CARD_HANDS) (fiveCardHands cards) in
  match found with
  | Some hand => Ok (Some hand)
  | None => Ok (getHighCard (drop 5 cards))
  end.

(** * The game ([GameFile.PokerGame]) *)

(** ** Numbers, buttons and the state *)

(** Python's numbers.  The balances, the pot and the wagers start as
    integers and become floats once a pot is halved; the clock is a float.
    They are modelled as exact rationals, which is what the floats are as
    long as they stay halves of integers below 2^53. *)
Definition Qltb (x y : Q) : bool :=
  match (x ?= y)%Q with Lt => true | _ => false end.

(** [SpriteFile.Button]: whether it can be clicked, and where it is. *)
Record Button := mkButton {
  isClickable : bool;
  button_x : Z;
  button_y : Z;
  button_width : Z;
  button_height : Z
}.

(** [Button.mouseIsOver] *)
Definition mouseIsOver (pos : Z * Z) (b : Button) : bool :=
  ((button_x b <? pos.1) && (pos.1 <? button_x b + button_width b)
   && (button_y b <? pos.2) && (pos.2 <? button_y b + button_height b))%Z.

(** [Button.changeClickability] *)
Definition changeClickability (clickable : bool) (b : Button) : Button :=
  mkButton clickable (button_x b) (button_y b) (button_width b)
           (button_height b).

(** The instance variables of [PokerGame] that the rules of the game read
    or write.  Of [_computerCard1] and [_computerCard2] only the card at
    index 0 is kept; index 1 is the face-down picture. *)
Record Game := mkGame {
  startTime : Q;
  winner : string;
  userHand : option string;
  computerHand : option string;
  roundHasEnded : bool;
  userFolded : bool;
  computerHasTurn : bool;
  computerTurnStartTime : Q;
  userMoney : Q;
  computerMoney : Q;
  currentPot : Q;
  currentWager : Q;
  currentBeingRisked : Q;
  foldButton : Button;
  callButton : Button;
  raiseButton : Button;
  newRoundButton : Button;
  exitGameButton : Button;
  cardDeck : Deck;
  userCard1 : Card;
  userCard2 : Card;
  computerCard1 : Card;
  computerCard2 : Card;
  displayCards : list Card;
  cardsInDisplay : nat
}.

(** Assignments to one instance variable. *)
Definition set_startTime (v : Q) (g : Game) : Game :=
  mkGame v (winner g) (userHand g) (computerHand g) (roundHasEnded g)
    (userFolded g) (computerHasTurn g) (computerTurnStartTime g)
    (userMoney g) (computerMoney g) (currentPot g) (currentWager g)
    (currentBeingRisked g) (foldButton g) (callButton g) (raiseButton g)
    (newRoundButton g) (exitGameButton g) (cardDeck g) (userCard1 g)
    (userCard2 g) (computerCard1 g) (computerCard2 g) (displayCards g)
    (cardsInDisplay g).

Definition set_winner (v : string) (g : Game) : Game :=
  mkGame (startTime g) v (userHand g) (computerHand g) (roundHasEnded g)
    (userFolded g) (computerHasTurn g) (computerTurnStartTime g)
    (userMoney g) (computerMoney g) (currentPot g) (currentWager g)
    (currentBeingRisked g) (foldButton g) (callButton g) (raiseButton g)
    (newRoundButton g) (exitGameButton g) (cardDeck g) (userCard1 g)
    (userCard2 g) (computerCard1 g) (computerCard2 g) (displayCards g)
    (cardsInDisplay g).

Definition set_userHand (v : option string) (g : Game) : Game :=
  mkGame (startTime g) (winner g) v (computerHand g) (roundHasEnded g)
    (userFolded g) (computerHasTurn g) (computerTurnStartTime g)
    (userMoney g) (computerMoney g) (currentPot g) (currentWager g)
    (currentBeingRisked g) (foldButton g) (callButton g) (raiseButton g)
    (newRoundButton g) (exitGameButton g) (cardDeck g) (userCard1 g)
    (userCard2 g) (computerCard1 g) (computerCard2 g) (displayCards g)
    (cardsInDisplay g).

Definition set_computerHand (v : option string) (g : Game) : Game :=
  mkGame (startTime g) (winner g) (userHand g) v (roundHasEnded g)
    (userFolded g) (computerHasTurn g) (computerTurnStartTime g)
    (userMoney g) (computerMoney g) (currentPot g) (currentWager g)
    (currentBeingRisked g) (foldButton g) (callButton g) (raiseButton g)
    (newRoundButton g) (exitGameButton g) (cardDeck g) (userCard1 g)
    (userCard2 g) (computerCard1 g) (computerCard2 g) (displayCards g)
    (cardsInDisplay g).

Definition set_roundHasEnded (v : bool) (g : Game) : Game :=
  mkGame (startTime g) (winner g) (userHand g) (computerHand g) v
    (userFolded g) (computerHasTurn g) (computerTurnStartTime g)
    (userMoney g) (computerMoney g) (currentPot g) (currentWager g)
    (currentBeingRisked g) (foldButton g) (callButton g) (raiseButton g)
    (newRoundButton g) (exitGameButton g) (cardDeck g) (userCard1 g)
    (userCard2 g) (computerCard1 g) (computerCard2 g) (displayCards g)
    (cardsInDisplay g).

Definition set_userFolded (v : bool) (g : Game) : Game :=
  mkGame (startTime g) (winner g) (userHand g) (computerHand g)
    (roundHasEnded g) v (computerHasTurn g) (computerTurnStartTime g)
    (userMoney g) (computerMoney g) (currentPot g) (currentWager g)
    (currentBeingRisked g) (foldButton g) (callButton g) (raiseButton g)
    (newRoundButton g) (exitGameButton g) (cardDeck g) (userCard1 g)
    (userCard2 g) (computerCard1 g) (computerCard2 g) (displayCards g)
    (cardsInDisplay g).

Definition set_computerHasTurn (v : bool) (g : Game) : Game :=
  mkGame (startTime g) (winner g) (userHand g) (computerHand g)
    (roundHasEnded g) (userFolded g) v (computerTurnStartTime g)
    (userMoney g) (computerMoney g) (currentPot g) (currentWager g)
    (currentBeingRisked g) (foldButton g) (callButton g) (raiseButton g)
    (newRoundButton g) (exitGameButton g) (cardDeck g) (userCard1 g)
    (userCard2 g) (computerCard1 g) (computerCard2 g) (displayCards g)
    (cardsInDisplay g).

Definition set_computerTurnStartTime (v : Q) (g : Game) : Game :=
  mkGame (startTime g) (winner g) (userHand g) (computerHand g)
    (roundHasEnded g) (userFolded g) (computerHasTurn g) v (userMoney g)
    (computerMoney g) (currentPot g) (currentWager g) (currentBeingRisked g)
    (foldButton g) (callButton g) (raiseButton g) (newRoundButton g)
    (exitGameButton g) (cardDeck g) (userCard1 g) (userCard2 g)
    (computerCard1 g) (computerCard2 g) (displayCards g) (cardsInDisplay g).

Definition set_userMoney (v : Q) (g : Game) : Game :=
  mkGame (startTime g) (winner g) (userHand g) (computerHand g)
    (roundHasEnded g) (userFolded g) (computerHasTurn g)
    (computerTurnStartTime g) v (computerMoney g) (currentPot g)
    (currentWager g) (currentBeingRisked g) (foldButton g) (callButton g)
    (raiseButton g) (newRoundButton g) (exitGameButton g) (cardDeck g)
    (userCard1 g) (userCard2 g) (computerCard1 g) (computerCard2 g)
    (displayCards g) (cardsInDisplay g).

Definition set_computerMoney (v : Q) (g : Game) : Game :=
  mkGame (startTime g) (winner g) (userHand g) (computerHand g)
    (roundHasEnded g) (userFolded g) (computerHasTurn g)
    (computerTurnStartTime g) (userMoney g) v (currentPot g) (currentWager g)
    (currentBeingRisked g) (foldButton g) (callButton g) (raiseButton g)
    (newRoundButton g) (exitGameButton g) (cardDeck g) (userCard1 g)
    (userCard2 g) (computerCard1 g) (computerCard2 g) (displayCards g)
    (cardsInDisplay g).

Definition set_currentPot (v : Q) (g : Game) : Game :=
  mkGame (startTime g) (winner g) (userHand g) (computerHand g)
    (roundHasEnded g) (userFolded g) (computerHasTurn g)
    (computerTurnStartTime g) (userMoney g) (computerMoney g) v
    (currentWager g) (currentBeingRisked g) (foldButton g) (callButton g)
    (raiseButton g) (newRoundButton g) (exitGameButton g) (cardDeck g)
    (userCard1 g) (userCard2 g) (computerCard1 g) (computerCard2 g)
    (displayCards g) (cardsInDisplay g).

Definition set_currentWager (v : Q) (g : Game) : Game :=
  mkGame (startTime g) (winner g) (userHand g) (computerHand g)
    (roundHasEnded g) (userFolded g) (computerHasTurn g)
    (computerTurnStartTime g) (userMoney g) (computerMoney g) (currentPot g)
    v (currentBeingRisked g) (foldButton g) (callButton g) (raiseButton g)
    (newRoundButton g) (exitGameButton g) (cardDeck g) (userCard1 g)
    (userCard2 g) (computerCard1 g) (computerCard2 g) (displayCards g)
    (cardsInDisplay g).

Definition set_currentBeingRisked (v : Q) (g : Game) : Game :=
  mkGame (startTime g) (winner g) (userHand g) (computerHand g)
    (roundHasEnded g) (userFolded g) (computerHasTurn g)
    (computerTurnStartTime g) (userMoney g) (computerMoney g) (currentPot g)
    (currentWager g) v (foldButton g) (callButton g) (raiseButton g)
    (newRoundButton g) (exitGameButton g) (cardDeck g) (userCard1 g)
    (userCard2 g) (computerCard1 g) (computerCard2 g) (displayCards g)
    (cardsInDisplay g).

Definition set_foldButton (v : Button) (g : Game) : Game :=
  mkGame (startTime g) (winner g) (userHand g) (computerHand g)
    (roundHasEnded g) (userFolded g) (computerHasTurn g)
    (computerTurnStartTime g) (userMoney g) (computerMoney g) (currentPot g)
    (currentWager g) (currentBeingRisked g) v (callButton g) (raiseButton g)
    (newRoundButton g) (exitGameButton g) (cardDeck g) (userCard1 g)
    (userCard2 g) (computerCard1 g) (computerCard2 g) (displayCards g)
    (cardsInDisplay g).

Definition set_callButton (v : Button) (g : Game) : Game :=
  mkGame (startTime g) (winner g) (userHand g) (computerHand g)
    (roundHasEnded g) (userFolded g) (computerHasTurn g)
    (computerTurnStartTime g) (userMoney g) (computerMoney g) (currentPot g)
    (currentWager g) (currentBeingRisked g) (foldButton g) v (raiseButton g)
    (newRoundButton g) (exitGameButton g) (cardDeck g) (userCard1 g)
    (userCard2 g) (computerCard1 g) (computerCard2 g) (displayCards g)
    (cardsInDisplay g).

Definition set_raiseButton (v : Button) (g : Game) : Game :=
  mkGame (startTime g) (winner g) (userHand g) (computerHand g)
    (roundHasEnded g) (userFolded g) (computerHasTurn g)
    (computerTurnStartTime g) (userMoney g) (computerMoney g) (currentPot g)
    (currentWager g) (currentBeingRisked g) (foldButton g) (callButton g) v
    (newRoundButton g) (exitGameButton g) (cardDeck g) (userCard1 g)
    (userCard2 g) (computerCard1 g) (computerCard2 g) (displayCards g)
    (cardsInDisplay g).

Definition set_newRoundButton (v : Button) (g : Game) : Game :=
  mkGame (startTime g) (winner g) (userHand g) (computerHand g)
    (roundHasEnded g) (userFolded g) (computerHasTurn g)
    (computerTurnStartTime g) (userMoney g) (computerMoney g) (currentPot g)
    (currentWager g) (currentBeingRisked g) (foldButton g) (callButton g)
    (raiseButton g) v (exitGameButton g) (cardDeck g) (userCard1 g)
    (userCard2 g) (computerCard1 g) (computerCard2 g) (displayCards g)
    (cardsInDisplay g).

Definition set_exitGameButton (v : Button) (g : Game) : Game :=
  mkGame (startTime g) (winner g) (userHand g) (computerHand g)
    (roundHasEnded g) (userFolded g) (computerHasTurn g)
    (computerTurnStartTime g) (userMoney g) (computerMoney g) (currentPot g)
    (currentWager g) (currentBeingRisked g) (foldButton g) (callButton g)
    (raiseButton g) (newRoundButton g) v (cardDeck g) (userCard1 g)
    (userCard2 g) (computerCard1 g) (computerCard2 g) (displayCards g)
    (cardsInDisplay g).

Definition set_cardDeck (v : Deck) (g : Game) : Game :=
  mkGame (startTime g) (winner g) (userHand g) (computerHand g)
    (roundHasEnded g) (userFolded g) (computerHasTurn g)
    (computerTurnStartTime g) (userMoney g) (computerMoney g) (currentPot g)
    (currentWager g) (currentBeingRisked g) (foldButton g) (callButton g)
    (raiseButton g) (newRoundButton g) (exitGameButton g) v (userCard1 g)
    (userCard2 g) (computerCard1 g) (computerCard2 g) (displayCards g)
    (cardsInDisplay g).

Definition set_userCard1 (v : Card) (g : Game) : Game :=
  mkGame (startTime g) (winner g) (userHand g) (computerHand g)
    (roundHasEnded g) (userFolded g) (computerHasTurn g)
    (computerTurnStartTime g) (userMoney g) (computerMoney g) (currentPot g)
    (currentWager g) (currentBeingRisked g) (foldButton g) (callButton g)
    (raiseButton g) (newRoundButton g) (exitGameButton g) (cardDeck g) v
    (userCard2 g) (computerCard1 g) (computerCard2 g) (displayCards g)
    (cardsInDisplay g).

Definition set_userCard2 (v : Card) (g : Game) : Game :=
  mkGame (startTime g) (winner g) (userHand g) (computerHand g)
    (roundHasEnded g) (userFolded g) (computerHasTurn g)
    (computerTurnStartTime g) (userMoney g) (computerMoney g) (currentPot g)
    (currentWager g) (currentBeingRisked g) (foldButton g) (callButton g)
    (raiseButton g) (newRoundButton g) (exitGameButton g) (cardDeck g)
    (userCard1 g) v (computerCard1 g) (computerCard2 g) (displayCards g)
    (cardsInDisplay g).

Definition set_computerCard1 (v : Card) (g : Game) : Game :=
  mkGame (startTime g) (winner g) (userHand g) (computerHand g)
    (roundHasEnded g) (userFolded g) (computerHasTurn g)
    (computerTurnStartTime g) (userMoney g) (computerMoney g) (currentPot g)
    (currentWager g) (currentBeingRisked g) (foldButton g) (callButton g)
    (raiseButton g) (newRoundButton g) (exitGameButton g) (cardDeck g)
    (userCard1 g) (userCard2 g) v (computerCard2 g) (displayCards g)
    (cardsInDisplay g).

Definition set_computerCard2 (v : Card) (g : Game) : Game :=
  mkGame (startTime g) (winner g) (userHand g) (computerHand g)
    (roundHasEnded g) (userFolded g) (computerHasTurn g)
    (computerTurnStartTime g) (userMoney g) (computerMoney g) (currentPot g)
    (currentWager g) (currentBeingRisked g) (foldButton g) (callButton g)
    (raiseButton g) (newRoundButton g) (exitGameButton g) (cardDeck g)
    (userCard1 g) (userCard2 g) (computerCard1 g) v (displayCards g)
    (cardsInDisplay g).

Definition set_displayCards (v : list Card) (g : Game) : Game :=
  mkGame (startTime g) (winner g) (userHand g) (computerHand g)
    (roundHasEnded g) (userFolded g) (computerHasTurn g)
    (computerTurnStartTime g) (userMoney g) (computerMoney g) (currentPot g)
    (currentWager g) (currentBeingRisked g) (foldButton g) (callButton g)
    (raiseButton g) (newRoundButton g) (exitGameButton g) (cardDeck g)
    (userCard1 g) (userCard2 g) (computerCard1 g) (computerCard2 g) v
    (cardsInDisplay g).

Definition set_cardsInDisplay (v : nat) (g : Game) : Game :=
  mkGame (startTime g) (winner g) (userHand g) (computerHand g)
    (roundHasEnded g) (userFolded g) (computerHasTurn g)
    (computerTurnStartTime g) (userMoney g) (computerMoney g) (currentPot g)
    (currentWager g) (currentBeingRisked g) (foldButton g) (callButton g)
    (raiseButton g) (newRoundButton g) (exitGameButton g) (cardDeck g)
    (userCard1 g) (userCard2 g) (computerCard1 g) (computerCard2 g)
    (displayCards g) v.

(** ** The rules *)

Definition MINIMUM_BET_WAGE : Q := 20.

Definition START_BALANCE : Q := 500.

Definition COMPUTER_WAIT_TIME : Q := 1.

(** [pygame.K_RETURN] and [pygame.K_q] *)
Definition K_RETURN : Z := 13.

Definition K_q : Z := 113.

(** [PokerGame.__init__]; [rs] is the random source of its shuffle. *)
Definition init (rs : list nat) : Game :=
  {| startTime := -1;
     winner := "No Winner";
     userHand := Some "None";
     computerHand := Some "None";
     roundHasEnded := false;
     userFolded := false;
     computerHasTurn := false;
     computerTurnStartTime := 0;
     userMoney := START_BALANCE;
     computerMoney := START_BALANCE;
     currentPot := 0;
     currentWager := MINIMUM_BET_WAGE;
     currentBeingRisked := 0;
     foldButton := mkButton true 20 20 80 50;
     callButton := mkButton true 110 20 80 50;
     raiseButton := mkButton true 200 20 80 50;
     newRoundButton := mkButton true 130 20 100 50;
     exitGameButton := mkButton true 40 20 80 50;
     cardDeck := shuffle rs (newDeck 1);
     userCard1 := mkCard "Empty";
     userCard2 := mkCard "Empty";
     computerCard1 := mkCard "Empty";
     computerCard2 := mkCard "Empty";
     displayCards := replicate 5 (mkCard "Empty");
     cardsInDisplay := 0 |}.

(** [l[i] = x] *)
Definition setItem {A} (i : nat) (x : A) (l : list A) : result (list A) :=
  if i <? length l then Ok (<[i:=x]> l) else Raise IndexError.

(** [self._cardDeck.getCardFromDeck()] *)
Definition drawCard (g : Game) : result (Card * Game) :=
  let! drawn := getCardFromDeck (cardDeck g) in
  Ok (drawn.1, set_cardDeck drawn.2 g).

(** [PokerGame.__startNewRound]; [rs] is the random source of its shuffle. *)
Definition __startNewRound (rs : list nat) (g : Game) : result Game :=
  let g := set_winner "No Winner" g in
  let g := set_userHand (Some "None") g in
  let g := set_computerHand (Some "None") g in
  let g := set_currentPot 0 g in
  let g := set_currentWager MINIMUM_BET_WAGE g in
  let g := set_currentBeingRisked 0 g in
  let g := set_roundHasEnded false g in
  let g := set_userFolded false g in
  let g := set_cardsInDisplay 0 g in
  let g := set_cardDeck (addAllCardsBackIntoDeck (cardDeck g)) g in
  let g := set_cardDeck (shuffle rs (cardDeck g)) g in
  let! drawn := drawCard g in
  let g := set_userCard1 drawn.1 drawn.2 in
  let! drawn := drawCard g in
  let g := set_userCard2 drawn.1 drawn.2 in
  let! drawn := drawCard g in
  let g := set_computerCard1 drawn.1 drawn.2 in
  let! drawn := drawCard g in
  Ok (set_computerCard2 drawn.1 drawn.2).

(** [self._displayCards[i] = self._cardDeck.getCardFromDeck()] *)
Definition displayCardAt (i : nat) (g : Game) : result Game :=
  let! drawn := drawCard g in
  let! cards := setItem i drawn.1 (displayCards drawn.2) in
  Ok (set_displayCards cards drawn.2).

(** [PokerGame.__displayFlop] *)
Definition __displayFlop (g : Game) : result Game :=
  let g := set_currentWager MINIMUM_BET_WAGE g in
  let! g := foldM (fun g i => displayCardAt i g) g (seq 0 3) in
  Ok (set_cardsInDisplay 3 g).

(** [PokerGame.__displayFourthCard] *)
Definition __displayFourthCard (g : Game) : result Game :=
  let g := set_currentWager MINIMUM_BET_WAGE g in
  let! g := displayCardAt 3 g in
  Ok (set_cardsInDisplay 4 g).

(** [PokerGame.__displayLastCard] *)
Definition __displayLastCard (g : Game) : result Game :=
  let g := set_currentWager MINIMUM_BET_WAGE g in
  let! g := displayCardAt 4 g in
  Ok (set_cardsInDisplay 5 g).

(** [PokerGame.__displayNextCardSet] *)
Definition __displayNextCardSet (g : Game) : result Game :=
  if cardsInDisplay g =? 0 then __displayFlop g
  else if cardsInDisplay g =? 3 then __displayFourthCard g
  else if cardsInDisplay g =? 4 then __displayLastCard g
  else Ok g.

(** [PokerGame.checkHand] *)
Definition checkHand (userHand : bool) (g : Game) : result (option string) :=
  checkHandCards
    (displayCards g ++
     (if userHand then [userCard1 g; userCard2 g]
      else [computerCard1 g; computerCard2 g])).

(** [PokerGame.__fold] *)
Definition __fold (g : Game) : result Game :=
  let g := set_computerMoney (computerMoney g + currentPot g) g in
  let g := set_currentPot 0 g in
  let g := set_currentWager MINIMUM_BET_WAGE g in
  let g := set_currentBeingRisked 0 g in
  let g := set_roundHasEnded true g in
  let g := set_winner "Computer" g in
  let g := set_userFolded true g in
  let! hand := checkHand true g in
  let g := set_userHand hand g in
  let! hand := checkHand false g in
  let g := set_computerHand hand g in
  let! g := (if cardsInDisplay g =? 0 then __displayFlop g else Ok g) in
  let! g := (if cardsInDisplay g =? 3 then __displayFourthCard g else Ok g) in
  if cardsInDisplay g =? 4 then __displayLastCard g else Ok g.

(** [PokerGame.__executeComputerCall]; [now] is what [time.time()] reads. *)
Definition __executeComputerCall (now : Q) (g : Game) : Game :=
  let g := set_computerMoney (computerMoney g - currentWager g) g in
  let g := set_currentPot (currentPot g + currentWager g) g in
  let g := set_computerHasTurn true g in
  set_computerTurnStartTime now g.

(** [x in CARD_HANDS and CARD_HANDS.index(x)], or -1: the score that
    [determineWinner] gives to a hand. *)
Definition handScore (hand : option string) : Z :=
  match hand with
  | Some name =>
      match Py.index name CARD_HANDS with
      | Ok i => Z.of_nat i
      | Raise _ => -1
      end
  | None => -1
  end.

(** [aList.index(PokerGame.getHighCard(cards))] *)
Definition highCardScore (cards : list Card) : result nat :=
  match getHighCard cards with
  | Some ranking => Py.index ranking aList
  | None => Raise ValueError
  end.

(** The first half of [determineWinner]: who wins. *)
Definition decideWinner (userScore computerScore : Z)
  (userCardScore compCardScore : nat) : string :=
  if ((0 <=? userScore) && (0 <=? computerScore))%Z then
    if (userScore <? computerScore)%Z then "User"
    else if (computerScore <? userScore)%Z then "Computer"
    else if compCardScore <? userCardScore then "User"
    else if userCardScore <? compCardScore then "Computer"
    else "Nobody"
  else if ((userScore =? -1) && (computerScore =? -1))%Z then
    if compCardScore <? userCardScore then "User"
    else if userCardScore <? compCardScore then "Computer"
    else "Nobody"
  else if (userScore =? -1)%Z then "Computer"
  else "User".

(** [PokerGame.determineWinner] *)
Definition determineWinner (g : Game) : result Game :=
  let! userCardScore := highCardScore [userCard1 g; userCard2 g] in
  let! compCardScore := highCardScore [computerCard1 g; computerCard2 g] in
  let userScore := handScore (userHand g) in
  let computerScore := handScore (computerHand g) in
  let g :=
    set_winner
      (decideWinner userScore computerScore userCardScore compCardScore) g in
  let g :=
    if String.eqb (winner g) "User" then
      set_userMoney (userMoney g + currentPot g) g
    else if String.eqb (winner g) "Computer" then
      set_computerMoney (computerMoney g + currentPot g) g
    else
      let g := set_userMoney (userMoney g + currentPot g / 2) g in
      set_computerMoney (computerMoney g + currentPot g / 2) g in
  let g := set_currentPot 0 g in
  let g := set_currentWager MINIMUM_BET_WAGE g in
  let g := set_currentBeingRisked 0 g in
  Ok (set_roundHasEnded true g).

(** The end of [__call] and of [__raise]: after the last bet the hands are
    shown and the winner is determined. *)
Definition showdown (g : Game) : result Game :=
  if cardsInDisplay g =? 5 then
    let! hand := checkHand true g in
    let g := set_userHand hand g in
    let! hand := checkHand false g in
    let g := set_computerHand hand g in
    determineWinner g
  else Ok g.

(** [PokerGame.__call]; [now] is what [time.time()] reads. *)
Definition __call (now : Q) (g : Game) : result Game :=
  if Qltb (userMoney g - currentWager g) 0 then
    let g := set_userMoney START_BALANCE g in
    let g := set_computerMoney START_BALANCE g in
    let g := set_currentPot 0 g in
    let g := set_currentBeingRisked 0 g in
    __fold g
  else
    let g := set_userMoney (userMoney g - currentWager g) g in
    let g := set_currentPot (currentPot g + currentWager g) g in
    let g := set_currentBeingRisked (currentBeingRisked g + currentWager g) g in
    let g := __executeComputerCall now g in
    showdown g.

(** [PokerGame.__raise]; [now] is what [time.time()] reads. *)
Definition __raise (now : Q) (g : Game) : result Game :=
  if Qltb (userMoney g) (2 * currentWager g) then Ok g
  else
    let g := set_currentWager (currentWager g * 2) g in
    let g := set_userMoney (userMoney g - currentWager g) g in
    let g := set_currentPot (currentPot g + currentWager g) g in
    let g := set_currentBeingRisked (currentBeingRisked g + currentWager g) g in
    let g := __executeComputerCall now g in
    showdown g.

(** [PokerGame.keyDown]; [t1] and [t2] are what its two calls of
    [time.time()] read. *)
Definition keyDown (key : Z) (t1 t2 : Q) (g : Game) : result Game :=
  if ((key =? K_RETURN)%Z || (key =? K_q)%Z)
     && (Qeq_bool (startTime g) (-1) || Qltb (5 # 100) (t1 - startTime g))
  then
    let! g := __fold g in
    Ok (set_startTime t2 g)
  else Ok g.

(** [PokerGame.mouseButtonDown]; [pos] is what [pygame.mouse.get_pos()]
    reads, [now] what [time.time()] reads, [rs] the random source. *)
Definition mouseButtonDown (pos : Z * Z) (now : Q) (rs : list nat) (g : Game)
  : result Game :=
  if computerHasTurn g then Ok g
  else if negb (roundHasEnded g) then
    if mouseIsOver pos (foldButton g) && isClickable (foldButton g) then
      __fold g
    else if mouseIsOver pos (callButton g) && isClickable (callButton g) then
      __call now g
    else if mouseIsOver pos (raiseButton g) && isClickable (raiseButton g) then
      __raise now g
    else Ok g
  else
    if mouseIsOver pos (newRoundButton g) && isClickable (newRoundButton g)
    then __startNewRound rs g
    else if mouseIsOver pos (exitGameButton g) && isClickable (exitGameButton g)
    then Raise PygameQuit
    else Ok g.

(** [PokerGame.__checkForClickabilityChanges] *)
Definition __checkForClickabilityChanges (g : Game) : Game :=
  let g :=
    if Qltb (userMoney g) (currentWager g * 2) then
      set_raiseButton (changeClickability false (raiseButton g)) g
    else if negb (isClickable (raiseButton g))
            && negb (Qltb (userMoney g) (currentWager g * 2)) then
      set_raiseButton (changeClickability true (raiseButton g)) g
    else g in
  if roundHasEnded g
     && (negb (isClickable (newRoundButton g))
         || negb (isClickable (exitGameButton g))) then
    let g := set_newRoundButton (changeClickability true (newRoundButton g)) g in
    set_exitGameButton (changeClickability true (exitGameButton g)) g
  else if negb (roundHasEnded g)
          && (isClickable (newRoundButton g) || isClickable (exitGameButton g))
  then
    let g := set_newRoundButton (changeClickability false (newRoundButton g)) g in
    set_exitGameButton (changeClickability false (exitGameButton g)) g
  else g.

(** The start of each turn of the loop of [run]: one second after the
    computer's call its turn ends and the next cards are shown. *)
Definition endComputerTurn (now : Q) (g : Game) : result Game :=
  if computerHasTurn g
     && Qltb COMPUTER_WAIT_TIME (now - computerTurnStartTime g) then
    let! g := __displayNextCardSet g in
    Ok (set_computerHasTurn false g)
  else Ok g.

(** ** The loop of [run] *)

(** What the loop of [run] does, piece by piece. *)
Inductive Input :=
| Tick (now : Q)
| MOUSEBUTTONDOWN (pos : Z * Z) (now : Q) (rs : list nat)
| KEYDOWN (key : Z) (t1 t2 : Q)
| QUIT
| Refresh.

Definition step (i : Input) (g : Game) : result Game :=
  match i with
  | Tick now => endComputerTurn now g
  | MOUSEBUTTONDOWN pos now rs => mouseButtonDown pos now rs g
  | KEYDOWN key t1 t2 => keyDown key t1 t2 g
  | QUIT => Raise PygameQuit
  | Refresh => Ok (__checkForClickabilityChanges g)
  end.

(** One turn of the loop: the check of the computer's turn, the events of
    the queue, then the buttons. *)
Definition frame (now : Q) (events : list Input) : list Input :=
  Tick now :: events ++ [Refresh].

(** The loop of [run] from the state [g] on. *)
Definition runFrom (g : Game) (inputs : list Input) : result Game :=
  foldM (fun g i => step i g) g inputs.

(** [PokerGame.run] after [__init__]: the first round is started, then the
    inputs are served in order. *)
Definition run (rs0 rs1 : list nat) (inputs : list Input) : result Game :=
  let! g := __startNewRound rs1 (init rs0) in
  runFrom g inputs.

(** * Notions of the specification *)

(** ** Sequences of deck operations *)

Inductive DeckOp :=
| OpShuffle (rs : list nat)
| OpDraw
| OpReturnAll
| OpReturnSpecific (cardList : list Card).

Definition applyOp (op : DeckOp) (d : Deck) : result Deck :=
  match op with
  | OpShuffle rs => Ok (shuffle rs d)
  | OpDraw => snd <$> getCardFromDeck d
  | OpReturnAll => Ok (addAllCardsBackIntoDeck d)
  | OpReturnSpecific cardList => addSpecificCardsBackIntoDeck cardList d
  end.

Fixpoint runOps (ops : list DeckOp) (d : Deck) : result Deck :=
  match ops with
  | [] => Ok d
  | op :: ops' => let! d' := applyOp op d in runOps ops' d'
  end.

(** ** Reachable states and the money on the table *)

(** The states a run of the game passes through. *)
Definition reachable (g : Game) : Prop :=
  exists rs0 rs1 g0 inputs,
    __startNewRound rs1 (init rs0) = Ok g0 /\ runFrom g0 inputs = Ok g.

(** All the money on the table. *)
Definition totalMoney (g : Game) : Q :=
  userMoney g + computerMoney g + currentPot g.

(** ** The tie-break over seven cards *)

(** The tie-break as the specification words it: the highest card among
    all seven cards of each player, the five shared ones included. *)
Definition sevenCards (userHand : bool) (g : Game) : list Card :=
  displayCards g ++
  (if userHand then [userCard1 g; userCard2 g]
   else [computerCard1 g; computerCard2 g]).

Definition sevenCardTieBreak (g : Game) : result string :=
  let! u := highCardScore (sevenCards true g) in
  let! c := highCardScore (sevenCards false g) in
  Ok (if c <? u then "User" else if u <? c then "Computer" else "Nobody").

(** ** Evaluators over all combinations of five cards *)

(** The hands of [k] cards out of [l], in the order of the list
    ([itertools.combinations]). *)
Fixpoint combinations {A} (k : nat) (l : list A) : list (list A) :=
  match k, l with
  | 0, _ => [[]]
  | S _, [] => []
  | S k', x :: l' => map (cons x) (combinations k' l') ++ combinations k l'
  end.

(** The evaluator with the nine tests in the outer loop, as in [checkHand],
    and the 21 combinations of five cards in the inner loop. *)
Definition evaluateCategoryFirst (cards : list Card) : result (option string) :=
  let! found :=
    firstCategory (zip functions CARD_HANDS) (combinations 5 cards) in
  match found with
  | Some hand => Ok (Some hand)
  | None => Ok (getHighCard (drop 5 cards))
  end.

(** The evaluator as the specification words it: for each combination of
    five cards in turn, the tests from strongest to weakest, and the first
    test that passes is the answer. *)
Fixpoint firstTest (tests : list ((list Card -> result bool) * string))
  (hand : list Card) : result (option string) :=
  match tests with
  | [] => Ok None
  | (test, name) :: tests' =>
      let! passed := test hand in
      if passed then Ok (Some name) else firstTest tests' hand
  end.

Fixpoint firstHand (tests : list ((list Card -> result bool) * string))
  (hands : list (list Card)) : result (option string) :=
  match hands with
  | [] => Ok None
  | hand :: hands' =>
      let! found := firstTest tests hand in
      match found with
      | Some name => Ok (Some name)
      | None => firstHand tests hands'
      end
  end.

Definition evaluateSubsetFirst (cards : list Card) : result (option string) :=
  let! found := firstHand (zip functions CARD_HANDS) (combinations 5 cards) in
  match found with
  | Some hand => Ok (Some hand)
  | None => Ok (getHighCard (drop 5 cards))
  end.

(** * Notions for the proofs *)

(** ** The deck and the money *)

(** Cards in the deck plus cards out of it. *)
Definition deckCount (d : Deck) : nat :=
  length (cardsInDeck d) + length (cardsOutOfDeck d).

(** A game with its deck and its five shared cards blanked out: what the
    functions that only deal cards leave alone. *)
Definition offTable (g : Game) : Game :=
  set_cardsInDisplay 0 (set_displayCards [] (set_cardDeck (mkDeck [] [] 0) g)).

(** The money and the wager stay in order: the user owes nothing, the pot
    and the wager are not negative, there are 1000 dollars in all, and the
    pot is empty once the round has ended. *)
Definition betInv (g : Game) : Prop :=
  (0 <= userMoney g)%Q /\ (0 <= currentPot g)%Q /\ (0 <= currentWager g)%Q /\
  (totalMoney g == 1000)%Q /\
  (roundHasEnded g = true -> currentPot g = 0%Q).

(** ** How the tests read a card *)

(** The letters C, D, H, S of a name, in order: what [isFlush] looks at. *)
Fixpoint suitLetters (name : string) : list ascii :=
  match name with
  | EmptyString => []
  | String ch rest =>
      if isSuitLetter ch then ch :: suitLetters rest else suitLetters rest
  end.

(** The suit [isFlush] takes a card to have when it comes first. *)
Definition suitRead (c : Card) : ascii := firstSuitLetter "o" (getCardName c).

(** [isFlush] reads one suit off the card: its name has some of the letters
    C, D, H, S and they are all the same.  "Six of Hearts" and "Seven of
    Clubs" are not read so, because of the S they begin with. *)
Definition oneSuit (c : Card) : bool :=
  match suitLetters (getCardName c) with
  | [] => false
  | s :: rest => forallb (Ascii.eqb s) rest
  end.

(** The name begins with one of the thirteen card types. *)
Definition typed (c : Card) : bool :=
  match getType c with
  | Ok word => existsb (String.eqb word) aList
  | Raise _ => false
  end.

(** A card that every test reads as the card it is. *)
Definition readable (c : Card) : bool := typed c && oneSuit c.

(** All the entries of a list are the same. *)
Definition allSame (ss : list ascii) : bool :=
  match ss with
  | [] => true
  | s :: rest => forallb (Ascii.eqb s) rest
  end.

(** ** Words, ranks and the sort of [isStraight] *)

(** The first word of a card that has one. *)
Definition wordOf (c : Card) : string :=
  match getType c with
  | Ok word => word
  | Raise _ => ""
  end.

(** The place of a word in a list, counted from [j]. *)
Fixpoint placeIn (word : string) (l : list string) (j : nat) : option nat :=
  match l with
  | [] => None
  | a :: l' => if String.eqb a word then Some j else placeIn word l' (S j)
  end.

(** What [rankValue] gives for a name that has a first word. *)
Definition keyOf (name : string) : nat :=
  match rankValue name with
  | Ok v => v
  | Raise _ => 0
  end.

Definition worded (name : string) : Prop := isOk (Py.split0 name) = true.

(** The loop over [j] for one [i], as a function: the least name of
    [x :: rest] comes out in front, and each name that was the least so far
    takes the place of the one that replaced it. *)
Fixpoint selectMin (x : string) (rest : list string) : string * list string :=
  match rest with
  | [] => (x, [])
  | b :: rest' =>
      if keyOf b <? keyOf x
      then (fst (selectMin b rest'), x :: snd (selectMin b rest'))
      else (fst (selectMin x rest'), b :: snd (selectMin x rest'))
  end.

(** The loop over [i], as a function. *)
Fixpoint selectionSort (n : nat) (names : list string) : list string :=
  match n, names with
  | S n', x :: rest =>
      fst (selectMin x rest) :: selectionSort n' (snd (selectMin x rest))
  | _, _ => names
  end.

(** What [isStraight] does once [temp] is sorted. *)
Definition straightTail (temp : list string) : result bool :=
  let! w4 := wordAt 4 temp in
  let! wheel :=
    (if String.eqb w4 "Ace"
     then let! w0 := wordAt 0 temp in Ok (String.eqb w0 "Two")
     else Ok false) in
  let temp := if wheel then delete 4 temp else temp in
  let! w0 := wordAt 0 temp in
  consecutiveFrom (indexInRanking w0) 1 (drop 1 temp).

(** Two names with the same first word. *)
Definition sameWord (n n' : string) : Prop := Py.split0 n = Py.split0 n'.

(** A name that begins with one of the thirteen card types. *)
Definition typedName (name : string) : Prop :=
  exists word, Py.split0 name = Ok word /\ word ∈ aList.

(** ** Lists of hands *)

(** Each hand of the first list is, up to the order of its cards, a hand of
    the second. *)
Definition covers (hands hands' : list (list Card)) : Prop :=
  forall h, h ∈ hands -> exists h', h' ∈ hands' /\ h ≡ₚ h'.

(** ** Aces *)

(** The number of aces among some names, as [isStraight] ranks them. *)
Definition acesIn (names : list string) : nat :=
  length (filter (fun n => keyOf n = 12) names).

(** Every name but the last ranks below the ace. *)
Fixpoint aceOnlyLast (names : list string) : Prop :=
  match names with
  | [] => True
  | n :: rest =>
      match rest with
      | [] => True
      | _ :: _ => keyOf n <= 11 /\ aceOnlyLast rest
      end
  end.

(** * Games and hands to try the claims on *)

(** ** Games *)

(** A game after its first deal. *)
Definition dealtGame : Game :=
  Eval vm_compute in
    match __startNewRound [4] (init []) with
    | Ok g => g
    | Raise _ => init []
    end.

(** A river where the board holds a pair of aces and neither player
    improves on it: the user holds a two and a three, the computer a four
    and a five, and 160 dollars are in the pot. *)
Definition acesOnBoard : Game :=
  set_currentPot 160
    (set_cardsInDisplay 5
       (set_displayCards
          [mkCard "Ace of Spades"; mkCard "Ace of Diamonds";
           mkCard "Eight of Clubs"; mkCard "Nine of Hearts";
           mkCard "Jack of Diamonds"]
          (set_userCard1 (mkCard "Two of Spades")
             (set_userCard2 (mkCard "Three of Hearts")
                (set_computerCard1 (mkCard "Four of Diamonds")
                   (set_computerCard2 (mkCard "Five of Clubs") dealtGame)))))).

(** The showdown of [acesOnBoard], once both hands are named. *)
Definition acesNamed : Game :=
  set_computerHand (Some "One Pair")
    (set_userHand (Some "One Pair") acesOnBoard).

Definition acesResolved : Game :=
  Eval vm_compute in
    match determineWinner acesNamed with
    | Ok g => g
    | Raise _ => acesNamed
    end.

(** A user with ten dollars left, asked for twenty. *)
Definition tenDollarsLeft : Game := set_userMoney 10 dealtGame.

(** A user with thirty dollars left, where a raise takes forty. *)
Definition thirtyDollarsLeft : Game := set_userMoney 30 dealtGame.

(** Where the user clicks: on Fold, on Call, on Raise, on Start New Round. *)
Definition onFold : Z * Z := (30, 40)%Z.

Definition onCall : Z * Z := (150, 40)%Z.

Definition onRaise : Z * Z := (240, 40)%Z.

Definition onNewRound : Z * Z := (200, 40)%Z.

(** The first round, just after the user has called: the computer has its
    turn for the next second. *)
Definition computerThinking : Game :=
  Eval vm_compute in
    match runFrom dealtGame (frame 10 [MOUSEBUTTONDOWN onCall 10 []]) with
    | Ok g => g
    | Raise _ => dealtGame
    end.

(** One bet and the computer's answer: a click at time [t], and the turn of
    the loop two seconds later, in which the computer's turn ends. *)
Definition bet (pos : Z * Z) (t : Q) : list Input :=
  frame t [MOUSEBUTTONDOWN pos t []] ++ frame (t + 2) [].

(** A round played to its showdown with the same click four times. *)
Definition fourBets (pos : Z * Z) (t : Q) : list Input :=
  bet pos t ++ bet pos (t + 3) ++ bet pos (t + 6) ++ bet pos (t + 9).

(** Three rounds in which the user raises four times and wins, and the
    first raise of the fourth round. *)
Definition threeWinsAndARaise : list Input :=
  fourBets onRaise 10 ++
  frame 30 [MOUSEBUTTONDOWN onNewRound 30 []] ++ fourBets onRaise 40 ++
  frame 60 [MOUSEBUTTONDOWN onNewRound 60 []] ++ fourBets onRaise 70 ++
  frame 90 [MOUSEBUTTONDOWN onNewRound 90 []] ++
  frame 100 [MOUSEBUTTONDOWN onRaise 100 []].

Definition computerInDebt : Game :=
  Eval vm_compute in
    match runFrom dealtGame threeWinsAndARaise with
    | Ok g => g
    | Raise _ => dealtGame
    end.

Definition afterFold : Game :=
  Eval vm_compute in
    match __fold computerThinking with Ok g => g | Raise _ => dealtGame end.

Definition afterCall : Game :=
  Eval vm_compute in
    match __call 10 dealtGame with Ok g => g | Raise _ => dealtGame end.

Definition afterRaise : Game :=
  Eval vm_compute in
    match __raise 10 dealtGame with Ok g => g | Raise _ => dealtGame end.

(** ** Deck operations *)

(** Two decks, shuffled, four cards drawn, one given back by name together
    with a card the deck never held, a fifth card drawn, then all returned
    and shuffled again. *)
Definition sampleOps : list DeckOp :=
  [OpShuffle [3; 1; 4; 1; 5; 9; 2; 6]; OpDraw; OpDraw; OpDraw; OpDraw;
   OpReturnSpecific [mkCard "King of Clubs"; mkCard "Joker"];
   OpDraw; OpReturnAll; OpShuffle [2; 7; 1; 8]].

(** ** Hands *)

Definition wheelHand : list Card :=
  [mkCard "Ace of Spades"; mkCard "Two of Diamonds"; mkCard "Three of Hearts";
   mkCard "Four of Clubs"; mkCard "Five of Spades"; mkCard "Nine of Diamonds";
   mkCard "King of Hearts"].

(** Seven cards without a pair, a straight or a flush, and the same cards
    with the two and the ace exchanged, so that the player holds the queen
    and the two instead of the queen and the ace. *)
Definition noPairHand : list Card :=
  [mkCard "Two of Spades"; mkCard "Four of Diamonds"; mkCard "Eight of Hearts";
   mkCard "Nine of Clubs"; mkCard "Jack of Spades"; mkCard "Queen of Diamonds";
   mkCard "Ace of Hearts"].

Definition noPairHandExchanged : list Card :=
  [mkCard "Ace of Hearts"; mkCard "Four of Diamonds"; mkCard "Eight of Hearts";
   mkCard "Nine of Clubs"; mkCard "Jack of Spades"; mkCard "Queen of Diamonds";
   mkCard "Two of Spades"].

Definition wheelHandReversed : list Card := rev wheelHand.

(** Three twos, of which only two are among the first five cards. *)
Definition threeTwos : list Card :=
  [mkCard "Two of Clubs"; mkCard "Two of Diamonds"; mkCard "Nine of Hearts";
   mkCard "Five of Spades"; mkCard "King of Diamonds"; mkCard "Two of Hearts";
   mkCard "Jack of Clubs"].

(** * More of [SpriteFile.py] *)

(** ** [str.split] *)

(** The loop of [s.split()]: [word] is the word read so far. *)
Fixpoint splitWords (word s : string) : list string :=
  match s with
  | EmptyString => if String.eqb word "" then [] else [word]
  | String c s' =>
      if Py.isSpace c then
        if String.eqb word "" then splitWords "" s'
        else word :: splitWords "" s'
      else splitWords (word +:+ String c "") s'
  end.

(** [s.split()]: the words of [s], none of them empty. *)
Definition split (s : string) : list string := splitWords "" s.

(** The loop of [s.split(sep)] for a separator of one character: [piece] is
    the piece read so far. *)
Fixpoint splitPieces (sep : ascii) (piece s : string) : list string :=
  match s with
  | EmptyString => [piece]
  | String c s' =>
      if Ascii.eqb c sep then piece :: splitPieces sep "" s'
      else splitPieces sep (piece +:+ String c "") s'
  end.

(** [s.split(sep)]: the pieces between the separators, empty ones
    included. *)
Definition splitOn (sep : ascii) (s : string) : list string :=
  splitPieces sep "" s.

(** [l[i]] for [0 <= i] *)
Definition getItem {A} (i : nat) (l : list A) : result A :=
  match l !! i with
  | Some x => Ok x
  | None => Raise IndexError
  end.

(** ** [Card.getSuit] *)

(** [Card.getSuit]: [self._cardType.split()[2].split(".")[0]] *)
Definition getSuit (c : Card) : result string :=
  let! word := getItem 2 (split (getCardName c)) in
  getItem 0 (splitOn "." word).

(** ** [Deck.shuffle] with the bounds of [pop] *)

(** [aCard = cards.pop(num); cards.insert(0, aCard)], where [pop] raises
    [IndexError] for an index past the end. *)
Definition popInsert (num : nat) (cards : list Card) : result (list Card) :=
  match cards !! num with
  | Some aCard => Ok (aCard :: delete num cards)
  | None => Raise IndexError
  end.

(** The loop of [Deck.shuffle] with [popInsert] for its body. *)
Definition shuffleChecked (rs : list nat) (cards : list Card)
  : result (list Card) :=
  foldM (fun cs i => popInsert (randint i (length cs - 1) (nth i rs 0)) cs)
        cards (seq 0 (length cards)).

(** * Notions for the further properties of the evaluator *)

(** The first word of the card's name is [word]. *)
Definition hasType (word : string) (c : Card) : bool :=
  match getType c with
  | Ok w => String.eqb word w
  | Raise _ => false
  end.

(** How many of the cards have the type [word]. *)
Definition occurrencesOf (word : string) (cards : list Card) : nat :=
  length (filter (fun c => hasType word c = true) cards).

(** How many entries of [occurrences] are [n]. *)
Definition timesIn (n : nat) (occurrences : list nat) : nat :=
  length (filter (fun m => m = n) occurrences).

(** The rank of a card: the place of its type in the ranking from Two (0)
    to Ace (12), as the loops of [isStraight] find it. *)
Definition rankOf (c : Card) : nat := keyOf (getCardName c).

(** * More hands to try the properties on *)

(** A full house: three twos and two nines. *)
Definition twosFullOfNines : list Card :=
  [mkCard "Two of Clubs"; mkCard "Two of Hearts"; mkCard "Two of Spades";
   mkCard "Nine of Clubs"; mkCard "Nine of Hearts"].

(** Two pairs: twos and nines, with a king. *)
Definition twosAndNines : list Card :=
  [mkCard "Two of Clubs"; mkCard "Two of Hearts"; mkCard "Nine of Spades";
   mkCard "Nine of Clubs"; mkCard "King of Hearts"].

(** The royal flush of spades, the king first. *)
Definition royalSpades : list Card :=
  [mkCard "King of Spades"; mkCard "Ace of Spades"; mkCard "Ten of Spades";
   mkCard "Queen of Spades"; mkCard "Jack of Spades"].

(** Equality of results can be decided. *)
Global Instance exn_eq_dec : EqDecision exn.
Proof. solve_decision. Defined.

Global Instance result_eq_dec {A} `{EqDecision A} : EqDecision (result A).
Proof. solve_decision. Defined.

(** * Notions for the further properties of the game *)

(** ** The cards on the table *)

(** The two cards of the user and the two of the computer, in the order
    they are drawn. *)
Definition holeCards (g : Game) : list Card :=
  [userCard1 g; userCard2 g; computerCard1 g; computerCard2 g].

(** The cards on the table: the four hole cards and the shared cards that
    are shown. *)
Definition cardsOnTable (g : Game) : list Card :=
  holeCards g ++ take (cardsInDisplay g) (displayCards g).

(** All the cards of a deck, in it or out of it. *)
Definition allCards (d : Deck) : list Card :=
  cardsInDeck d ++ cardsOutOfDeck d.

(** The deck holds the 52 cards, and the cards out of it are the hole cards
    and the first [i] shared cards, in the order they were drawn. *)
Definition dealtUpTo (i : nat) (g : Game) : Prop :=
  allCards (cardDeck g) ≡ₚ oneDeck /\
  cardsOutOfDeck (cardDeck g) = holeCards g ++ take i (displayCards g) /\
  length (displayCards g) = 5.

(** The deal is in order: the cards out of the deck are those on the table,
    and none, three, four or five shared cards are shown. *)
Definition dealt (g : Game) : Prop :=
  dealtUpTo (cardsInDisplay g) g /\ cardsInDisplay g ∈ [0; 3; 4; 5].

(** ** What a call can raise *)

(** The result is a value or one of the exceptions [allowed]. *)
Definition raisesOnly {A} (allowed : list exn) (r : result A) : Prop :=
  forall e, r = Raise e -> e ∈ allowed.

(** The start of [__fold]: the pot goes to the computer and the round is
    marked as ended. *)
Definition folded (g : Game) : Game :=
  let g := set_computerMoney (computerMoney g + currentPot g) g in
  let g := set_currentPot 0 g in
  let g := set_currentWager MINIMUM_BET_WAGE g in
  let g := set_currentBeingRisked 0 g in
  let g := set_roundHasEnded true g in
  let g := set_winner "Computer" g in
  set_userFolded true g.

(** The end of [__fold]: the shared cards not yet shown are dealt. *)
Definition showRest (g : Game) : result Game :=
  let! g := (if cardsInDisplay g =? 0 then __displayFlop g else Ok g) in
  let! g := (if cardsInDisplay g =? 3 then __displayFourthCard g else Ok g) in
  if cardsInDisplay g =? 4 then __displayLastCard g else Ok g.

(** ** The money in whole bets *)

(** An amount that is a whole multiple of 20 dollars. *)
Definition multipleOf20 (q : Q) : Prop :=
  exists z : Z, (q == inject_Z (20 * z))%Q.

(** The wager is 20 or 40 dollars; the pot is twice what the user has at
    risk; the balances and the amount at risk are whole multiples of 20
    dollars; and once the round has ended all five shared cards are
    shown. *)
Definition moneyInv (g : Game) : Prop :=
  (currentWager g == 20 \/ currentWager g == 40)%Q /\
  (currentPot g == 2 * currentBeingRisked g)%Q /\
  multipleOf20 (userMoney g) /\ multipleOf20 (computerMoney g) /\
  multipleOf20 (currentBeingRisked g) /\
  (roundHasEnded g = true -> cardsInDisplay g = 5).

(** Besides, the wager is 20 dollars whenever the user may act or all five
    cards are shown. *)
Definition wagerInv (g : Game) : Prop :=
  moneyInv g /\
  (computerHasTurn g = false \/ cardsInDisplay g = 5 ->
   (currentWager g == 20)%Q).

(** What every state of a run satisfies. *)
Definition gameInv (g : Game) : Prop := dealt g /\ wagerInv g.

(** ** A deal that ends the game *)

(** Answers of [randint] with which the first round deals the user the aces
    of spades and of hearts, the computer the two of clubs and the three of
    diamonds, and puts the jack of diamonds, the queen of clubs and the king
    of hearts on the flop. *)
Definition acesAndFaceCards : list nat := [48; 48; 47; 42; 10; 7; 1].

(** The user calls, the computer's turn ends and the flop is shown, and the
    user clicks on Fold. *)
Definition foldAfterTheFlop : list Input :=
  frame 10 [MOUSEBUTTONDOWN onCall 10 []] ++ frame 12 [] ++
  frame 13 [MOUSEBUTTONDOWN onFold 13 []].

(** * Facts *)

(** ** [result] *)

Lemma bind_Ok {A B} (m : result A) (f : A -> result B) b :
  bind m f = Ok b -> exists a, m = Ok a /\ f a = Ok b.
Proof. destruct m as [a|e]; simpl; [eauto | discriminate]. Qed.

(** ** The deck keeps its cards *)

Lemma oneDeck_length : length oneDeck = 52.
Proof. reflexivity. Qed.

Lemma newDeck_count N : deckCount (newDeck N) = N * 52.
Proof.
  unfold deckCount, newDeck; simpl. rewrite Nat.add_0_r.
  induction N as [|N IH]; [done|].
  change (length (oneDeck ++ mjoin (replicate N oneDeck)) = 52 + N * 52).
  by rewrite length_app, IH, oneDeck_length.
Qed.

Lemma shuffleStep_perm num cards : shuffleStep num cards ≡ₚ cards.
Proof.
  unfold shuffleStep. destruct (cards !! num) as [c|] eqn:E; [|done].
  symmetry. by apply delete_Permutation.
Qed.

Lemma shuffleCards_perm rs cards : shuffleCards rs cards ≡ₚ cards.
Proof.
  unfold shuffleCards. generalize (seq 0 (length cards)) as idx.
  intros idx. revert cards.
  induction idx as [|i idx IH]; intros cards; simpl; [done|].
  rewrite IH. apply shuffleStep_perm.
Qed.

Lemma shuffle_count rs d : deckCount (shuffle rs d) = deckCount d.
Proof.
  unfold deckCount, shuffle; simpl. by rewrite shuffleCards_perm.
Qed.

Lemma pop_Some {A} (l : list A) x rest :
  Py.pop l = Some (x, rest) -> l = rest ++ [x].
Proof.
  revert rest. induction l as [|y l IH]; intros rest; simpl; [done|].
  destruct l as [|z l]; [by intros [= -> <-]|].
  destruct (Py.pop (z :: l)) as [[x' r']|]; [|done].
  simpl. intros [= -> <-]. simpl. f_equal. by apply IH.
Qed.

Lemma pop_None {A} (l : list A) : Py.pop l = None -> l = [].
Proof.
  induction l as [|y l IH]; simpl; [done|].
  destruct l as [|z l]; [done|].
  destruct (Py.pop (z :: l)) as [[x' r']|]; [done|].
  intros _. by specialize (IH eq_refl).
Qed.

Lemma getCardFromDeck_count d c d' :
  getCardFromDeck d = Ok (c, d') ->
  deckCount d' = deckCount d /\ deckMultiple d' = deckMultiple d.
Proof.
  unfold getCardFromDeck, deckCount.
  destruct (Py.pop (cardsInDeck d)) as [[x rest]|] eqn:E; [|done].
  intros [= <- <-]; simpl. apply pop_Some in E. rewrite E.
  rewrite !length_app. simpl. lia.
Qed.

(** Drawing fails on the empty deck only. *)
Lemma getCardFromDeck_Ok d :
  cardsInDeck d <> [] -> isOk (getCardFromDeck d) = true.
Proof.
  unfold getCardFromDeck. intros Hne.
  destruct (Py.pop (cardsInDeck d)) as [[x rest]|] eqn:E; [done|].
  by apply pop_None in E.
Qed.

Lemma popSameType_length card out out' :
  isInDeck card out = Ok true ->
  popSameType card out = Ok out' ->
  length out = S (length out').
Proof.
  revert out'. induction out as [|c out IH]; intros out'; simpl; [done|].
  destruct (getType card) as [t1|]; simpl; [|done].
  destruct (getType c) as [t2|]; simpl; [|done].
  destruct (String.eqb t1 t2); [by intros _ [= <-]|].
  intros Hin. destruct (popSameType card out) as [o|] eqn:Hpop; [|done].
  intros [= <-]. simpl. f_equal. by apply IH.
Qed.

Lemma takeBack_length cardList out kept out' :
  takeBack cardList out = Ok (kept, out') ->
  length kept + length out' = length out.
Proof.
  revert out kept out'.
  induction cardList as [|card rest IH]; intros out kept out'; simpl.
  - by intros [= <- <-].
  - destruct (isInDeck card out) as [[|]|] eqn:Hin; simpl; [| |done].
    + destruct (popSameType card out) as [popped|] eqn:Hpop; simpl; [|done].
      destruct (takeBack rest popped) as [[k o]|] eqn:Htb; simpl; [|done].
      intros [= <- <-]. apply IH in Htb.
      apply (popSameType_length _ _ _ Hin) in Hpop. simpl. lia.
    + apply IH.
Qed.

Lemma addSpecificCardsBackIntoDeck_count cardList d d' :
  addSpecificCardsBackIntoDeck cardList d = Ok d' ->
  deckCount d' = deckCount d /\ deckMultiple d' = deckMultiple d.
Proof.
  unfold addSpecificCardsBackIntoDeck, deckCount.
  destruct (takeBack cardList (cardsOutOfDeck d)) as [[kept out']|] eqn:Htb;
    simpl; [|done].
  intros [= <-]. simpl.
  apply takeBack_length in Htb. rewrite length_app. lia.
Qed.

Lemma applyOp_count op d d' :
  applyOp op d = Ok d' ->
  deckCount d' = deckCount d /\ deckMultiple d' = deckMultiple d.
Proof.
  destruct op; simpl; intros H.
  - injection H as <-. by rewrite shuffle_count.
  - destruct (getCardFromDeck d) as [[c d'']|] eqn:Hdraw; [|done].
    injection H as <-. by apply getCardFromDeck_count in Hdraw.
  - injection H as <-. unfold deckCount; simpl.
    rewrite length_app. lia.
  - by apply (addSpecificCardsBackIntoDeck_count cardList).
Qed.

(** C5.  A deck built with multiple [N] holds, after every sequence of
    shuffles, draws, returns of all cards and returns of given cards that
    runs to its end, [N * 52] cards counting those in the deck and those
    out of it. *)
Theorem deck_count_invariant (N : nat) (ops : list DeckOp) (d : Deck) :
  runOps ops (newDeck N) = Ok d ->
  length (cardsInDeck d) + length (cardsOutOfDeck d) = N * 52.
Proof.
  intros H. change (deckCount d = N * 52).
  rewrite <- (newDeck_count N).
  revert H. generalize (newDeck N) as d0. 
  induction ops as [|op ops IH]; intros d0; simpl.
  - by intros [= ->].
  - destruct (applyOp op d0) as [d1|] eqn:Hop; simpl; [|done].
    apply applyOp_count in Hop as [<- _]. apply IH.
Qed.

Lemma deck_count_invariant_witness :
  exists d,
    runOps sampleOps (newDeck 2) = Ok d /\
    length (cardsInDeck d) + length (cardsOutOfDeck d) = 2 * 52.
Proof.
  eexists. split; [vm_compute; reflexivity|].
  apply (deck_count_invariant 2 sampleOps). vm_compute; reflexivity.
Defined.

(** ** The betting rules *)

Lemma Qltb_lt x y : Qltb x y = true <-> (x < y)%Q.
Proof.
  unfold Qltb. rewrite Qlt_alt. destruct (x ?= y)%Q; split; congruence.
Qed.

Lemma Qltb_ge x y : Qltb x y = false <-> (y <= x)%Q.
Proof.
  rewrite <- not_true_iff_false, Qltb_lt. split; [apply Qnot_lt_le | apply Qle_not_lt].
Qed.

Lemma displayCardAt_offTable i g g' :
  displayCardAt i g = Ok g' -> offTable g' = offTable g.
Proof.
  unfold displayCardAt, drawCard.
  destruct (getCardFromDeck (cardDeck g)) as [[c d]|]; simpl; [|done].
  destruct (setItem i c (displayCards g)) as [cards|]; simpl; [|done].
  by intros [= <-].
Qed.

Lemma displayFlop_offTable g g' :
  __displayFlop g = Ok g' ->
  offTable g' = offTable (set_currentWager MINIMUM_BET_WAGE g).
Proof.
  unfold __displayFlop. simpl.
  destruct (displayCardAt 0 _) as [g1|] eqn:E1; simpl; [|done].
  destruct (displayCardAt 1 _) as [g2|] eqn:E2; simpl; [|done].
  destruct (displayCardAt 2 _) as [g3|] eqn:E3; simpl; [|done].
  intros [= <-].
  apply displayCardAt_offTable in E1, E2, E3.
  change (offTable g3 = offTable (set_currentWager MINIMUM_BET_WAGE g)).
  congruence.
Qed.

Lemma displayFourthCard_offTable g g' :
  __displayFourthCard g = Ok g' ->
  offTable g' = offTable (set_currentWager MINIMUM_BET_WAGE g).
Proof.
  unfold __displayFourthCard.
  destruct (displayCardAt 3 _) as [g1|] eqn:E1; simpl; [|done].
  intros [= <-]. by apply displayCardAt_offTable in E1.
Qed.

Lemma displayLastCard_offTable g g' :
  __displayLastCard g = Ok g' ->
  offTable g' = offTable (set_currentWager MINIMUM_BET_WAGE g).
Proof.
  unfold __displayLastCard.
  destruct (displayCardAt 4 _) as [g1|] eqn:E1; simpl; [|done].
  intros [= <-]. by apply displayCardAt_offTable in E1.
Qed.

Lemma set_currentWager_same v g : currentWager g = v -> set_currentWager v g = g.
Proof. destruct g; simpl. by intros <-. Qed.

Lemma offTable_currentWager g g' :
  offTable g' = offTable g -> currentWager g' = currentWager g.
Proof. intros H. by apply (f_equal currentWager) in H. Qed.

(** What dealing cards leaves as it was. *)
Lemma offTable_fields g g' :
  offTable g' = offTable g ->
  userMoney g' = userMoney g /\ computerMoney g' = computerMoney g /\
  currentPot g' = currentPot g /\ currentWager g' = currentWager g /\
  currentBeingRisked g' = currentBeingRisked g /\
  roundHasEnded g' = roundHasEnded g /\ userFolded g' = userFolded g /\
  computerHasTurn g' = computerHasTurn g /\ winner g' = winner g /\
  userHand g' = userHand g /\ computerHand g' = computerHand g /\
  startTime g' = startTime g.
Proof.
  intros H.
  repeat split;
    [ apply (f_equal userMoney) in H | apply (f_equal computerMoney) in H
    | apply (f_equal currentPot) in H | apply (f_equal currentWager) in H
    | apply (f_equal currentBeingRisked) in H
    | apply (f_equal roundHasEnded) in H | apply (f_equal userFolded) in H
    | apply (f_equal computerHasTurn) in H | apply (f_equal winner) in H
    | apply (f_equal userHand) in H | apply (f_equal computerHand) in H
    | apply (f_equal startTime) in H ];
    exact H.
Qed.

Lemma display_if (b : bool) (f : Game -> result Game) g g' :
  (forall g g', f g = Ok g' ->
                offTable g' = offTable (set_currentWager MINIMUM_BET_WAGE g)) ->
  currentWager g = MINIMUM_BET_WAGE ->
  (if b then f g else Ok g) = Ok g' ->
  offTable g' = offTable g.
Proof.
  intros Hf Hw. destruct b.
  - intros H. apply Hf in H. by rewrite set_currentWager_same in H.
  - by intros [= <-].
Qed.

Lemma displayNextCardSet_offTable g g' :
  __displayNextCardSet g = Ok g' ->
  offTable g' = offTable g \/
  offTable g' = offTable (set_currentWager MINIMUM_BET_WAGE g).
Proof.
  unfold __displayNextCardSet.
  destruct (cardsInDisplay g =? 0); [right; by apply displayFlop_offTable|].
  destruct (cardsInDisplay g =? 3); [right; by apply displayFourthCard_offTable|].
  destruct (cardsInDisplay g =? 4); [right; by apply displayLastCard_offTable|].
  intros [= <-]. by left.
Qed.

(** What [__fold] does to the money and to the round. *)
Lemma fold_Ok g g' :
  __fold g = Ok g' ->
  userMoney g' = userMoney g /\
  computerMoney g' = (computerMoney g + currentPot g)%Q /\
  currentPot g' = 0%Q /\ currentWager g' = MINIMUM_BET_WAGE /\
  currentBeingRisked g' = 0%Q /\ roundHasEnded g' = true /\
  userFolded g' = true /\ winner g' = "Computer" /\
  computerHasTurn g' = computerHasTurn g.
Proof.
  unfold __fold.
  destruct (checkHand true _) as [uh|]; simpl; [|done].
  destruct (checkHand false _) as [ch|]; simpl; [|done].
  match goal with |- context [__displayFlop ?x] => set (g0 := x) end.
  destruct (if cardsInDisplay g =? 0 then __displayFlop g0 else Ok g0)
    as [g1|] eqn:E1; simpl; [|done].
  destruct (if cardsInDisplay g1 =? 3 then __displayFourthCard g1 else Ok g1)
    as [g2|] eqn:E2; simpl; [|done].
  intros E3.
  apply display_if in E1; [|apply displayFlop_offTable|done].
  apply display_if in E2;
    [|apply displayFourthCard_offTable
     |by rewrite (offTable_currentWager _ _ E1)].
  apply display_if in E3;
    [|apply displayLastCard_offTable
     |by rewrite (offTable_currentWager _ _ E2), (offTable_currentWager _ _ E1)].
  assert (offTable g' = offTable g0) as H by congruence.
  apply offTable_fields in H. subst g0. simpl in H. tauto.
Qed.

(** What [determineWinner] does. *)
Lemma determineWinner_Ok g g' :
  determineWinner g = Ok g' ->
  exists u c,
    highCardScore [userCard1 g; userCard2 g] = Ok u /\
    highCardScore [computerCard1 g; computerCard2 g] = Ok c /\
    winner g' =
      decideWinner (handScore (userHand g)) (handScore (computerHand g)) u c /\
    (winner g' = "User" ->
       userMoney g' = (userMoney g + currentPot g)%Q /\
       computerMoney g' = computerMoney g) /\
    (winner g' = "Computer" ->
       userMoney g' = userMoney g /\
       computerMoney g' = (computerMoney g + currentPot g)%Q) /\
    (winner g' = "Nobody" ->
       userMoney g' = (userMoney g + currentPot g / 2)%Q /\
       computerMoney g' = (computerMoney g + currentPot g / 2)%Q) /\
    currentPot g' = 0%Q /\ currentWager g' = MINIMUM_BET_WAGE /\
    currentBeingRisked g' = 0%Q /\ roundHasEnded g' = true /\
    computerHasTurn g' = computerHasTurn g.
Proof.
  unfold determineWinner.
  destruct (highCardScore [userCard1 g; userCard2 g]) as [u|]; simpl; [|done].
  destruct (highCardScore [computerCard1 g; computerCard2 g]) as [c|];
    simpl; [|done].
  intros [= <-]. exists u, c. split; [done|]. split; [done|].
  generalize (decideWinner (handScore (userHand g))
                (handScore (computerHand g)) u c) as w.
  intros w.
  destruct (String.eqb w "User") eqn:EU.
  { apply String.eqb_eq in EU. subst w. simpl. repeat split; done. }
  destruct (String.eqb w "Computer") eqn:EC.
  { apply String.eqb_eq in EC. subst w. simpl. repeat split; done. }
  apply String.eqb_neq in EU, EC. simpl. repeat split; done.
Qed.

(** The three names [decideWinner] can give. *)
Lemma decideWinner_cases us cs u c :
  decideWinner us cs u c = "User" \/ decideWinner us cs u c = "Computer" \/
  decideWinner us cs u c = "Nobody".
Proof.
  unfold decideWinner.
  repeat match goal with |- context [if ?b then _ else _] => destruct b end;
    tauto.
Qed.

Lemma drawCard_Ok g c g' :
  drawCard g = Ok (c, g') -> exists d, g' = set_cardDeck d g.
Proof.
  unfold drawCard.
  destruct (getCardFromDeck (cardDeck g)) as [[c' d]|]; simpl; [|done].
  intros [= _ <-]. by exists d.
Qed.

Lemma startNewRound_Ok rs g g' :
  __startNewRound rs g = Ok g' ->
  userMoney g' = userMoney g /\ computerMoney g' = computerMoney g /\
  currentPot g' = 0%Q /\ currentWager g' = MINIMUM_BET_WAGE /\
  roundHasEnded g' = false /\ computerHasTurn g' = computerHasTurn g.
Proof.
  unfold __startNewRound.
  destruct (drawCard _) as [[c1 g1]|] eqn:E1; simpl; [|done].
  destruct (drawCard _) as [[c2 g2]|] eqn:E2 in |- *; simpl; [|done].
  destruct (drawCard _) as [[c3 g3]|] eqn:E3 in |- *; simpl; [|done].
  destruct (drawCard _) as [[c4 g4]|] eqn:E4 in |- *; simpl; [|done].
  intros [= <-].
  apply drawCard_Ok in E1 as [d1 ->], E2 as [d2 ->], E3 as [d3 ->],
    E4 as [d4 ->].
  simpl. repeat split; done.
Qed.

Lemma showdown_Ok g g' :
  showdown g = Ok g' ->
  g' = g \/
  exists uh ch, determineWinner (set_computerHand ch (set_userHand uh g)) = Ok g'.
Proof.
  unfold showdown. destruct (cardsInDisplay g =? 5); [|intros [= <-]; by left].
  destruct (checkHand true g) as [uh|]; simpl; [|done].
  destruct (checkHand false _) as [ch|]; simpl; [|done].
  intros H. right. by exists uh, ch.
Qed.

Lemma betInv_fold g g' : betInv g -> __fold g = Ok g' -> betInv g'.
Proof.
  intros (Hu & Hp & Hw & Ht & _) H. apply fold_Ok in H.
  destruct H as (Eu & Ec & Ep & Ew & _).
  unfold betInv, totalMoney in *. rewrite Eu, Ec, Ep, Ew.
  unfold MINIMUM_BET_WAGE. repeat split; lra.
Qed.

Lemma betInv_determineWinner g g' :
  betInv g -> determineWinner g = Ok g' -> betInv g'.
Proof.
  intros (Hu & Hp & Hw & Ht & _) H. apply determineWinner_Ok in H.
  destruct H as (u & c & _ & _ & Ewin & HU & HC & HN & Ep & Ew & _).
  unfold betInv, totalMoney in *. rewrite Ep, Ew. unfold MINIMUM_BET_WAGE.
  rewrite Ewin in HU, HC, HN.
  destruct (decideWinner_cases (handScore (userHand g))
              (handScore (computerHand g)) u c) as [E|[E|E]].
  - destruct (HU E) as [-> ->]. repeat split; lra.
  - destruct (HC E) as [-> ->]. repeat split; lra.
  - destruct (HN E) as [-> ->].
    assert (currentPot g / 2 == currentPot g * (1 # 2))%Q as Ehalf
      by reflexivity.
    rewrite !Ehalf. repeat split; lra.
Qed.

Lemma betInv_showdown g g' : betInv g -> showdown g = Ok g' -> betInv g'.
Proof.
  intros Hinv H. apply showdown_Ok in H as [->|(uh & ch & H)]; [done|].
  by apply betInv_determineWinner in H.
Qed.

Lemma betInv_call now g g' :
  roundHasEnded g = false -> betInv g -> __call now g = Ok g' -> betInv g'.
Proof.
  intros Hr (Hu & Hp & Hw & Ht & _). unfold __call.
  destruct (Qltb (userMoney g - currentWager g) 0) eqn:E.
  - apply betInv_fold. unfold betInv, totalMoney; simpl.
    unfold START_BALANCE. repeat split; lra.
  - apply Qltb_ge in E. apply betInv_showdown.
    unfold betInv, totalMoney in *; simpl. rewrite Hr.
    repeat split; try lra; done.
Qed.

Lemma betInv_raise now g g' :
  roundHasEnded g = false -> betInv g -> __raise now g = Ok g' -> betInv g'.
Proof.
  intros Hr Hinv. unfold __raise.
  destruct (Qltb (userMoney g) (2 * currentWager g)) eqn:E.
  - by intros [= <-].
  - destruct Hinv as (Hu & Hp & Hw & Ht & _).
    apply Qltb_ge in E. apply betInv_showdown.
    unfold betInv, totalMoney in *; simpl. rewrite Hr.
    repeat split; try lra; done.
Qed.

Lemma betInv_offTable g g' : offTable g' = offTable g -> betInv g -> betInv g'.
Proof.
  intros H. apply offTable_fields in H.
  destruct H as (Eu & Ec & Ep & Ew & _ & Er & _).
  unfold betInv, totalMoney. by rewrite Eu, Ec, Ep, Ew, Er.
Qed.

Lemma betInv_step i g g' : betInv g -> step i g = Ok g' -> betInv g'.
Proof.
  intros Hinv. destruct i as [now|pos now rs|key t1 t2| |]; simpl.
  - unfold endComputerTurn.
    destruct (_ && _); [|by intros [= <-]].
    destruct (__displayNextCardSet g) as [g1|] eqn:E; simpl; [|done].
    intros [= <-].
    assert (betInv g1) as Hg1.
    { apply displayNextCardSet_offTable in E as [E|E].
      - by apply (betInv_offTable g).
      - apply (betInv_offTable _ _ E). destruct Hinv as (?&?&?&?&?).
        unfold betInv, totalMoney in *; simpl. unfold MINIMUM_BET_WAGE.
        repeat split; try lra; done. }
    exact Hg1.
  - unfold mouseButtonDown.
    destruct (computerHasTurn g); [by intros [= <-]|].
    destruct (roundHasEnded g) eqn:Hr; simpl.
    + destruct (_ && _).
      * intros H. apply startNewRound_Ok in H.
        destruct H as (Eu & Ec & Ep & Ew & _).
        destruct Hinv as (?&?&?&Ht&Hp).
        unfold betInv, totalMoney in *. rewrite Eu, Ec, Ep, Ew.
        rewrite (Hp Hr) in Ht.
        unfold MINIMUM_BET_WAGE. repeat split; try lra; done.
      * destruct (_ && _); [done|]. by intros [= <-].
    + destruct (_ && _); [by apply betInv_fold|].
      destruct (_ && _); [intros H; by apply (betInv_call now g)|].
      destruct (_ && _); [intros H; by apply (betInv_raise now g)|].
      by intros [= <-].
  - unfold keyDown. destruct (_ && _); [|by intros [= <-]].
    destruct (__fold g) as [g1|] eqn:E; simpl; [|done].
    intros [= <-]. apply (betInv_fold g) in E; [exact E | exact Hinv].
  - done.
  - intros [= <-]. unfold __checkForClickabilityChanges.
    repeat match goal with |- context [if ?b then _ else _] => destruct b end;
      exact Hinv.
Qed.

Lemma betInv_runFrom inputs g0 g :
  betInv g0 -> runFrom g0 inputs = Ok g -> betInv g.
Proof.
  unfold runFrom. revert g0.
  induction inputs as [|i inputs IH]; intros g0 H0; simpl.
  - by intros [= <-].
  - destruct (step i g0) as [g1|] eqn:E1; simpl; [|done].
    apply IH. by apply (betInv_step i g0).
Qed.

Lemma betInv_start rs0 rs1 g0 :
  __startNewRound rs1 (init rs0) = Ok g0 -> betInv g0.
Proof.
  intros E0. apply startNewRound_Ok in E0.
  destruct E0 as (Eu & Ec & Ep & Ew & Er & _).
  unfold betInv, totalMoney. rewrite Eu, Ec, Ep, Ew, Er.
  change (userMoney (init rs0)) with START_BALANCE.
  change (computerMoney (init rs0)) with START_BALANCE.
  clear. unfold START_BALANCE, MINIMUM_BET_WAGE.
  repeat split; try lra; done.
Qed.

Lemma betInv_reachable g : reachable g -> betInv g.
Proof.
  intros (rs0 & rs1 & g0 & inputs & E0 & H).
  apply (betInv_runFrom inputs g0); [by apply (betInv_start rs0 rs1)|exact H].
Qed.

Lemma totalMoney_determineWinner g g' :
  determineWinner g = Ok g' -> (totalMoney g' == totalMoney g)%Q.
Proof.
  intros H. apply determineWinner_Ok in H.
  destruct H as (u & c & _ & _ & Ewin & HU & HC & HN & Ep & _).
  unfold totalMoney. rewrite Ep. rewrite Ewin in HU, HC, HN.
  destruct (decideWinner_cases (handScore (userHand g))
              (handScore (computerHand g)) u c) as [E|[E|E]].
  - destruct (HU E) as [-> ->]. lra.
  - destruct (HC E) as [-> ->]. lra.
  - destruct (HN E) as [-> ->].
    assert (currentPot g / 2 == currentPot g * (1 # 2))%Q as Ehalf
      by reflexivity.
    rewrite !Ehalf. lra.
Qed.

Lemma totalMoney_showdown g g' :
  showdown g = Ok g' -> (totalMoney g' == totalMoney g)%Q.
Proof.
  intros H. apply showdown_Ok in H as [->|(uh & ch & H)]; [reflexivity|].
  by apply totalMoney_determineWinner in H.
Qed.

(** * The claims about the game *)

(** ** Showdown *)

(** C1, as stated, fails.  With a pair of aces on the board both players
    hold One Pair and the highest of their seven cards is an ace for both,
    yet the round is no push: the computer wins the whole pot, because its
    own two cards are higher. *)
Lemma tiebreak_ignores_shared_cards :
  exists g',
    showdown acesOnBoard = Ok g' /\
    userHand g' = Some "One Pair" /\ computerHand g' = Some "One Pair" /\
    sevenCardTieBreak acesOnBoard = Ok "Nobody" /\
    winner g' = "Computer" /\
    userMoney g' = userMoney acesOnBoard /\
    (computerMoney g' == computerMoney acesOnBoard + currentPot acesOnBoard)%Q.
Proof.
  eexists. split; [vm_compute; reflexivity|].
  repeat split; vm_compute; reflexivity.
Qed.

(** C1, amended.  When [determineWinner] finds the same score for both
    hands, it compares the highest card of the two cards each player holds:
    the higher one wins the whole pot, and when they are equal nobody wins
    and each player receives half of the pot. *)
Theorem tiebreak_by_hole_cards (g g' : Game) :
  determineWinner g = Ok g' ->
  handScore (userHand g) = handScore (computerHand g) ->
  exists u c,
    highCardScore [userCard1 g; userCard2 g] = Ok u /\
    highCardScore [computerCard1 g; computerCard2 g] = Ok c /\
    (c < u ->
       winner g' = "User" /\
       userMoney g' = (userMoney g + currentPot g)%Q /\
       computerMoney g' = computerMoney g) /\
    (u < c ->
       winner g' = "Computer" /\
       userMoney g' = userMoney g /\
       computerMoney g' = (computerMoney g + currentPot g)%Q) /\
    (u = c ->
       winner g' = "Nobody" /\
       userMoney g' = (userMoney g + currentPot g / 2)%Q /\
       computerMoney g' = (computerMoney g + currentPot g / 2)%Q) /\
    currentPot g' = 0%Q /\ roundHasEnded g' = true.
Proof.
  intros H Hsame. apply determineWinner_Ok in H.
  destruct H as (u & c & Eu & Ec & Ewin & HU & HC & HN & Ep & _ & _ & Er & _).
  exists u, c. split; [done|]. split; [done|].
  assert (winner g' =
          if c <? u then "User" else if u <? c then "Computer" else "Nobody")
    as Ew.
  { rewrite Ewin. unfold decideWinner. rewrite Hsame.
    assert (-1 <= handScore (computerHand g))%Z as Hlow.
    { unfold handScore. destruct (computerHand g) as [n|]; [|lia].
      destruct (Py.index n CARD_HANDS); lia. }
    revert Hlow. generalize (handScore (computerHand g)) as s. intros s Hlow.
    rewrite Z.ltb_irrefl.
    destruct (0 <=? s)%Z eqn:E0; simpl; [done|].
    destruct (s =? -1)%Z eqn:E1; simpl; [done|].
    apply Z.leb_gt in E0. apply Z.eqb_neq in E1. lia. }
  split.
  { intros H. apply Nat.ltb_lt in H. rewrite H in Ew.
    split; [done | by apply HU]. }
  split.
  { intros H. assert ((c <? u) = false) as E by (apply Nat.ltb_ge; lia).
    apply Nat.ltb_lt in H. rewrite E, H in Ew.
    split; [done | by apply HC]. }
  split.
  { intros ->. rewrite Nat.ltb_irrefl in Ew.
    split; [done | by apply HN]. }
  done.
Qed.

Lemma tiebreak_by_hole_cards_witness :
  exists u c,
    highCardScore [userCard1 acesNamed; userCard2 acesNamed] = Ok u /\
    highCardScore [computerCard1 acesNamed; computerCard2 acesNamed] = Ok c /\
    (c < u ->
       winner acesResolved = "User" /\
       userMoney acesResolved = (userMoney acesNamed + currentPot acesNamed)%Q /\
       computerMoney acesResolved = computerMoney acesNamed) /\
    (u < c ->
       winner acesResolved = "Computer" /\
       userMoney acesResolved = userMoney acesNamed /\
       computerMoney acesResolved
       = (computerMoney acesNamed + currentPot acesNamed)%Q) /\
    (u = c ->
       winner acesResolved = "Nobody" /\
       userMoney acesResolved
       = (userMoney acesNamed + currentPot acesNamed / 2)%Q /\
       computerMoney acesResolved
       = (computerMoney acesNamed + currentPot acesNamed / 2)%Q) /\
    currentPot acesResolved = 0%Q /\ roundHasEnded acesResolved = true.
Proof.
  apply (tiebreak_by_hole_cards acesNamed acesResolved);
    vm_compute; reflexivity.
Defined.

(** ** Call without money *)

(** C2.  When a call would leave the user with less than nothing, [__call]
    is [__fold] on the game with both balances back at the starting
    balance and the pot emptied: whatever it returns has both balances at
    500, the round ended, the computer as winner, the user folded, and no
    wager taken from anybody. *)
Theorem call_without_money_resets_and_folds (now : Q) (g : Game) :
  (userMoney g - currentWager g < 0)%Q ->
  __call now g
  = __fold (set_currentBeingRisked 0
              (set_currentPot 0
                 (set_computerMoney START_BALANCE
                    (set_userMoney START_BALANCE g)))) /\
  forall g', __call now g = Ok g' ->
    userMoney g' = START_BALANCE /\ computerMoney g' = START_BALANCE /\
    roundHasEnded g' = true /\ winner g' = "Computer" /\
    userFolded g' = true /\ currentPot g' = 0%Q /\
    currentBeingRisked g' = 0%Q.
Proof.
  intros Hlt. apply Qltb_lt in Hlt.
  assert (__call now g
          = __fold (set_currentBeingRisked 0
                      (set_currentPot 0
                         (set_computerMoney START_BALANCE
                            (set_userMoney START_BALANCE g))))) as Hcall.
  { unfold __call. by rewrite Hlt. }
  split; [exact Hcall|].
  intros g' H. rewrite Hcall in H. apply fold_Ok in H.
  destruct H as (Eu & Ec & Ep & _ & Er & Ee & Ef & Ew & _).
  simpl in Eu, Ec. repeat split; done.
Qed.

Lemma call_without_money_witness :
  isOk (__call 0 tenDollarsLeft) = true /\
  (__call 0 tenDollarsLeft
   = __fold (set_currentBeingRisked 0
               (set_currentPot 0
                  (set_computerMoney START_BALANCE
                     (set_userMoney START_BALANCE tenDollarsLeft)))) /\
   forall g', __call 0 tenDollarsLeft = Ok g' ->
     userMoney g' = START_BALANCE /\ computerMoney g' = START_BALANCE /\
     roundHasEnded g' = true /\ winner g' = "Computer" /\
     userFolded g' = true /\ currentPot g' = 0%Q /\
     currentBeingRisked g' = 0%Q).
Proof.
  split; [vm_compute; reflexivity|].
  apply (call_without_money_resets_and_folds 0 tenDollarsLeft).
  vm_compute; reflexivity.
Defined.

(** ** Raise without money *)

(** C3.  When the user holds less than twice the current wager, [__raise]
    returns the game it was given: nothing of it has changed. *)
Theorem raise_without_money_changes_nothing (now : Q) (g : Game) :
  (userMoney g < 2 * currentWager g)%Q -> __raise now g = Ok g.
Proof.
  intros Hlt. apply Qltb_lt in Hlt. unfold __raise. by rewrite Hlt.
Qed.

Lemma raise_without_money_witness :
  (userMoney thirtyDollarsLeft < 2 * currentWager thirtyDollarsLeft)%Q /\
  __raise 0 thirtyDollarsLeft = Ok thirtyDollarsLeft.
Proof.
  split; [vm_compute; reflexivity|].
  apply (raise_without_money_changes_nothing 0 thirtyDollarsLeft).
  vm_compute; reflexivity.
Defined.

(** ** Actions out of turn *)

(** The mouse is refused while the computer has its turn ... *)
Lemma mouse_refused_during_computer_turn pos now rs g :
  computerHasTurn g = true -> mouseButtonDown pos now rs g = Ok g.
Proof. intros H. unfold mouseButtonDown. by rewrite H. Qed.

(** ... and once the round has ended it can start a round or leave the
    game, but neither fold nor call nor raise. *)
Lemma mouse_cannot_bet_after_round pos now rs g :
  roundHasEnded g = true ->
  mouseButtonDown pos now rs g = Ok g \/
  mouseButtonDown pos now rs g = __startNewRound rs g \/
  mouseButtonDown pos now rs g = Raise PygameQuit.
Proof.
  intros H. unfold mouseButtonDown. rewrite H. simpl.
  destruct (computerHasTurn g); [by left|].
  destruct (_ && _); [by right; left|].
  destruct (_ && _); [by right; right|]. by left.
Qed.

Lemma computerThinking_reachable : reachable computerThinking.
Proof.
  exists [], [4], dealtGame, (frame 10 [MOUSEBUTTONDOWN onCall 10 []]).
  split; vm_compute; reflexivity.
Qed.

(** C4 fails on the keyboard.  Half a second into the computer's turn a
    click on Fold changes nothing, but the Return key folds: the round
    ends, the computer is the winner and takes the pot of 40 dollars. *)
Theorem return_key_folds_during_computer_turn :
  computerHasTurn computerThinking = true /\
  roundHasEnded computerThinking = false /\
  computerMoney computerThinking = 480%Q /\
  mouseButtonDown onFold (21 # 2) [] computerThinking = Ok computerThinking /\
  exists g',
    keyDown K_RETURN (21 # 2) (21 # 2) computerThinking = Ok g' /\
    g' <> computerThinking /\
    roundHasEnded g' = true /\ winner g' = "Computer" /\
    computerMoney g' = 520%Q.
Proof.
  repeat split; try (vm_compute; reflexivity).
  eexists. split; [vm_compute; reflexivity|].
  split; [|repeat split; vm_compute; reflexivity].
  intros H. apply (f_equal roundHasEnded) in H. vm_compute in H. discriminate H.
Qed.

(** ** Balances *)

Lemma computerInDebt_reachable : reachable computerInDebt.
Proof.
  exists [], [4], dealtGame, threeWinsAndARaise.
  split; vm_compute; reflexivity.
Qed.

(** C9, as stated, fails for the computer.  After three rounds won by the
    user with four raises each, the computer holds 20 dollars; it matches
    the next raise of 40 all the same and its balance is -20. *)
Lemma computer_balance_goes_negative :
  exists g, reachable g /\ (computerMoney g < 0)%Q.
Proof.
  exists computerInDebt. split; [apply computerInDebt_reachable|].
  vm_compute. reflexivity.
Qed.

(** C9, amended.  In every state that a run of the game reaches the
    user's balance is not negative, and the two balances and the pot add
    up to the 1000 dollars the game started with. *)
Theorem user_balance_never_negative (g : Game) :
  reachable g ->
  (0 <= userMoney g)%Q /\
  (userMoney g + computerMoney g + currentPot g == 1000)%Q.
Proof.
  intros H. apply betInv_reachable in H. destruct H as (Hu & _ & _ & Ht & _).
  by split.
Qed.

Lemma user_balance_never_negative_witness :
  (0 <= userMoney computerInDebt)%Q /\
  (userMoney computerInDebt + computerMoney computerInDebt
   + currentPot computerInDebt == 1000)%Q.
Proof.
  apply (user_balance_never_negative computerInDebt).
  exists [], [4], dealtGame, threeWinsAndARaise.
  split; vm_compute; reflexivity.
Defined.

(** C10.  A fold, a call that the user can pay, a raise that the user can
    pay, the computer's call and the resolution of the winner (the halved
    pot of a tie included) leave the sum of the two balances and the pot as
    it was. *)
Theorem betting_conserves_money (now : Q) (g g' : Game) :
  (__fold g = Ok g' -> (totalMoney g' == totalMoney g)%Q) /\
  (~ (userMoney g - currentWager g < 0)%Q -> __call now g = Ok g' ->
   (totalMoney g' == totalMoney g)%Q) /\
  (~ (userMoney g < 2 * currentWager g)%Q -> __raise now g = Ok g' ->
   (totalMoney g' == totalMoney g)%Q) /\
  (totalMoney (__executeComputerCall now g) == totalMoney g)%Q /\
  (determineWinner g = Ok g' -> (totalMoney g' == totalMoney g)%Q).
Proof.
  repeat split.
  - intros H. apply fold_Ok in H. destruct H as (Eu & Ec & Ep & _).
    unfold totalMoney. rewrite Eu, Ec, Ep. lra.
  - intros Hge. rewrite <- Qltb_lt in Hge. apply not_true_is_false in Hge.
    unfold __call. rewrite Hge. intros H. apply totalMoney_showdown in H.
    rewrite H. unfold totalMoney; simpl. lra.
  - intros Hge. rewrite <- Qltb_lt in Hge. apply not_true_is_false in Hge.
    unfold __raise. rewrite Hge. intros H. apply totalMoney_showdown in H.
    rewrite H. unfold totalMoney; simpl. lra.
  - unfold totalMoney; simpl. lra.
  - apply totalMoney_determineWinner.
Qed.

Lemma betting_conserves_money_witness :
  (totalMoney afterFold == totalMoney computerThinking)%Q /\
  (totalMoney afterCall == totalMoney dealtGame)%Q /\
  (totalMoney afterRaise == totalMoney dealtGame)%Q /\
  (totalMoney acesResolved == totalMoney acesNamed)%Q.
Proof.
  split; [|split; [|split]].
  - apply (proj1 (betting_conserves_money 0 computerThinking afterFold)).
    vm_compute; reflexivity.
  - apply (proj1 (proj2 (betting_conserves_money 10 dealtGame afterCall)));
      [|vm_compute; reflexivity].
    vm_compute. discriminate.
  - apply (proj1 (proj2 (proj2
             (betting_conserves_money 10 dealtGame afterRaise))));
      [|vm_compute; reflexivity].
    vm_compute. discriminate.
  - apply (proj2 (proj2 (proj2 (proj2
             (betting_conserves_money 0 acesNamed acesResolved))))).
    vm_compute; reflexivity.
Defined.

(** * Hands and the order of their cards *)

(** ** The flush *)

Lemma firstSuitLetter_hd d name :
  firstSuitLetter d name = hd d (suitLetters name).
Proof.
  induction name as [|ch rest IH]; simpl; [done|].
  by destruct (isSuitLetter ch).
Qed.

Lemma lettersAgree_forallb l name :
  lettersAgree l name = forallb (Ascii.eqb l) (suitLetters name).
Proof.
  induction name as [|ch rest IH]; simpl; [done|].
  destruct (isSuitLetter ch); simpl; [|done].
  destruct (Ascii.eqb l ch); simpl; done.
Qed.

Lemma lettersAgree_oneSuit l c :
  oneSuit c = true -> lettersAgree l (getCardName c) = Ascii.eqb l (suitRead c).
Proof.
  unfold oneSuit, suitRead. rewrite lettersAgree_forallb, firstSuitLetter_hd.
  destruct (suitLetters (getCardName c)) as [|s rest]; [done|]. simpl.
  intros Hall. destruct (Ascii.eqb l s) eqn:E; simpl; [|done].
  apply Ascii.eqb_eq in E. by subst l.
Qed.

Lemma allSame_spec ss :
  allSame ss = true <-> forall x y, x ∈ ss -> y ∈ ss -> x = y.
Proof.
  destruct ss as [|s rest]; simpl.
  - split; [intros _ x y []%elem_of_nil|done].
  - rewrite forallb_forall. split.
    + intros H x y Hx Hy.
      assert (forall z, z ∈ s :: rest -> z = s) as Hs.
      { intros z [->|Hz]%elem_of_cons; [done|].
        apply list_elem_of_In, H in Hz. apply Ascii.eqb_eq in Hz. done. }
      by rewrite (Hs x Hx), (Hs y Hy).
    + intros H x Hx. apply Ascii.eqb_eq. apply H.
      * apply list_elem_of_here.
      * apply list_elem_of_further. by apply list_elem_of_In.
Qed.

Lemma allSame_perm ss ss' : ss ≡ₚ ss' -> allSame ss = allSame ss'.
Proof.
  intros Hp. apply Bool.eq_iff_eq_true. rewrite !allSame_spec.
  split; intros H x y Hx Hy.
  - apply H; by rewrite Hp.
  - apply H; by rewrite <- Hp.
Qed.

Lemma isFlush_allSame cards :
  Forall (fun c => oneSuit c = true) cards ->
  isFlush cards = allSame (map suitRead cards).
Proof.
  unfold isFlush. destruct cards as [|c0 cards]; [done|].
  intros Hall. apply Forall_cons in Hall as [_ Hall]. simpl.
  induction Hall as [|c cards Hc _ IH]; simpl; [done|].
  rewrite IH. f_equal. by apply lettersAgree_oneSuit.
Qed.

Lemma isFlush_perm h h' :
  Forall (fun c => oneSuit c = true) h -> h ≡ₚ h' -> isFlush h = isFlush h'.
Proof.
  intros Hall Hp.
  rewrite !isFlush_allSame; [|by rewrite <- Hp|done].
  apply allSame_perm. by apply fmap_Permutation.
Qed.

(** ** Tests that count *)

Lemma typed_word c : typed c = true -> Py.split0 (getCardName c) = Ok (wordOf c).
Proof.
  unfold typed, wordOf, getType.
  by destruct (Py.split0 (getCardName c)).
Qed.

Lemma typed_aList c : typed c = true -> wordOf c ∈ aList.
Proof.
  unfold typed, wordOf. destruct (getType c) as [w|]; [|done].
  intros (x & Hin & Heq)%existsb_exists.
  apply String.eqb_eq in Heq. subst x. by apply list_elem_of_In.
Qed.

(** A loop that takes the first word of each name in turn is a fold over
    the words. *)
Lemma foldM_words {B} (f : string -> B -> B) (b : B) cards :
  Forall (fun c => typed c = true) cards ->
  foldM (fun acc name => let! word := Py.split0 name in Ok (f word acc))
        b (map getCardName cards)
  = Ok (foldl (fun acc word => f word acc) b (map wordOf cards)).
Proof.
  intros Hall. revert b.
  induction Hall as [|c cards Hc _ IH]; intros b; simpl; [done|].
  rewrite (typed_word c Hc). simpl. apply IH.
Qed.

(** A fold whose steps can be swapped does not see the order. *)
Lemma foldl_swappable {A B} (f : B -> A -> B) :
  (forall b x y, f (f b x) y = f (f b y) x) ->
  forall l l', l ≡ₚ l' -> forall b, foldl f b l = foldl f b l'.
Proof.
  intros Hswap l l' Hp.
  induction Hp as [|x l l' _ IH|x y l|l l' l'' _ IH1 _ IH2]; intros b; simpl.
  - done.
  - apply IH.
  - by rewrite Hswap.
  - by rewrite IH1.
Qed.

Local Opaque String.eqb.

(** [tally] adds one at the place of the word in [aList], if it has one. *)
Lemma tally_alter word occ :
  tally word occ
  = match placeIn word aList 0 with
    | Some j => alter S j occ
    | None => occ
    end.
Proof.
  unfold tally. simpl.
  repeat match goal with
  | |- context [String.eqb ?a word] =>
      let E := fresh "E" in
      destruct (String.eqb a word) eqn:E;
      [ apply String.eqb_eq in E; subst word; vm_compute; reflexivity |]
  end.
  reflexivity.
Qed.

Lemma tally_swap occ w1 w2 :
  tally w2 (tally w1 occ) = tally w1 (tally w2 occ).
Proof.
  rewrite !tally_alter.
  destruct (placeIn w1 aList 0) as [j1|];
    destruct (placeIn w2 aList 0) as [j2|]; try done.
  destruct (decide (j1 = j2)) as [->|Hne]; [done|].
  by apply list_alter_alter_ne.
Qed.

Lemma countOccurrences_perm h h' :
  Forall (fun c => typed c = true) h -> h ≡ₚ h' ->
  countOccurrences h = countOccurrences h'.
Proof.
  intros Hall Hp. unfold countOccurrences.
  rewrite !(foldM_words tally); [|by rewrite <- Hp|done].
  f_equal. apply foldl_swappable; [apply tally_swap|].
  by apply fmap_Permutation.
Qed.

Lemma isXofAKind_perm X h h' :
  Forall (fun c => typed c = true) h -> h ≡ₚ h' ->
  isXofAKind h X = isXofAKind h' X.
Proof.
  intros Hall Hp. unfold isXofAKind.
  by rewrite (countOccurrences_perm h h').
Qed.

Lemma isTwoPairs_perm h h' :
  Forall (fun c => typed c = true) h -> h ≡ₚ h' ->
  isTwoPairs h = isTwoPairs h'.
Proof.
  intros Hall Hp. unfold isTwoPairs.
  by rewrite (countOccurrences_perm h h').
Qed.

Lemma isFullHouse_perm h h' :
  Forall (fun c => typed c = true) h -> h ≡ₚ h' ->
  isFullHouse h = isFullHouse h'.
Proof.
  intros Hall Hp. unfold isFullHouse.
  by rewrite !(isXofAKind_perm _ h h').
Qed.

(** Marking a star changes nothing. *)
Lemma markFirst_star needed : markFirst "*" needed = needed.
Proof.
  induction needed as [|n rest IH]; simpl; [done|].
  destruct (String.eqb "*" n) eqn:E; [|by rewrite IH].
  apply String.eqb_eq in E. by subst n.
Qed.

Lemma markFirst_swap needed w1 w2 :
  markFirst w2 (markFirst w1 needed) = markFirst w1 (markFirst w2 needed).
Proof.
  induction needed as [|n rest IH]; simpl; [done|].
  destruct (String.eqb w1 n) eqn:E1; destruct (String.eqb w2 n) eqn:E2; simpl.
  - apply String.eqb_eq in E1, E2. by subst w1 w2.
  - apply String.eqb_eq in E1. subst w1. rewrite String.eqb_refl.
    destruct (String.eqb w2 "*") eqn:E; [|done].
    apply String.eqb_eq in E. subst w2. by rewrite markFirst_star.
  - apply String.eqb_eq in E2. subst w2. rewrite String.eqb_refl.
    destruct (String.eqb w1 "*") eqn:E; [|done].
    apply String.eqb_eq in E. subst w1. by rewrite markFirst_star.
  - by rewrite E1, E2, IH.
Qed.

Lemma isRoyalFlush_perm h h' :
  Forall (fun c => readable c = true) h -> h ≡ₚ h' ->
  isRoyalFlush h = isRoyalFlush h'.
Proof.
  intros Hall Hp.
  assert (Forall (fun c => typed c = true) h) as Ht.
  { eapply Forall_impl; [exact Hall|]. by intros c [? ?]%andb_prop. }
  assert (Forall (fun c => oneSuit c = true) h) as Hs.
  { eapply Forall_impl; [exact Hall|]. by intros c [? ?]%andb_prop. }
  unfold isRoyalFlush. rewrite (isFlush_perm h h' Hs Hp).
  destruct (negb (isFlush h')); [done|].
  rewrite !(foldM_words markFirst); [|by rewrite <- Hp|done].
  simpl. do 2 f_equal.
  apply foldl_swappable; [intros; apply markFirst_swap|].
  by apply fmap_Permutation.
Qed.

Local Transparent String.eqb.

(** ** The sort inside [isStraight] *)

Lemma rankValue_keyOf name : worded name -> rankValue name = Ok (keyOf name).
Proof.
  unfold worded, keyOf, rankValue.
  by destruct (Py.split0 name).
Qed.

Lemma selectMin_length x rest : length (snd (selectMin x rest)) = length rest.
Proof.
  revert x. induction rest as [|b rest IH]; intros x; simpl; [done|].
  destruct (keyOf b <? keyOf x); simpl; by rewrite IH.
Qed.

Lemma selectMin_perm x rest :
  fst (selectMin x rest) :: snd (selectMin x rest) ≡ₚ x :: rest.
Proof.
  revert x. induction rest as [|b rest IH]; intros x; simpl; [done|].
  destruct (keyOf b <? keyOf x); simpl.
  - etrans; [apply Permutation_swap|]. by rewrite IH.
  - etrans; [apply Permutation_swap|]. rewrite IH. apply Permutation_swap.
Qed.

Lemma selectMin_least x rest :
  keyOf (fst (selectMin x rest)) <= keyOf x /\
  Forall (fun y => keyOf (fst (selectMin x rest)) <= keyOf y)
         (snd (selectMin x rest)).
Proof.
  revert x. induction rest as [|b rest IH]; intros x; simpl.
  - split; [lia|constructor].
  - destruct (keyOf b <? keyOf x) eqn:E; simpl.
    + apply Nat.ltb_lt in E. destruct (IH b) as [Hb Hall].
      split; [lia|]. constructor; [lia|done].
    + apply Nat.ltb_ge in E. destruct (IH x) as [Hx Hall].
      split; [done|]. constructor; [lia|done].
Qed.

(** One turn of the loop over [j]. *)
Lemma swapIfGreater_step p m passed b todo :
  worded m -> worded b ->
  swapIfGreater (length p) (length p + 1 + length passed)
                (p ++ m :: passed ++ b :: todo)
  = Ok (if keyOf b <? keyOf m
        then p ++ b :: passed ++ m :: todo
        else p ++ m :: passed ++ b :: todo).
Proof.
  intros Hm Hb. unfold swapIfGreater.
  rewrite (list_lookup_middle p _ m (length p) eq_refl).
  assert ((p ++ m :: passed ++ b :: todo) !! (length p + 1 + length passed) = Some b)
    as ->.
  { change (p ++ m :: passed ++ b :: todo) with (p ++ (m :: passed) ++ b :: todo).
    rewrite app_assoc. apply list_lookup_middle.
    rewrite length_app. simpl. lia. }
  rewrite (rankValue_keyOf m Hm), (rankValue_keyOf b Hb). simpl.
  destruct (keyOf b <? keyOf m); [|done]. f_equal.
  assert (<[length p + 1 + length passed:=m]> (p ++ m :: passed ++ b :: todo)
          = p ++ m :: passed ++ m :: todo) as ->.
  { change (p ++ m :: passed ++ b :: todo) with (p ++ (m :: passed) ++ b :: todo).
    rewrite app_assoc.
    replace (length p + 1 + length passed) with (length (p ++ m :: passed) + 0)
      by (rewrite length_app; simpl; lia).
    rewrite insert_app_r. simpl. by rewrite <- app_assoc. }
  replace (length p) with (length p + 0) at 1 by lia.
  by rewrite insert_app_r.
Qed.

(** The whole loop over [j], entered with [passed] already passed. *)
Lemma inner_loop p m passed todo :
  worded m -> Forall worded todo ->
  foldM (fun t j => swapIfGreater (length p) j t)
        (p ++ m :: passed ++ todo)
        (seq (length p + 1 + length passed) (length todo))
  = Ok (p ++ fst (selectMin m todo) :: passed ++ snd (selectMin m todo)).
Proof.
  intros Hm Hall. revert m passed Hm.
  induction Hall as [|b todo Hb _ IH]; intros m passed Hm; simpl; [done|].
  rewrite (swapIfGreater_step p m passed b todo Hm Hb). simpl.
  destruct (keyOf b <? keyOf m); simpl.
  - specialize (IH b (passed ++ [m]) Hb).
    rewrite length_app in IH. simpl in IH.
    replace (length p + 1 + (length passed + 1))
      with (S (length p + 1 + length passed)) in IH by lia.
    rewrite <- !app_assoc in IH. simpl in IH. exact IH.
  - specialize (IH m (passed ++ [b]) Hm).
    rewrite length_app in IH. simpl in IH.
    replace (length p + 1 + (length passed + 1))
      with (S (length p + 1 + length passed)) in IH by lia.
    rewrite <- !app_assoc in IH. simpl in IH. exact IH.
Qed.

(** The loop over [i], entered with the names of [p] already in place. *)
Lemma outer_loop n p names :
  n = length (p ++ names) -> Forall worded names ->
  foldM (fun t i =>
           foldM (fun t j => swapIfGreater i j t) t (seq (i + 1) (n - (i + 1))))
        (p ++ names) (seq (length p) (length names))
  = Ok (p ++ selectionSort (length names) names).
Proof.
  intros Hn Hall. revert p Hn Hall.
  remember (length names) as k eqn:Hk. revert names Hk.
  induction k as [|k IH]; intros names Hk p Hn Hall; [done|].
  destruct names as [|x rest]; [done|]. simpl in Hk. injection Hk as Hk.
  apply Forall_cons in Hall as [Hx Hall]. simpl.
  assert (n - (length p + 1) = length rest) as ->.
  { rewrite Hn, length_app. simpl. lia. }
  pose proof (inner_loop p x [] rest Hx Hall) as Hin. simpl in Hin.
  rewrite Nat.add_0_r in Hin. rewrite Hin. simpl.
  set (m' := fst (selectMin x rest)) in *.
  set (r := snd (selectMin x rest)) in *.
  assert (length r = length rest) as Hr by apply selectMin_length.
  assert (Forall worded r) as Hwr.
  { pose proof (selectMin_perm x rest) as Hp.
    assert (Forall worded (m' :: r)) as Hw
      by (unfold m', r; rewrite Hp; by constructor).
    by apply Forall_cons in Hw as [_ Hw]. }
  assert (length (p ++ [m']) = S (length p)) as Hlen
    by (rewrite length_app; simpl; lia).
  specialize (IH r (eq_trans Hk (eq_sym Hr)) (p ++ [m'])).
  rewrite Hlen in IH. rewrite <- !app_assoc in IH. simpl in IH.
  apply IH; [|done].
  rewrite Hn, !length_app. simpl. lia.
Qed.

Lemma sortByRank_selectionSort names :
  Forall worded names ->
  sortByRank names = Ok (selectionSort (length names) names).
Proof.
  intros Hall. apply (outer_loop (length names) [] names); done.
Qed.

Lemma selectionSort_perm n names : selectionSort n names ≡ₚ names.
Proof.
  revert names. induction n as [|n IH]; intros [|x rest]; simpl; try done.
  rewrite IH. apply selectMin_perm.
Qed.

Lemma selectionSort_sorted n names :
  length names <= n ->
  StronglySorted le (map keyOf (selectionSort n names)).
Proof.
  revert names. induction n as [|n IH]; intros [|x rest] Hlen; simpl in *;
    try lia; try constructor.
  - apply IH. rewrite selectMin_length. lia.
  - destruct (selectMin_least x rest) as [_ Hall].
    apply Forall_fmap. rewrite selectionSort_perm.
    eapply Forall_impl; [exact Hall|]. done.
Qed.

(** The keys of the sorted names do not depend on the order the names came
    in. *)
Lemma selectionSort_keys names names' :
  names ≡ₚ names' ->
  map keyOf (selectionSort (length names) names)
  = map keyOf (selectionSort (length names') names').
Proof.
  intros Hp.
  apply (StronglySorted_unique le);
    [by apply selectionSort_sorted..|].
  apply fmap_Permutation. by rewrite !selectionSort_perm.
Qed.

(** ** The straight *)

Lemma isStraight_tail cards :
  isStraight cards
  = let! temp := sortByRank (map getCardName cards) in straightTail temp.
Proof. reflexivity. Qed.

Lemma wordAt_sameWord i t t' :
  Forall2 sameWord t t' -> wordAt i t = wordAt i t'.
Proof.
  intros H. revert i. unfold wordAt.
  induction H as [|n n' t t' Hn _ IH]; intros [|i]; simpl; done.
Qed.

Lemma consecutiveFrom_sameWord start i t t' :
  Forall2 sameWord t t' ->
  consecutiveFrom start i t = consecutiveFrom start i t'.
Proof.
  intros H. revert i.
  induction H as [|n n' t t' Hn _ IH]; intros i; simpl; [done|].
  rewrite Hn. destruct (Py.split0 n') as [w|]; simpl; [|done].
  destruct (aList !! (start + i)) as [a|]; [|done].
  destruct (String.eqb w a); [apply IH|done].
Qed.

Lemma straightTail_sameWord t t' :
  Forall2 sameWord t t' -> straightTail t = straightTail t'.
Proof.
  intros H. unfold straightTail.
  rewrite (wordAt_sameWord 4 t t' H).
  destruct (wordAt 4 t') as [w4|]; simpl; [|done].
  rewrite (wordAt_sameWord 0 t t' H).
  destruct (if String.eqb w4 "Ace"
            then let! w0 := wordAt 0 t' in Ok (String.eqb w0 "Two")
            else Ok false) as [wheel|]; simpl; [|done].
  assert (Forall2 sameWord (if wheel then delete 4 t else t)
            (if wheel then delete 4 t' else t')) as H'.
  { destruct wheel; [by apply Forall2_delete|done]. }
  rewrite (wordAt_sameWord 0 _ _ H').
  destruct (wordAt 0 _) as [w0|]; simpl; [|done].
  apply consecutiveFrom_sameWord. by apply Forall2_drop.
Qed.

Lemma typed_typedName c : typed c = true -> typedName (getCardName c).
Proof.
  intros H. exists (wordOf c). split; [by apply typed_word|by apply typed_aList].
Qed.

Lemma typedName_worded name : typedName name -> worded name.
Proof. intros (w & Hw & _). unfold worded. by rewrite Hw. Qed.

(** Each card type stands in [aList] at the place [indexInRanking] says. *)
Lemma aList_indexInRanking word :
  word ∈ aList -> aList !! indexInRanking word = Some word.
Proof.
  intros H. unfold aList, TYPES in H. simpl in H.
  decompose_list_elem_of; subst word; vm_compute; reflexivity.
Qed.

Lemma typedName_sameWord n n' :
  typedName n -> typedName n' -> keyOf n = keyOf n' -> sameWord n n'.
Proof.
  intros (w & Hw & Hin) (w' & Hw' & Hin'). unfold keyOf, rankValue, sameWord.
  rewrite Hw, Hw'. simpl. intros Hkey.
  apply aList_indexInRanking in Hin, Hin'. rewrite Hkey in Hin. congruence.
Qed.

Lemma Forall2_same_keys t t' :
  Forall typedName t -> Forall typedName t' ->
  map keyOf t = map keyOf t' -> Forall2 sameWord t t'.
Proof.
  intros Ht. revert t'.
  induction Ht as [|n t Hn _ IH]; intros [|n' t'] Ht' Hmap; try done.
  apply Forall_cons in Ht' as [Hn' Ht']. injection Hmap as Hk Hmap.
  constructor; [by apply typedName_sameWord|by apply IH].
Qed.

Lemma isStraight_perm h h' :
  Forall (fun c => typed c = true) h -> h ≡ₚ h' -> isStraight h = isStraight h'.
Proof.
  intros Hall Hp.
  assert (Forall typedName (map getCardName h)) as Hn.
  { apply Forall_fmap. eapply Forall_impl; [exact Hall|].
    intros c Hc. by apply typed_typedName. }
  assert (map getCardName h ≡ₚ map getCardName h') as Hpn
    by (by apply fmap_Permutation).
  assert (Forall typedName (map getCardName h')) as Hn' by (by rewrite <- Hpn).
  rewrite !isStraight_tail.
  rewrite !sortByRank_selectionSort;
    [|eapply Forall_impl; [exact Hn'|apply typedName_worded]
     |eapply Forall_impl; [exact Hn|apply typedName_worded]].
  simpl. apply straightTail_sameWord, Forall2_same_keys.
  - by rewrite selectionSort_perm.
  - by rewrite selectionSort_perm.
  - by apply selectionSort_keys.
Qed.

Lemma isStraightFlush_perm h h' :
  Forall (fun c => readable c = true) h -> h ≡ₚ h' ->
  isStraightFlush h = isStraightFlush h'.
Proof.
  intros Hall Hp.
  assert (Forall (fun c => typed c = true) h) as Ht.
  { eapply Forall_impl; [exact Hall|]. by intros c [? ?]%andb_prop. }
  assert (Forall (fun c => oneSuit c = true) h) as Hs.
  { eapply Forall_impl; [exact Hall|]. by intros c [? ?]%andb_prop. }
  unfold isStraightFlush.
  by rewrite (isFlush_perm h h' Hs Hp), (isStraight_perm h h' Ht Hp).
Qed.

(** None of the nine tests sees the order of five readable cards. *)
Lemma functions_perm h h' :
  Forall (fun c => readable c = true) h -> h ≡ₚ h' ->
  Forall (fun test => test h = test h') functions.
Proof.
  intros Hall Hp.
  assert (Forall (fun c => typed c = true) h) as Ht.
  { eapply Forall_impl; [exact Hall|]. by intros c [? ?]%andb_prop. }
  assert (Forall (fun c => oneSuit c = true) h) as Hs.
  { eapply Forall_impl; [exact Hall|]. by intros c [? ?]%andb_prop. }
  repeat constructor.
  - by apply isRoyalFlush_perm.
  - by apply isStraightFlush_perm.
  - by apply isXofAKind_perm.
  - by apply isFullHouse_perm.
  - f_equal. by apply isFlush_perm.
  - by apply isStraight_perm.
  - by apply isXofAKind_perm.
  - by apply isTwoPairs_perm.
  - by apply isXofAKind_perm.
Qed.

(** ** The five-card hands that [checkHand] tries *)

Lemma sublist_combinations {A} (h l : list A) :
  h `sublist_of` l -> h ∈ combinations (length h) l.
Proof.
  induction 1 as [|x h l _ IH|x h l _ IH]; simpl.
  - by apply list_elem_of_singleton.
  - apply elem_of_app. left. apply list_elem_of_fmap. by exists h.
  - destruct h as [|y h]; simpl in *.
    + destruct l; apply list_elem_of_here.
    + apply elem_of_app. by right.
Qed.

Lemma combinations_sublist {A} k (h l : list A) :
  h ∈ combinations k l -> h `sublist_of` l /\ length h = k.
Proof.
  revert k h. induction l as [|x l IH]; intros [|k] h; simpl.
  - by intros ->%list_elem_of_singleton.
  - by intros ?%elem_of_nil.
  - intros ->%list_elem_of_singleton. split; [apply sublist_nil_l|done].
  - intros [(h' & -> & Hin)%list_elem_of_fmap|Hin]%elem_of_app.
    + apply IH in Hin as [? ?]. split; [by apply sublist_skip|simpl; lia].
    + apply IH in Hin as [? ?]. split; [by apply sublist_cons|done].
Qed.

Ltac find_permuted :=
  first [ apply Exists_cons_hd; solve_Permutation
        | apply Exists_cons_tl; find_permuted ].

(** Every window is five of the seven cards ... *)
Lemma fiveCardHands_sub (cards h : list Card) :
  length cards = 7 -> h ∈ fiveCardHands cards -> h ⊆+ cards /\ length h = 5.
Proof.
  intros Hlen Hin.
  destruct cards as [|c0 [|c1 [|c2 [|c3 [|c4 [|c5 [|c6 [|]]]]]]]]; try done.
  let W := eval vm_compute in (fiveCardHands [c0; c1; c2; c3; c4; c5; c6]) in
  change (h ∈ W) in Hin.
  decompose_list_elem_of; subst h; (split; [solve_submseteq|done]).
Qed.

(** ... and any five of the seven cards are, in some order, a window. *)
Lemma fiveCardHands_all (cards h : list Card) :
  length cards = 7 -> length h = 5 -> h ⊆+ cards ->
  Exists (fun h' => h' ≡ₚ h) (fiveCardHands cards).
Proof.
  intros Hlen Hlen' Hsub.
  apply submseteq_sublist_r in Hsub as (h0 & Hperm & Hsub).
  apply sublist_combinations in Hsub.
  rewrite <- (Permutation_length Hperm), Hlen' in Hsub.
  destruct cards as [|c0 [|c1 [|c2 [|c3 [|c4 [|c5 [|c6 [|]]]]]]]]; try done.
  let C := eval vm_compute in (combinations 5 [c0; c1; c2; c3; c4; c5; c6]) in
  change (h0 ∈ C) in Hsub.
  assert (Exists (fun h' => h' ≡ₚ h0)
            (fiveCardHands [c0; c1; c2; c3; c4; c5; c6])) as HE.
  { let W := eval vm_compute in (fiveCardHands [c0; c1; c2; c3; c4; c5; c6]) in
    change (Exists (fun h' => h' ≡ₚ h0) W).
    decompose_list_elem_of; subst h0; find_permuted. }
  eapply Exists_impl; [exact HE|]. intros h' Hh'. by rewrite Hh'.
Qed.

Lemma fiveCardHands_covers_perm cards cards' :
  length cards = 7 -> cards ≡ₚ cards' ->
  covers (fiveCardHands cards) (fiveCardHands cards').
Proof.
  intros Hlen Hp h Hin.
  apply (fiveCardHands_sub cards h Hlen) in Hin as [Hsub Hlen'].
  rewrite Hp in Hsub.
  assert (length cards' = 7) as Hlen'' by (by rewrite <- Hp).
  pose proof (fiveCardHands_all cards' h Hlen'' Hlen' Hsub) as HE.
  apply Exists_exists in HE as (h' & Hin' & Hp'). by exists h'.
Qed.

Lemma fiveCardHands_covers_combinations cards :
  length cards = 7 -> covers (fiveCardHands cards) (combinations 5 cards).
Proof.
  intros Hlen h Hin.
  apply (fiveCardHands_sub cards h Hlen) in Hin as [Hsub Hlen'].
  apply submseteq_sublist_r in Hsub as (h0 & Hperm & Hsub).
  exists h0. split; [|done].
  apply sublist_combinations in Hsub.
  by rewrite <- (Permutation_length Hperm), Hlen' in Hsub.
Qed.

Lemma combinations_covers_fiveCardHands cards :
  length cards = 7 -> covers (combinations 5 cards) (fiveCardHands cards).
Proof.
  intros Hlen h0 Hin. apply combinations_sublist in Hin as [Hsub Hlen'].
  apply sublist_submseteq in Hsub.
  pose proof (fiveCardHands_all cards h0 Hlen Hlen' Hsub) as HE.
  apply Exists_exists in HE as (h' & Hin' & Hp'). by exists h'.
Qed.

Lemma anyHand_true test hands :
  anyHand test hands = Ok true -> exists h, h ∈ hands /\ test h = Ok true.
Proof.
  induction hands as [|h hands IH]; simpl; [done|].
  destruct (test h) as [[|]|] eqn:E; simpl; [| |done].
  - intros _. exists h. split; [apply list_elem_of_here|done].
  - intros (h' & Hin & Hh')%IH. exists h'.
    split; [by apply list_elem_of_further|done].
Qed.

Lemma anyHand_false test hands :
  anyHand test hands = Ok false -> forall h, h ∈ hands -> test h = Ok false.
Proof.
  induction hands as [|h hands IH]; simpl; [by intros _ h' ?%elem_of_nil|].
  destruct (test h) as [[|]|] eqn:E; simpl; [done| |done].
  intros Hrest h' [->|Hin]%elem_of_cons; [done|by apply IH].
Qed.

(** Two lists of hands that cover each other give a test that does not see
    the order of the cards the same answer. *)
Lemma anyHand_agree test hands hands' b b' :
  (forall h h', h ∈ hands -> h ≡ₚ h' -> test h = test h') ->
  covers hands hands' -> covers hands' hands ->
  anyHand test hands = Ok b -> anyHand test hands' = Ok b' -> b = b'.
Proof.
  intros Hinv Hc Hc' Hb Hb'. destruct b, b'; try done.
  - apply anyHand_true in Hb as (h & Hin & Hh).
    destruct (Hc h Hin) as (h' & Hin' & Hp).
    rewrite (Hinv h h' Hin Hp) in Hh.
    by rewrite (anyHand_false _ _ Hb' h' Hin') in Hh.
  - apply anyHand_true in Hb' as (h' & Hin' & Hh').
    destruct (Hc' h' Hin') as (h & Hin & Hp).
    rewrite <- (Hinv h h' Hin (symmetry Hp)) in Hh'.
    by rewrite (anyHand_false _ _ Hb h Hin) in Hh'.
Qed.

Lemma firstCategory_agree tests hands hands' r r' :
  Forall (fun t => forall h h', h ∈ hands -> h ≡ₚ h' -> t.1 h = t.1 h') tests ->
  covers hands hands' -> covers hands' hands ->
  firstCategory tests hands = Ok r -> firstCategory tests hands' = Ok r' ->
  r = r'.
Proof.
  intros Hinv Hc Hc'. revert r r'.
  induction Hinv as [|[test name] tests Ht _ IH]; intros r r'; simpl.
  - by intros [= <-] [= <-].
  - destruct (anyHand test hands) as [b|] eqn:Eb; simpl; [|done].
    destruct (anyHand test hands') as [b'|] eqn:Eb'; simpl; [|done].
    rewrite (anyHand_agree test hands hands' b b' Ht Hc Hc' Eb Eb').
    destruct b'; [by intros [= <-] [= <-]|apply IH].
Qed.

(** On hands of readable cards no test of [checkHand] sees the order. *)
Lemma tests_ignore_order (cards : list Card) (hands : list (list Card)) :
  Forall (fun c => readable c = true) cards ->
  (forall h, h ∈ hands -> h ⊆+ cards) ->
  Forall (fun t : (list Card -> result bool) * string =>
            forall h h', h ∈ hands -> h ≡ₚ h' -> t.1 h = t.1 h')
         (zip functions CARD_HANDS).
Proof.
  intros Hall Hsub. apply Forall_forall. intros [test name] Hin h h' Hh Hp.
  simpl.
  assert (Forall (fun c => readable c = true) h) as Hr.
  { apply Forall_forall. intros c Hc.
    rewrite Forall_forall in Hall. apply Hall.
    by apply (elem_of_submseteq h cards c Hc), Hsub. }
  pose proof (functions_perm h h' Hr Hp) as Hf.
  rewrite Forall_forall in Hf. apply Hf.
  apply elem_of_zip_l in Hin. exact Hin.
Qed.

(** The answer without a hand-name is never one of [CARD_HANDS]. *)
Lemma handScore_getHighCard cards : handScore (getHighCard cards) = (-1)%Z.
Proof.
  unfold getHighCard.
  destruct (find _ (rev aList)) as [w|] eqn:E; [|done].
  apply find_some in E as [Hin _]. apply list_elem_of_In in Hin.
  unfold aList, TYPES in Hin. simpl in Hin.
  decompose_list_elem_of; subst w; vm_compute; reflexivity.
Qed.

Lemma find_pointwise {A} (f g : A -> bool) l :
  (forall x, f x = g x) -> find f l = find g l.
Proof.
  intros Hfg. induction l as [|x l IH]; simpl; [done|].
  by rewrite Hfg, IH.
Qed.

Lemma getHighCard_perm cards cards' :
  cards ≡ₚ cards' -> getHighCard cards = getHighCard cards'.
Proof.
  intros Hp. unfold getHighCard. apply find_pointwise.
  intros w. apply Bool.eq_iff_eq_true. rewrite !existsb_exists.
  split; intros (c & Hc & Hw); exists c; (split; [|done]).
  - apply list_elem_of_In. rewrite <- Hp. by apply list_elem_of_In.
  - apply list_elem_of_In. rewrite Hp. by apply list_elem_of_In.
Qed.

(** ** When [checkHand] returns *)

Lemma acesIn_sub names names' : names ⊆+ names' -> acesIn names <= acesIn names'.
Proof.
  intros (k & Hk)%submseteq_Permutation. unfold acesIn.
  rewrite Hk, filter_app, length_app. lia.
Qed.

Lemma indexInRanking_lookup k a : aList !! k = Some a -> indexInRanking a = k.
Proof.
  intros H. assert (k < 13) as Hk by (by apply lookup_lt_Some in H).
  do 13 (destruct k as [|k]; [injection H as <-; vm_compute; reflexivity|]).
  lia.
Qed.

Lemma typedName_key name :
  typedName name ->
  exists word, Py.split0 name = Ok word /\ aList !! keyOf name = Some word.
Proof.
  intros (w & Hw & Hin). exists w. split; [done|].
  unfold keyOf, rankValue. rewrite Hw. simpl. by apply aList_indexInRanking.
Qed.

Lemma typedName_key_le name : typedName name -> keyOf name <= 12.
Proof.
  intros (w & _ & Hk)%typedName_key. apply lookup_lt_Some in Hk.
  change (length aList) with 13 in Hk. lia.
Qed.

Lemma consecutiveFrom_returns start i rest :
  Forall typedName rest -> start + i <= 12 -> aceOnlyLast rest ->
  isOk (consecutiveFrom start i rest) = true.
Proof.
  intros Hall. revert i.
  induction Hall as [|n rest Hn _ IH]; intros i Hi Hlast; simpl; [done|].
  destruct (typedName_key n Hn) as (w & Hw & Hk). rewrite Hw. simpl.
  destruct (aList !! (start + i)) as [a|] eqn:Ea.
  2:{ apply lookup_ge_None in Ea. change (length aList) with 13 in Ea. lia. }
  destruct (String.eqb w a) eqn:E; [|done].
  apply String.eqb_eq in E. subst a.
  apply indexInRanking_lookup in Ea, Hk. rewrite Hk in Ea.
  destruct rest as [|m rest]; [done|].
  destruct Hlast as [Hlow Hlast]. apply IH; [lia|done].
Qed.

(** The tail of [isStraight] returns on five sorted names with at most one
    ace among them. *)
Lemma straightTail_returns t :
  length t = 5 -> Forall typedName t ->
  StronglySorted le (map keyOf t) -> acesIn t <= 1 ->
  isOk (straightTail t) = true.
Proof.
  intros Hlen Hall Hsorted Haces.
  destruct t as [|n0 [|n1 [|n2 [|n3 [|n4 [|]]]]]]; try done.
  assert (keyOf n4 <= 12) as H4.
  { apply typedName_key_le. rewrite Forall_forall in Hall.
    apply Hall. repeat constructor. }
  assert (keyOf n0 <= keyOf n1 /\ keyOf n1 <= keyOf n2 /\
          keyOf n2 <= keyOf n3 /\ keyOf n3 <= keyOf n4) as (H01 & H12 & H23 & H34).
  { simpl in Hsorted.
    repeat match goal with
    | H : StronglySorted _ (_ :: _) |- _ =>
        apply StronglySorted_inv in H as [? ?]
    | H : Forall _ (_ :: _) |- _ => apply Forall_cons in H as [? ?]
    end. lia. }
  assert (keyOf n3 <= 11) as H3.
  { unfold acesIn in Haces. rewrite !filter_cons in Haces.
    rewrite filter_nil in Haces.
    repeat case_decide; simpl in Haces; lia. }
  repeat match goal with
  | H : Forall _ (_ :: _) |- _ => apply Forall_cons in H as [? ?]
  end.
  destruct (typedName_key n4) as (w4 & Hw4 & _); [done|].
  destruct (typedName_key n0) as (w0 & Hw0 & Hk0); [done|].
  apply indexInRanking_lookup in Hk0.
  set (t := [n0; n1; n2; n3; n4]).
  assert (wordAt 4 t = Ok w4) as E4 by exact Hw4.
  assert (wordAt 0 t = Ok w0) as E0 by exact Hw0.
  assert (wordAt 0 (delete 4 t) = Ok w0) as E0' by exact Hw0.
  unfold straightTail. rewrite E4. cbn [bind]. rewrite E0.
  destruct (String.eqb w4 "Ace"); cbn [bind].
  - destruct (String.eqb w0 "Two") eqn:E; cbn [bind].
    + rewrite E0'. cbn [bind]. rewrite Hk0.
      apply (consecutiveFrom_returns _ 1 [n1; n2; n3]);
        [by repeat constructor|lia|simpl; lia].
    + rewrite E0. cbn [bind]. rewrite Hk0.
      apply (consecutiveFrom_returns _ 1 [n1; n2; n3; n4]);
        [by repeat constructor|lia|simpl; lia].
  - rewrite E0. cbn [bind]. rewrite Hk0.
    apply (consecutiveFrom_returns _ 1 [n1; n2; n3; n4]);
      [by repeat constructor|lia|simpl; lia].
Qed.

Lemma isStraight_returns h :
  length h = 5 -> Forall (fun c => typed c = true) h ->
  acesIn (map getCardName h) <= 1 ->
  isOk (isStraight h) = true.
Proof.
  intros Hlen Hall Haces.
  assert (Forall typedName (map getCardName h)) as Hn.
  { apply Forall_fmap. eapply Forall_impl; [exact Hall|].
    intros c Hc. by apply typed_typedName. }
  rewrite isStraight_tail, sortByRank_selectionSort;
    [|eapply Forall_impl; [exact Hn|apply typedName_worded]].
  simpl. apply straightTail_returns.
  - by rewrite selectionSort_perm, length_fmap.
  - by rewrite selectionSort_perm.
  - by apply selectionSort_sorted.
  - unfold acesIn in *. by rewrite selectionSort_perm.
Qed.

(** All nine tests return on five typed cards with at most one ace. *)
Lemma functions_return h :
  length h = 5 -> Forall (fun c => typed c = true) h ->
  acesIn (map getCardName h) <= 1 ->
  Forall (fun test => isOk (test h) = true) functions.
Proof.
  intros Hlen Hall Haces.
  assert (forall X, (0 <= X <= 4)%Z -> isOk (isXofAKind h X) = true) as HX.
  { intros X HX. unfold isXofAKind, countOccurrences.
    rewrite (foldM_words tally _ h Hall).
    destruct ((X <? 0)%Z || (4 <? X)%Z) eqn:E; [|done].
    apply orb_prop in E as [E|E]; [apply Z.ltb_lt in E|apply Z.ltb_lt in E]; lia. }
  repeat constructor.
  - unfold isRoyalFlush. destruct (negb (isFlush h)); [done|].
    by rewrite (foldM_words markFirst _ h Hall).
  - unfold isStraightFlush. destruct (isFlush h); [|done].
    by apply isStraight_returns.
  - by apply HX.
  - unfold isFullHouse. pose proof (HX 3%Z ltac:(lia)) as H3.
    destruct (isXofAKind h 3) as [[|]|]; simpl; [by apply HX|done|done].
  - by apply isStraight_returns.
  - by apply HX.
  - unfold isTwoPairs, countOccurrences.
    by rewrite (foldM_words tally _ h Hall).
  - by apply HX.
Qed.

Lemma anyHand_returns test (hands : list (list Card)) :
  (forall h, h ∈ hands -> isOk (test h) = true) ->
  isOk (anyHand test hands) = true.
Proof.
  induction hands as [|h hands IH]; intros Hall; simpl; [done|].
  pose proof (Hall h (list_elem_of_here _ _)) as Hh.
  destruct (test h) as [[|]|]; simpl; [done| |done].
  apply IH. intros h' Hin. apply Hall. by apply list_elem_of_further.
Qed.

Lemma firstCategory_returns tests (hands : list (list Card)) :
  Forall (fun t : (list Card -> result bool) * string =>
            forall h, h ∈ hands -> isOk (t.1 h) = true) tests ->
  isOk (firstCategory tests hands) = true.
Proof.
  induction 1 as [|[test name] tests Ht _ IH]; simpl; [done|].
  pose proof (anyHand_returns test hands Ht) as Hany.
  destruct (anyHand test hands) as [[|]|]; simpl; done.
Qed.

(** [checkHand] returns on seven typed cards with at most one ace among
    them, in whatever order they come. *)
Lemma checkHandCards_returns cards :
  length cards = 7 -> Forall (fun c => typed c = true) cards ->
  acesIn (map getCardName cards) <= 1 ->
  exists r, checkHandCards cards = Ok r.
Proof.
  intros Hlen Hall Haces. unfold checkHandCards.
  assert (isOk (firstCategory (zip functions CARD_HANDS)
                  (fiveCardHands cards)) = true) as Hok.
  { apply firstCategory_returns. apply Forall_forall.
    intros [test name] Hin h Hh. simpl.
    apply (fiveCardHands_sub cards h Hlen) in Hh as [Hsub Hlen'].
    assert (Forall (fun test => isOk (test h) = true) functions) as Hf.
    { apply functions_return; [done| |].
      - apply Forall_forall. intros c Hc. rewrite Forall_forall in Hall.
        apply Hall. by apply (elem_of_submseteq h cards c Hc).
      - etrans; [|exact Haces]. apply acesIn_sub. by apply fmap_submseteq. }
    rewrite Forall_forall in Hf. apply Hf. by apply elem_of_zip_l in Hin. }
  destruct (firstCategory _ _) as [[hand|]|]; simpl; [by eexists..|done].
Qed.

(** * The claims about the evaluator *)

(** ** The order of the seven cards *)

Lemma readable_sub (cards h : list Card) :
  Forall (fun c => readable c = true) cards -> h ⊆+ cards ->
  Forall (fun c => readable c = true) h.
Proof.
  intros Hall Hsub. apply Forall_forall. intros c Hc.
  rewrite Forall_forall in Hall. apply Hall.
  by apply (elem_of_submseteq h cards c Hc).
Qed.

(** C6, as stated, fails.  The same seven cards are evaluated to "Ace" in
    one order and to "Queen" in another, and the rank that breaks a tie is
    the ace in one and the queen in the other: both are taken from the two
    cards that come last, the player's own. *)
Lemma evaluation_depends_on_the_last_two_cards :
  noPairHand ≡ₚ noPairHandExchanged /\
  checkHandCards noPairHand = Ok (Some "Ace") /\
  checkHandCards noPairHandExchanged = Ok (Some "Queen") /\
  highCardScore (drop 5 noPairHand) = Ok 12 /\
  highCardScore (drop 5 noPairHandExchanged) = Ok 10.
Proof.
  split; [unfold noPairHand, noPairHandExchanged; solve_Permutation|].
  repeat split; vm_compute; reflexivity.
Qed.

(** The first test that passes is the same in whatever order the seven
    cards come. *)
Lemma firstCategory_perm (cards cards' : list Card)
  (found found' : option string) :
  length cards = 7 ->
  Forall (fun c => readable c = true) cards ->
  cards ≡ₚ cards' ->
  firstCategory (zip functions CARD_HANDS) (fiveCardHands cards) = Ok found ->
  firstCategory (zip functions CARD_HANDS) (fiveCardHands cards') = Ok found' ->
  found = found'.
Proof.
  intros Hlen Hall Hp E E'.
  assert (length cards' = 7) as Hlen' by (by rewrite <- Hp).
  apply (firstCategory_agree (zip functions CARD_HANDS)
           (fiveCardHands cards) (fiveCardHands cards')); try done.
  - apply (tests_ignore_order cards); [done|].
    intros h Hh. by apply (fiveCardHands_sub cards h Hlen).
  - by apply fiveCardHands_covers_perm.
  - by apply fiveCardHands_covers_perm.
Qed.

(** C6, amended.  Take seven cards that the tests read as the cards they
    are (each name begins with a card type and shows one suit letter, which
    leaves out the sixes and sevens that are not spades), in two orders,
    and let [checkHand] return for both.  Then both answers have the same
    score, and they are the same answer when the last two cards, the
    player's own, are the same two. *)
Theorem evaluation_ignores_order (cards cards' : list Card)
  (r r' : option string) :
  length cards = 7 ->
  Forall (fun c => readable c = true) cards ->
  cards ≡ₚ cards' ->
  checkHandCards cards = Ok r ->
  checkHandCards cards' = Ok r' ->
  handScore r = handScore r' /\
  (drop 5 cards ≡ₚ drop 5 cards' -> r = r').
Proof.
  intros Hlen Hall Hp H H'. unfold checkHandCards in H, H'.
  apply bind_Ok in H as (found & E & H).
  apply bind_Ok in H' as (found' & E' & H').
  revert H H'.
  rewrite (firstCategory_perm cards cards' found found' Hlen Hall Hp E E').
  destruct found' as [hand|].
  - intros [= <-] [= <-]. done.
  - intros [= <-] [= <-]. rewrite !handScore_getHighCard.
    split; [done|]. apply getHighCard_perm.
Qed.

Lemma evaluation_ignores_order_witness :
  checkHandCards wheelHand = Ok (Some "Straight") /\
  checkHandCards wheelHandReversed = Ok (Some "Straight") /\
  handScore (Some "Straight") = handScore (Some "Straight") /\
  (drop 5 wheelHand ≡ₚ drop 5 wheelHandReversed ->
   Some "Straight" = Some "Straight").
Proof.
  split; [vm_compute; reflexivity|]. split; [vm_compute; reflexivity|].
  apply (evaluation_ignores_order wheelHand wheelHandReversed).
  - reflexivity.
  - repeat constructor.
  - apply Permutation_rev.
  - vm_compute; reflexivity.
  - vm_compute; reflexivity.
Defined.

(** Beside the design, two slips make the order count.  A six or a seven
    that comes first in a hand passes for a spade, so four spades after the
    six of hearts are a "Flush" ... *)
Lemma six_of_hearts_counts_as_a_spade :
  let first := [mkCard "Six of Hearts"; mkCard "Nine of Spades";
                mkCard "Jack of Spades"; mkCard "Two of Spades";
                mkCard "Three of Spades"; mkCard "King of Diamonds";
                mkCard "Queen of Diamonds"] in
  let second := [mkCard "Nine of Spades"; mkCard "Six of Hearts";
                 mkCard "Jack of Spades"; mkCard "Two of Spades";
                 mkCard "Three of Spades"; mkCard "King of Diamonds";
                 mkCard "Queen of Diamonds"] in
  isFlush (take 5 first) = true /\ isFlush (take 5 second) = false /\
  checkHandCards first = Ok (Some "Flush") /\
  checkHandCards second = Ok (Some "King").
Proof. repeat split; vm_compute; reflexivity. Qed.

(** ... and [isStraight] looks past the end of [aList] when the sorted hand
    runs up to an ace and goes on, as jack, queen, king, ace, ace does. *)
Lemma second_ace_raises_IndexError :
  isStraight [mkCard "Jack of Spades"; mkCard "Queen of Diamonds";
              mkCard "King of Hearts"; mkCard "Ace of Clubs";
              mkCard "Ace of Spades"] = Raise IndexError /\
  checkHandCards [mkCard "Jack of Spades"; mkCard "Queen of Diamonds";
                  mkCard "King of Hearts"; mkCard "Ace of Clubs";
                  mkCard "Two of Diamonds"; mkCard "Ace of Spades";
                  mkCard "Three of Hearts"] = Raise IndexError.
Proof. split; vm_compute; reflexivity. Qed.

(** ** Windows and combinations *)

(** C7, as stated, fails.  The evaluator of the specification stops at the
    first combination that passes a test: the first five cards hold a pair
    of twos, so it answers "One Pair", where [checkHand] goes through all
    hands for each test in turn and answers "Three of a Kind". *)
Lemma first_matching_subset_is_not_the_best :
  checkHandCards threeTwos = Ok (Some "Three of a Kind") /\
  evaluateSubsetFirst threeTwos = Ok (Some "One Pair").
Proof. split; vm_compute; reflexivity. Qed.

(** C7, amended.  On seven cards that the tests read as the cards they
    are, [checkHand] with its windows and the evaluator that tries each
    test, from strongest to weakest, on all 21 combinations of five cards
    give the same answer, whenever both return. *)
Theorem windows_agree_with_combinations (cards : list Card)
  (r r' : option string) :
  length cards = 7 ->
  Forall (fun c => readable c = true) cards ->
  checkHandCards cards = Ok r ->
  evaluateCategoryFirst cards = Ok r' ->
  r = r'.
Proof.
  intros Hlen Hall H H'. unfold checkHandCards in H.
  unfold evaluateCategoryFirst in H'.
  apply bind_Ok in H as (found & E & H).
  apply bind_Ok in H' as (found' & E' & H').
  revert H H'.
  assert (found = found') as <-.
  { apply (firstCategory_agree (zip functions CARD_HANDS)
             (fiveCardHands cards) (combinations 5 cards)); try done.
    - apply (tests_ignore_order cards); [done|].
      intros h Hh. by apply (fiveCardHands_sub cards h Hlen).
    - by apply fiveCardHands_covers_combinations.
    - by apply combinations_covers_fiveCardHands. }
  destruct found as [hand|]; by intros [= <-] [= <-].
Qed.

Lemma windows_agree_with_combinations_witness :
  checkHandCards threeTwos = Ok (Some "Three of a Kind") /\
  evaluateCategoryFirst threeTwos = Ok (Some "Three of a Kind") /\
  Some "Three of a Kind" = Some "Three of a Kind".
Proof.
  split; [vm_compute; reflexivity|]. split; [vm_compute; reflexivity|].
  apply (windows_agree_with_combinations threeTwos).
  - reflexivity.
  - repeat constructor.
  - vm_compute; reflexivity.
  - vm_compute; reflexivity.
Defined.

(** The windows give the cards of a hand in another order than the
    combinations do, and the slip of [isFlush] shows: here the window that
    begins with the six of hearts is a "Flush" and no combination is. *)
Lemma window_order_makes_a_flush :
  let cards := [mkCard "Two of Spades"; mkCard "Three of Spades";
                mkCard "King of Diamonds"; mkCard "Queen of Diamonds";
                mkCard "Six of Hearts"; mkCard "Nine of Spades";
                mkCard "Jack of Spades"] in
  checkHandCards cards = Ok (Some "Flush") /\
  evaluateCategoryFirst cards = Ok (Some "Jack") /\
  evaluateSubsetFirst cards = Ok (Some "Jack").
Proof. repeat split; vm_compute; reflexivity. Qed.

(** ** The wheel *)

(** C8.  The seven cards ace of spades, two of diamonds, three of hearts,
    four of clubs, five of spades, nine of diamonds and king of hearts are a
    Straight in whatever order they come: ace to five passes [isStraight]
    with the ace low, and none of the five stronger tests passes on any five
    of the seven cards. *)
Theorem wheel_is_a_straight :
  (forall cards, wheelHand ≡ₚ cards ->
                 checkHandCards cards = Ok (Some "Straight")) /\
  isStraight (take 5 wheelHand) = Ok true /\
  Forall (fun test => anyHand test (fiveCardHands wheelHand) = Ok false)
         (take 5 functions).
Proof.
  split; [|split; [vm_compute; reflexivity
                  |repeat constructor; vm_compute; reflexivity]].
  intros cards Hp.
  assert (Forall (fun c => readable c = true) wheelHand) as Hr
    by repeat constructor.
  assert (Forall (fun c => typed c = true) cards) as Ht.
  { rewrite <- Hp. repeat constructor. }
  destruct (checkHandCards_returns cards) as [r Hret].
  - by rewrite <- Hp.
  - exact Ht.
  - unfold acesIn. rewrite <- Hp. vm_compute. lia.
  - rewrite Hret. unfold checkHandCards in Hret.
    apply bind_Ok in Hret as (found & E & Hret).
    assert (Some "Straight" = found) as <-.
    { apply (firstCategory_perm wheelHand cards);
        [done|done|done|vm_compute; reflexivity|done]. }
    by injection Hret as <-.
Qed.

Lemma wheel_is_a_straight_witness :
  checkHandCards wheelHandReversed = Ok (Some "Straight").
Proof.
  apply (proj1 wheel_is_a_straight). apply Permutation_rev.
Defined.

(** * More about the cards and the deck *)

(** ** Names and their words *)

Lemma append_cons (c : ascii) (s t : string) :
  String c s +:+ t = String c (s +:+ t).
Proof. reflexivity. Qed.

Lemma append_empty_r (s : string) : s +:+ "" = s.
Proof.
  induction s as [|c s IH]; [done|]. by rewrite append_cons, IH.
Qed.

Lemma append_assoc (s1 s2 s3 : string) :
  (s1 +:+ s2) +:+ s3 = s1 +:+ (s2 +:+ s3).
Proof.
  induction s1 as [|c s1 IH]; [done|]. by rewrite !append_cons, IH.
Qed.

Lemma eqb_append_char (w : string) (c : ascii) :
  String.eqb (w +:+ String c "") "" = false.
Proof. by destruct w. Qed.

Lemma splitWords_first (word s : string) :
  String.eqb word "" = false ->
  splitWords word s !! 0 = Some (word +:+ Py.takeWord s).
Proof.
  revert word. induction s as [|c s IH]; intros word Hw; simpl.
  - by rewrite Hw, append_empty_r.
  - destruct (Py.isSpace c).
    + by rewrite Hw, append_empty_r.
    + rewrite IH by apply eqb_append_char. by rewrite append_assoc.
Qed.

(** The first word of [split] is the word of [split0]. *)
Lemma split0_split (s : string) : Py.split0 s = getItem 0 (split s).
Proof.
  unfold Py.split0, getItem, split.
  induction s as [|c s IH]; simpl; [done|].
  destruct (Py.isSpace c) eqn:E; [done|].
  simpl. rewrite E. by rewrite splitWords_first.
Qed.

Lemma elem_of_mjoin_replicate {A} (N : nat) (l : list A) (x : A) :
  x ∈ mjoin (replicate N l) -> x ∈ l.
Proof.
  induction N as [|N IH]; [by intros ?%elem_of_nil|].
  change (mjoin (replicate (S N) l)) with (l ++ mjoin (replicate N l)).
  rewrite elem_of_app. intros [?|?]; auto.
Qed.

(** X1.  Every card of a new deck is named by a type, the word "of" and a
    suit; [getType] gives the type back and [getSuit] the suit.  The
    placeholder cards "Empty" and "Unknown" have no third word, and
    [getSuit] raises [IndexError] on them. *)
Theorem deck_cards_name_their_type_and_suit (N : nat) (c : Card) :
  c ∈ cardsInDeck (newDeck N) ->
  (exists aType aSuit,
     aType ∈ TYPES /\ aSuit ∈ SUITS /\
     getCardName c = aType +:+ " of " +:+ aSuit /\
     getType c = Ok aType /\ getSuit c = Ok aSuit) /\
  getSuit (mkCard "Empty") = Raise IndexError /\
  getSuit (mkCard "Unknown") = Raise IndexError.
Proof.
  intros Hc. split; [|by split].
  apply elem_of_mjoin_replicate in Hc as Hone.
  clear Hc. unfold oneDeck in Hone.
  apply list_elem_of_bind in Hone as (aType & Hone & HT).
  apply list_elem_of_bind in Hone as (aSuit & Hone & HS).
  apply list_elem_of_singleton in Hone as ->.
  exists aType, aSuit. split; [done|]. split; [done|]. split; [done|].
  unfold TYPES in HT. unfold SUITS in HS.
  decompose_list_elem_of; subst; split; vm_compute; reflexivity.
Qed.

Lemma deck_cards_name_their_type_and_suit_witness :
  (exists aType aSuit,
     aType ∈ TYPES /\ aSuit ∈ SUITS /\
     "Queen of Hearts" = aType +:+ " of " +:+ aSuit /\
     getType (mkCard "Queen of Hearts") = Ok aType /\
     getSuit (mkCard "Queen of Hearts") = Ok aSuit) /\
  getSuit (mkCard "Empty") = Raise IndexError /\
  getSuit (mkCard "Unknown") = Raise IndexError.
Proof.
  apply (deck_cards_name_their_type_and_suit 1 (mkCard "Queen of Hearts")).
  vm_compute. repeat first [apply list_elem_of_here|apply list_elem_of_further].
Defined.

(** ** The shuffle *)

Lemma randint_in_range (lo hi r : nat) :
  lo <= hi -> lo <= randint lo hi r <= hi.
Proof.
  intros Hle. unfold randint.
  pose proof (Nat.mod_upper_bound r (hi - lo + 1)). lia.
Qed.

Lemma popInsert_shuffleStep (num : nat) (cards : list Card) :
  num < length cards -> popInsert num cards = Ok (shuffleStep num cards).
Proof.
  intros Hlt. unfold popInsert, shuffleStep.
  destruct (lookup_lt_is_Some_2 cards num Hlt) as [c ->]. done.
Qed.

Lemma shuffleStep_length (num : nat) (cards : list Card) :
  length (shuffleStep num cards) = length cards.
Proof. by rewrite shuffleStep_perm. Qed.

(** X2.  [Deck.shuffle] never pops past the end of the deck, whatever
    [randint] answers, and it only reorders the cards of the deck: none is
    lost, none is doubled, and the cards out of the deck stay as they
    are. *)
Theorem shuffle_reorders_the_deck (rs : list nat) (d : Deck) :
  shuffleChecked rs (cardsInDeck d) = Ok (cardsInDeck (shuffle rs d)) /\
  cardsInDeck (shuffle rs d) ≡ₚ cardsInDeck d /\
  cardsOutOfDeck (shuffle rs d) = cardsOutOfDeck d /\
  deckMultiple (shuffle rs d) = deckMultiple d.
Proof.
  split; [|split; [apply shuffleCards_perm|done]].
  unfold shuffle, shuffleChecked, shuffleCards; simpl.
  generalize (cardsInDeck d) as cards. intros cards.
  assert (forall idx cs,
            Forall (fun i => i < length cs) idx ->
            foldM (fun cs i =>
                     popInsert (randint i (length cs - 1) (nth i rs 0)) cs)
                  cs idx
            = Ok (foldl (fun cs i =>
                           shuffleStep
                             (randint i (length cs - 1) (nth i rs 0)) cs)
                        cs idx)) as Hloop.
  { induction idx as [|i idx IH]; intros cs Hidx; [done|].
    apply Forall_cons in Hidx as [Hi Hidx]. simpl.
    rewrite popInsert_shuffleStep.
    - simpl. apply IH. eapply Forall_impl; [exact Hidx|].
      intros j Hj. simpl in Hj. by rewrite shuffleStep_length.
    - pose proof (randint_in_range i (length cs - 1) (nth i rs 0)). lia. }
  apply Hloop. apply Forall_forall. intros i Hi.
  apply elem_of_seq in Hi. lia.
Qed.

(** One iteration of the loop with the answer of [randint] written out:
    with [p] already moved to the front, it moves the card at place
    [length r1] of the rest there. *)
Lemma shuffleStep_pick (p r1 r2 : list Card) (x : Card) (r : nat) :
  r = length r1 ->
  shuffleStep (randint (length p) (length (p ++ r1 ++ x :: r2) - 1) r)
              (p ++ r1 ++ x :: r2)
  = (x :: p) ++ r1 ++ r2.
Proof.
  intros ->. unfold randint.
  replace (length (p ++ r1 ++ x :: r2) - 1 - length p + 1)
    with (S (length r1 + length r2))
    by (rewrite !length_app; simpl; lia).
  rewrite Nat.mod_small by lia.
  unfold shuffleStep.
  replace (p ++ r1 ++ x :: r2) with ((p ++ r1) ++ x :: r2)
    by by rewrite <- app_assoc.
  replace (length p + length r1) with (length (p ++ r1))
    by by rewrite length_app.
  rewrite list_lookup_middle by done.
  rewrite delete_middle. by rewrite <- app_assoc.
Qed.

Lemma shuffle_loop_reaches (target : list Card) :
  forall (p remaining : list Card) (pre : list nat),
    length pre = length p -> target ≡ₚ remaining ->
    exists suf,
      foldl (fun cs i =>
               shuffleStep
                 (randint i (length cs - 1) (nth i (pre ++ suf) 0)) cs)
            (p ++ remaining) (seq (length p) (length remaining))
      = rev target ++ p.
Proof.
  induction target as [|x target IH]; intros p remaining pre Hpre Hperm.
  - apply Permutation_nil in Hperm as ->. exists []. simpl.
    by rewrite app_nil_r.
  - assert (x ∈ remaining) as Hx by (rewrite <- Hperm; apply list_elem_of_here).
    apply list_elem_of_split in Hx as (r1 & r2 & ->).
    apply Permutation_cons_app_inv in Hperm.
    destruct (IH (x :: p) (r1 ++ r2) (pre ++ [length r1])) as [suf Hsuf];
      [rewrite length_app; simpl; lia|done|].
    exists (length r1 :: suf).
    replace (pre ++ length r1 :: suf) with ((pre ++ [length r1]) ++ suf)
      by by rewrite <- app_assoc.
    replace (length (r1 ++ x :: r2)) with (S (length (r1 ++ r2)))
      by (rewrite !length_app; simpl; lia).
    simpl seq. simpl foldl.
    rewrite shuffleStep_pick.
    + etrans; [exact Hsuf|]. simpl. by rewrite <- app_assoc.
    + rewrite app_nth1 by (rewrite length_app; simpl; lia).
      rewrite app_nth2 by lia. by rewrite Hpre, Nat.sub_diag.
Qed.

(** X3.  [Deck.shuffle] can give the deck every order: for each arrangement
    of the cards there are answers of [randint] that produce it. *)
Theorem shuffle_reaches_every_order (cards target : list Card) :
  target ≡ₚ cards -> exists rs, shuffleCards rs cards = target.
Proof.
  intros Hperm.
  destruct (shuffle_loop_reaches (rev target) [] cards [])
    as [suf Hsuf]; [done|rewrite <- Hperm; symmetry; apply Permutation_rev|].
  exists suf. unfold shuffleCards. simpl in Hsuf. rewrite Hsuf.
  by rewrite rev_involutive, app_nil_r.
Qed.

Lemma shuffle_reaches_every_order_witness :
  exists rs,
    shuffleCards rs [mkCard "Ace of Clubs"; mkCard "Two of Clubs";
                     mkCard "Three of Clubs"]
    = [mkCard "Two of Clubs"; mkCard "Three of Clubs"; mkCard "Ace of Clubs"].
Proof.
  apply (shuffle_reaches_every_order
           [mkCard "Ace of Clubs"; mkCard "Two of Clubs";
            mkCard "Three of Clubs"]).
  solve_Permutation.
Defined.

(** ** Drawing and returning cards *)

Lemma pop_snoc {A} (l : list A) (x : A) : Py.pop (l ++ [x]) = Some (x, l).
Proof.
  induction l as [|y l IH]; [done|].
  change ((y :: l) ++ [x]) with (y :: (l ++ [x])).
  simpl. rewrite IH. by destruct l.
Qed.

Lemma getCardFromDeck_snoc (rest out : list Card) (c : Card) (n : nat) :
  getCardFromDeck (mkDeck (rest ++ [c]) out n)
  = Ok (c, mkDeck rest (out ++ [c]) n).
Proof. unfold getCardFromDeck. simpl. by rewrite pop_snoc. Qed.

(** X4.  [Deck.getCardFromDeck] exits exactly when no card is left in the
    deck; otherwise it hands out the last card of the list and files it
    last among the cards out of the deck. *)
Theorem draw_takes_the_last_card (d : Deck) :
  (getCardFromDeck d = Raise SystemExit <-> getNumOfCardsInDeck d = 0) /\
  (forall rest c,
     cardsInDeck d = rest ++ [c] ->
     getCardFromDeck d
     = Ok (c, mkDeck rest (cardsOutOfDeck d ++ [c]) (deckMultiple d))) /\
  (forall e, getCardFromDeck d = Raise e -> e = SystemExit).
Proof.
  destruct d as [ins out n]. unfold getNumOfCardsInDeck. simpl.
  split; [|split].
  - destruct ins as [|c ins _] using rev_ind.
    + done.
    + rewrite getCardFromDeck_snoc, length_app. simpl. split; [done|lia].
  - intros rest c ->. apply getCardFromDeck_snoc.
  - intros e. unfold getCardFromDeck. simpl.
    destruct (Py.pop ins) as [[c rest]|]; [done|]. by intros [= <-].
Qed.

Lemma draws_move_cards (b a out : list Card) (n : nat) :
  runOps (replicate (length b) OpDraw) (mkDeck (a ++ b) out n)
  = Ok (mkDeck a (out ++ rev b) n).
Proof.
  revert out. induction b as [|c b IH] using rev_ind; intros out.
  - simpl. by rewrite !app_nil_r.
  - rewrite length_app, Nat.add_comm. simpl.
    rewrite app_assoc, getCardFromDeck_snoc. simpl.
    rewrite IH, rev_app_distr. simpl. by rewrite <- app_assoc.
Qed.

Lemma runOps_app (ops1 ops2 : list DeckOp) (d : Deck) :
  runOps (ops1 ++ ops2) d = let! d' := runOps ops1 d in runOps ops2 d'.
Proof.
  revert d. induction ops1 as [|op ops1 IH]; intros d; simpl.
  - done.
  - destruct (applyOp op d) as [d'|e]; simpl; [apply IH|done].
Qed.

(** X5.  Drawing some cards and calling [addAllCardsBackIntoDeck] puts the
    drawn cards under the deck, the first drawn lowest: the deck [a ++ b]
    becomes [rev b ++ a].  Drawing one card more than the deck holds
    exits. *)
Theorem draws_and_return_rotate_the_deck (a b : list Card) (n : nat) :
  runOps (replicate (length b) OpDraw ++ [OpReturnAll]) (mkDeck (a ++ b) [] n)
  = Ok (mkDeck (rev b ++ a) [] n) /\
  runOps (replicate (S (length b)) OpDraw) (mkDeck b [] n) = Raise SystemExit.
Proof.
  split.
  - rewrite runOps_app, draws_move_cards. done.
  - replace (replicate (S (length b)) OpDraw)
      with (replicate (length b) OpDraw ++ [OpDraw])
      by (by rewrite <- replicate_S_end).
    pose proof (draws_move_cards b [] [] n) as Hdraws. simpl in Hdraws.
    by rewrite runOps_app, Hdraws.
Qed.

(** ** Returning named cards *)

Lemma takeBack_nothing_out (cardList : list Card) :
  takeBack cardList [] = Ok ([], []).
Proof. induction cardList as [|c l IH]; [done|]. simpl. exact IH. Qed.

(** X6.  With no card out of the deck, [addSpecificCardsBackIntoDeck]
    leaves the deck as it is, whatever cards it is given. *)
Theorem nothing_out_nothing_returned (cardList : list Card) (d : Deck) :
  cardsOutOfDeck d = [] -> addSpecificCardsBackIntoDeck cardList d = Ok d.
Proof.
  destruct d as [ins out n]. simpl. intros ->.
  unfold addSpecificCardsBackIntoDeck. simpl.
  by rewrite takeBack_nothing_out.
Qed.

Lemma nothing_out_nothing_returned_witness :
  addSpecificCardsBackIntoDeck [mkCard "King of Clubs"; mkCard "Joker"]
                               (newDeck 1)
  = Ok (newDeck 1).
Proof. by apply (nothing_out_nothing_returned _ (newDeck 1)). Defined.

Lemma isInDeck_found (c c' : Card) (t : string) (o1 o2 : list Card) :
  getType c = Ok t -> getType c' = Ok t ->
  Forall (fun o => exists t', getType o = Ok t' /\ t' <> t) o1 ->
  isInDeck c (o1 ++ c' :: o2) = Ok true /\
  popSameType c (o1 ++ c' :: o2) = Ok (o1 ++ o2).
Proof.
  intros Hc Hc' Ho1. induction Ho1 as [|o o1 (t' & Ho & Hne) _ [IH1 IH2]].
  - simpl. rewrite Hc, Hc'. simpl. by rewrite String.eqb_refl.
  - simpl. rewrite Hc, Ho. simpl.
    assert (String.eqb t t' = false) as ->
        by (apply String.eqb_neq; congruence).
    by rewrite IH1, IH2.
Qed.

(** X7.  [addSpecificCardsBackIntoDeck] matches a card by its type only:
    the card it is given goes into the deck, whatever its suit, and the
    first card out of the deck that has the same type is struck off. *)
Theorem return_matches_the_type_only (c c' : Card) (t : string)
  (ins o1 o2 : list Card) (n : nat) :
  getType c = Ok t -> getType c' = Ok t ->
  Forall (fun o => exists t', getType o = Ok t' /\ t' <> t) o1 ->
  addSpecificCardsBackIntoDeck [c] (mkDeck ins (o1 ++ c' :: o2) n)
  = Ok (mkDeck (c :: ins) (o1 ++ o2) n).
Proof.
  intros Hc Hc' Ho1.
  destruct (isInDeck_found c c' t o1 o2 Hc Hc' Ho1) as [Hin Hpop].
  unfold addSpecificCardsBackIntoDeck. simpl.
  by rewrite Hin, Hpop.
Qed.

Lemma return_matches_the_type_only_witness :
  addSpecificCardsBackIntoDeck
    [mkCard "King of Clubs"]
    (mkDeck [mkCard "King of Clubs"]
            ([mkCard "Two of Spades"] ++ mkCard "King of Hearts" :: []) 1)
  = Ok (mkDeck [mkCard "King of Clubs"; mkCard "King of Clubs"]
               ([mkCard "Two of Spades"] ++ []) 1).
Proof.
  apply (return_matches_the_type_only
           (mkCard "King of Clubs") (mkCard "King of Hearts") "King").
  - reflexivity.
  - reflexivity.
  - repeat constructor. exists "Two". split; [reflexivity|discriminate].
Defined.

(** * More about the evaluator *)

(** ** Counting the types of a hand *)

Lemma foldM_worded {B} (f : string -> B -> B) (b : B) (cards : list Card) :
  Forall (fun c => worded (getCardName c)) cards ->
  foldM (fun acc name => let! word := Py.split0 name in Ok (f word acc))
        b (map getCardName cards)
  = Ok (foldl (fun acc c => f (wordOf c) acc) b cards).
Proof.
  intros Hw. revert b.
  induction Hw as [|c cards Hc _ IH]; intros b; [done|].
  simpl. unfold worded in Hc. unfold wordOf, getType.
  destruct (Py.split0 (getCardName c)) as [w|e]; [|done].
  simpl. apply IH.
Qed.

Lemma placeIn_S (word : string) (l : list string) (j : nat) :
  placeIn word l (S j) = S <$> placeIn word l j.
Proof.
  revert j. induction l as [|a l IH]; intros j; simpl; [done|].
  destruct (String.eqb a word); [done|apply IH].
Qed.

Lemma alter_placeIn (k : string -> nat) (word : string) (l : list string) :
  NoDup l ->
  match placeIn word l 0 with
  | Some j => alter S j (map k l)
  | None => map k l
  end
  = map (fun w => if String.eqb w word then S (k w) else k w) l.
Proof.
  induction 1 as [|a l Ha _ IH]; [done|].
  simpl. destruct (String.eqb a word) eqn:E.
  - simpl. f_equal. apply String.eqb_eq in E as ->.
    apply map_ext_in. intros w Hw.
    destruct (String.eqb_spec w word) as [->|]; [|done].
    by apply list_elem_of_In in Hw.
  - rewrite placeIn_S.
    destruct (placeIn word l 0) as [j|]; simpl; by rewrite <- IH.
Qed.

Lemma NoDup_aList : NoDup aList.
Proof. apply (bool_decide_unpack _). vm_compute. reflexivity. Qed.

Lemma hasType_wordOf (w : string) (c : Card) :
  worded (getCardName c) -> hasType w c = String.eqb w (wordOf c).
Proof.
  unfold worded, hasType, wordOf, getType.
  by destruct (Py.split0 (getCardName c)).
Qed.

Lemma occurrencesOf_cons (w : string) (c : Card) (cards : list Card) :
  occurrencesOf w (c :: cards)
  = (if hasType w c then 1 else 0) + occurrencesOf w cards.
Proof.
  unfold occurrencesOf. rewrite filter_cons.
  destruct (hasType w c); by case_decide.
Qed.

Lemma count_loop (cards : list Card) (k : string -> nat) :
  Forall (fun c => worded (getCardName c)) cards ->
  foldl (fun occ c => tally (wordOf c) occ) (map k aList) cards
  = map (fun w => k w + occurrencesOf w cards) aList.
Proof.
  intros Hw. revert k. induction Hw as [|c cards Hc _ IH]; intros k.
  - cbn [foldl]. apply map_ext. intros w. unfold occurrencesOf. simpl. lia.
  - cbn [foldl]. rewrite tally_alter, (alter_placeIn k) by apply NoDup_aList.
    rewrite IH. apply map_ext. intros w.
    rewrite occurrencesOf_cons, (hasType_wordOf w c Hc).
    destruct (String.eqb w (wordOf c)); lia.
Qed.

Lemma countOccurrences_spec (cards : list Card) :
  Forall (fun c => worded (getCardName c)) cards ->
  countOccurrences cards = Ok (map (fun w => occurrencesOf w cards) aList).
Proof.
  intros Hw. unfold countOccurrences.
  rewrite (foldM_worded tally) by done.
  change (replicate (length TYPES) 0) with (map (fun _ : string => 0) aList).
  by rewrite count_loop.
Qed.

Lemma countOccurrences_raises (cards : list Card) :
  Exists (fun c => getType c = Raise IndexError) cards ->
  forall occ, foldM (fun occ name => let! word := Py.split0 name in
                                     Ok (tally word occ))
                    occ (map getCardName cards) = Raise IndexError.
Proof.
  induction cards as [|c cards IH]; intros Hex occ.
  - by apply Exists_nil in Hex.
  - simpl. unfold getType in Hex.
    destruct (Py.split0 (getCardName c)) as [w|e] eqn:E; simpl.
    + apply IH. apply Exists_cons in Hex as [Hex|Hex]; [|done].
      by rewrite E in Hex.
    + unfold Py.split0 in E.
      by destruct (Py.takeWord (Py.dropSpaces (getCardName c))); inversion E.
Qed.

(** X8.  [isXofAKind(cards, X)] exits when [X] is below 0 or above 4.
    Otherwise, on cards whose names have a first word, it says whether some
    type of the ranking is the type of exactly [X] of the cards, not of [X]
    or more; and when some name has no word it raises [IndexError]. *)
Theorem isXofAKind_counts_exactly (cards : list Card) (X : Z) :
  ((X < 0 \/ 4 < X)%Z -> isXofAKind cards X = Raise SystemExit) /\
  ((0 <= X <= 4)%Z ->
   (Forall (fun c => worded (getCardName c)) cards ->
    exists b,
      isXofAKind cards X = Ok b /\
      (b = true <->
       exists w, w ∈ aList /\ Z.of_nat (occurrencesOf w cards) = X)) /\
   (Exists (fun c => getType c = Raise IndexError) cards ->
    isXofAKind cards X = Raise IndexError)).
Proof.
  unfold isXofAKind. split.
  - intros HX.
    assert (((X <? 0) || (4 <? X))%Z = true) as -> by lia. done.
  - intros HX.
    assert (((X <? 0) || (4 <? X))%Z = false) as -> by lia.
    split.
    + intros Hw. rewrite countOccurrences_spec by done. cbn [bind].
      eexists. split; [reflexivity|].
      rewrite existsb_exists. split.
      * intros (n & Hn & HnX). apply in_map_iff in Hn as (w & <- & Hw').
        exists w. split; [by apply list_elem_of_In|lia].
      * intros (w & Hw' & HwX). exists (occurrencesOf w cards). split.
        -- apply in_map_iff. exists w. split; [done|by apply list_elem_of_In].
        -- lia.
    + intros Hex. unfold countOccurrences.
      by rewrite countOccurrences_raises.
Qed.

Lemma isXofAKind_counts_exactly_witness :
  exists b,
    isXofAKind twosFullOfNines 2 = Ok b /\
    (b = true <->
     exists w, w ∈ aList /\
               Z.of_nat (occurrencesOf w twosFullOfNines) = 2%Z).
Proof.
  apply (isXofAKind_counts_exactly twosFullOfNines 2).
  - lia.
  - repeat constructor.
Defined.

Lemma timesIn_map {A} (f : A -> nat) (n : nat) (l : list A) :
  timesIn n (map f l) = length (filter (fun x => f x = n) l).
Proof.
  unfold timesIn. induction l as [|x l IH]; [done|].
  simpl. rewrite !filter_cons. repeat case_decide; simpl; congruence.
Qed.

(** X9.  On cards whose names have a first word, [isTwoPairs] says whether
    exactly two types of the ranking are each the type of exactly two of
    the cards. *)
Theorem isTwoPairs_counts_two_pairs (cards : list Card) :
  Forall (fun c => worded (getCardName c)) cards ->
  exists b,
    isTwoPairs cards = Ok b /\
    (b = true <->
     length (filter (fun w => occurrencesOf w cards = 2) aList) = 2).
Proof.
  intros Hw. unfold isTwoPairs.
  rewrite countOccurrences_spec by done. cbn [bind].
  eexists. split; [reflexivity|].
  change (length (filter (fun n => n = 2)
                         (map (fun w => occurrencesOf w cards) aList)))
    with (timesIn 2 (map (fun w => occurrencesOf w cards) aList)).
  rewrite timesIn_map. apply Nat.eqb_eq.
Qed.

Lemma isTwoPairs_counts_two_pairs_witness :
  exists b,
    isTwoPairs twosAndNines = Ok b /\
    (b = true <->
     length (filter (fun w => occurrencesOf w twosAndNines = 2) aList) = 2).
Proof.
  apply (isTwoPairs_counts_two_pairs twosAndNines). repeat constructor.
Defined.

(** ** The tests that count do not overlap on five cards *)

Lemma sum_list_alter (j : nat) (occ : list nat) :
  sum_list (alter S j occ) <= S (sum_list occ).
Proof.
  revert j. induction occ as [|n occ IH]; intros j; [simpl; lia|].
  destruct j as [|j]; simpl; [lia|].
  specialize (IH j). unfold alter in IH. lia.
Qed.

Lemma count_loop_sum (cards : list Card) (occ : list nat) :
  sum_list (foldl (fun occ c => tally (wordOf c) occ) occ cards)
  <= sum_list occ + length cards.
Proof.
  revert occ. induction cards as [|c cards IH]; intros occ; [simpl; lia|].
  cbn [foldl length]. etrans; [apply IH|].
  rewrite tally_alter. destruct (placeIn (wordOf c) aList 0) as [j|]; [|lia].
  pose proof (sum_list_alter j occ). lia.
Qed.

Lemma timesIn_sum (occ : list nat) :
  2 * timesIn 2 occ + 3 * timesIn 3 occ + 4 * timesIn 4 occ <= sum_list occ.
Proof.
  unfold timesIn. induction occ as [|n occ IH]; [simpl; lia|].
  rewrite !filter_cons. simpl sum_list.
  repeat case_decide; simpl length; lia.
Qed.

Lemma existsb_timesIn (n : nat) (occ : list nat) :
  existsb (fun m => (Z.of_nat m =? Z.of_nat n)%Z) occ
  = negb (timesIn n occ =? 0).
Proof.
  unfold timesIn. induction occ as [|m occ IH]; [done|].
  rewrite filter_cons. simpl existsb. rewrite IH.
  case_decide as E.
  - subst m. by rewrite Z.eqb_refl.
  - assert ((Z.of_nat m =? Z.of_nat n)%Z = false) as -> by lia. done.
Qed.

(** X10.  On five cards whose names have a first word the counting tests
    sort the hands apart: four of a kind is neither three of a kind, a
    pair nor two pairs; a full house is three of a kind and a pair, but not
    two pairs nor four of a kind; two pairs are a pair, but not three nor
    four of a kind. *)
Theorem counting_tests_on_five_cards (cards : list Card) :
  length cards = 5 ->
  Forall (fun c => worded (getCardName c)) cards ->
  (isFourOfAKind cards = Ok true ->
   isThreeOfAKind cards = Ok false /\ isOnePair cards = Ok false /\
   isTwoPairs cards = Ok false /\ isFullHouse cards = Ok false) /\
  (isFullHouse cards = Ok true ->
   isThreeOfAKind cards = Ok true /\ isOnePair cards = Ok true /\
   isTwoPairs cards = Ok false /\ isFourOfAKind cards = Ok false) /\
  (isTwoPairs cards = Ok true ->
   isOnePair cards = Ok true /\ isThreeOfAKind cards = Ok false /\
   isFourOfAKind cards = Ok false /\ isFullHouse cards = Ok false).
Proof.
  intros Hlen Hw.
  unfold isFourOfAKind, isThreeOfAKind, isOnePair, isFullHouse, isTwoPairs,
    isXofAKind, countOccurrences.
  rewrite (foldM_worded tally) by done.
  pose proof (count_loop_sum cards (replicate (length TYPES) 0)) as Hsum.
  change (sum_list (replicate (length TYPES) 0)) with 0 in Hsum.
  set (occ := foldl _ _ cards) in *.
  pose proof (timesIn_sum occ) as Hbound.
  cbn [bind Z.ltb Z.compare orb].
  change 4%Z with (Z.of_nat 4). change 3%Z with (Z.of_nat 3).
  change 2%Z with (Z.of_nat 2).
  rewrite !existsb_timesIn.
  change (length (filter (fun n => n = 2) occ)) with (timesIn 2 occ).
  destruct (timesIn 2 occ) as [|[|[|n2]]];
    destruct (timesIn 3 occ) as [|n3];
    destruct (timesIn 4 occ) as [|n4];
    simpl; repeat split; intros; try done; try lia.
Qed.

Lemma counting_tests_on_five_cards_witness :
  (isFourOfAKind twosFullOfNines = Ok true ->
   isThreeOfAKind twosFullOfNines = Ok false /\
   isOnePair twosFullOfNines = Ok false /\
   isTwoPairs twosFullOfNines = Ok false /\
   isFullHouse twosFullOfNines = Ok false) /\
  (isFullHouse twosFullOfNines = Ok true ->
   isThreeOfAKind twosFullOfNines = Ok true /\
   isOnePair twosFullOfNines = Ok true /\
   isTwoPairs twosFullOfNines = Ok false /\
   isFourOfAKind twosFullOfNines = Ok false) /\
  (isTwoPairs twosFullOfNines = Ok true ->
   isOnePair twosFullOfNines = Ok true /\
   isThreeOfAKind twosFullOfNines = Ok false /\
   isFourOfAKind twosFullOfNines = Ok false /\
   isFullHouse twosFullOfNines = Ok false).
Proof.
  apply (counting_tests_on_five_cards twosFullOfNines).
  - reflexivity.
  - repeat constructor.
Defined.

(** ** The royal flush *)

Lemma markFirst_marked (m : string -> bool) (w : string) (l : list string) :
  NoDup l -> "*" ∉ l ->
  markFirst w (map (fun n => if m n then "*" else n) l)
  = map (fun n => if m n || String.eqb w n then "*" else n) l.
Proof.
  intros Hnd Hstar. induction Hnd as [|a l Ha _ IH]; [done|].
  apply not_elem_of_cons in Hstar as [Hsa Hstar].
  cbn [map markFirst].
  assert (forall v, v ∉ l ->
            map (fun n => if m n || String.eqb v n then "*" else n) l
            = map (fun n => if m n then "*" else n) l) as Hrest.
  { intros v Hv. apply map_ext_in. intros n Hn%list_elem_of_In.
    assert (String.eqb v n = false) as -> by (apply String.eqb_neq; congruence).
    by rewrite orb_false_r. }
  destruct (m a) eqn:Em; cbn [orb].
  - destruct (String.eqb_spec w "*") as [->|Hne].
    + by rewrite Hrest.
    + by rewrite IH.
  - destruct (String.eqb_spec w a) as [->|Hne].
    + by rewrite Hrest.
    + by rewrite IH.
Qed.

Lemma mark_loop (cards : list Card) (m : string -> bool) (l : list string) :
  NoDup l -> "*" ∉ l ->
  foldl (fun needed c => markFirst (wordOf c) needed)
        (map (fun n => if m n then "*" else n) l) cards
  = map (fun n => if m n || existsb (fun c => String.eqb (wordOf c) n) cards
                  then "*" else n) l.
Proof.
  intros Hnd Hstar. revert m.
  induction cards as [|c cards IH]; intros m; cbn [foldl existsb].
  - apply map_ext. intros n. by rewrite orb_false_r.
  - rewrite markFirst_marked, IH by done.
    apply map_ext. intros n. by rewrite orb_assoc.
Qed.

(** X11.  On cards whose names have a first word, [isRoyalFlush] says
    whether [isFlush] passes and each of the types Ten, Jack, Queen, King
    and Ace is the type of some card. *)
Theorem isRoyalFlush_wants_the_five_honours (cards : list Card) :
  Forall (fun c => worded (getCardName c)) cards ->
  exists b,
    isRoyalFlush cards = Ok b /\
    (b = true <->
     isFlush cards = true /\
     forall w, w ∈ ["Ten"; "Jack"; "Queen"; "King"; "Ace"] ->
               exists c, c ∈ cards /\ getType c = Ok w).
Proof.
  intros Hw. unfold isRoyalFlush.
  destruct (isFlush cards); cbn [negb]; [|exists false; split; [done|]].
  2: { split; [done|]. by intros [? _]. }
  rewrite (foldM_worded markFirst) by done. cbn [bind].
  eexists. split; [reflexivity|].
  change (drop 9 TYPES ++ ["Ace"])
    with (map (fun n => if (fun _ : string => false) n then "*" else n)
              ["Ten"; "Jack"; "Queen"; "King"; "Ace"]).
  rewrite mark_loop.
  2: { apply (bool_decide_unpack _). vm_compute. reflexivity. }
  2: { apply (bool_decide_unpack _). vm_compute. reflexivity. }
  cbn [orb]. rewrite forallb_forall.
  assert (forall w c, worded (getCardName c) ->
            String.eqb (wordOf c) w = true <-> getType c = Ok w) as Hword.
  { intros w c Hc. unfold worded in Hc. unfold wordOf, getType.
    destruct (Py.split0 (getCardName c)) as [v|]; [|done].
    rewrite String.eqb_eq. split; congruence. }
  split.
  - intros Hall. split; [done|]. intros w Hin.
    specialize (Hall (if existsb (fun c => String.eqb (wordOf c) w) cards
                      then "*" else w)).
    destruct (existsb _ cards) eqn:Eex.
    + apply existsb_exists in Eex as (c & Hc & Hcw).
      apply list_elem_of_In in Hc. exists c. split; [done|].
      apply Hword; [|done]. by eapply (proj1 (Forall_forall _ _) Hw).
    + exfalso. apply list_elem_of_In in Hin.
      assert (String.eqb "*" w = true) as E%String.eqb_eq.
      { apply Hall. apply in_map_iff. exists w. by rewrite Eex. }
      subst w. simpl in Hin. intuition discriminate.
  - intros [_ Hall] x Hx. apply in_map_iff in Hx as (w & <- & Hin).
    apply list_elem_of_In in Hin.
    destruct (Hall w Hin) as (c & Hc & Hcw).
    assert (existsb (fun c => String.eqb (wordOf c) w) cards = true) as ->.
    { apply existsb_exists. exists c. split; [by apply list_elem_of_In|].
      apply Hword; [|done]. by eapply (proj1 (Forall_forall _ _) Hw). }
    done.
Qed.

Lemma isRoyalFlush_wants_the_five_honours_witness :
  exists b,
    isRoyalFlush royalSpades = Ok b /\
    (b = true <->
     isFlush royalSpades = true /\
     forall w, w ∈ ["Ten"; "Jack"; "Queen"; "King"; "Ace"] ->
               exists c, c ∈ royalSpades /\ getType c = Ok w).
Proof.
  apply (isRoyalFlush_wants_the_five_honours royalSpades). repeat constructor.
Defined.

(** ** The straight, read off the ranks *)

Lemma word_is (name w a : string) (k : nat) :
  aList !! keyOf name = Some w -> aList !! k = Some a ->
  String.eqb w a = true <-> keyOf name = k.
Proof.
  intros Hw Ha. rewrite String.eqb_eq. split.
  - intros ->. apply indexInRanking_lookup in Hw, Ha. congruence.
  - intros <-. congruence.
Qed.

Lemma consecutiveFrom_spec (start i : nat) (rest : list string) :
  Forall typedName rest ->
  consecutiveFrom start i rest = Ok true
  <-> map keyOf rest = seq (start + i) (length rest).
Proof.
  intros Hall. revert i.
  induction Hall as [|n rest Hn _ IH]; intros i; [done|].
  destruct (typedName_key n Hn) as (w & Hw & Hk).
  cbn [consecutiveFrom map length seq]. rewrite Hw. cbn [bind].
  destruct (aList !! (start + i)) as [a|] eqn:Ea.
  - pose proof (word_is n w a (start + i) Hk Ea) as Hwa.
    destruct (String.eqb w a).
    + rewrite IH. replace (start + S i) with (S (start + i)) by lia.
      split; [intros ->; f_equal; by apply Hwa|by intros [= _ ->]].
    + split; [done|]. intros [= E _]. apply Hwa in E. done.
  - split; [done|]. intros [= E _].
    apply lookup_lt_Some in Hk. apply lookup_ge_None in Ea. lia.
Qed.

Lemma straightTail_spec (t : list string) :
  length t = 5 -> Forall typedName t ->
  straightTail t = Ok true
  <-> (exists k, map keyOf t = seq k 5) \/ map keyOf t = [0; 1; 2; 3; 12].
Proof.
  intros Hlen Hall.
  destruct t as [|n0 [|n1 [|n2 [|n3 [|n4 [|]]]]]]; try done.
  repeat match goal with
  | H : Forall _ (_ :: _) |- _ => apply Forall_cons in H as [? ?]
  end.
  destruct (typedName_key n4) as (w4 & Hw4 & Hk4); [done|].
  destruct (typedName_key n0) as (w0 & Hw0 & Hk0); [done|].
  pose proof (word_is n4 w4 "Ace" 12 Hk4 eq_refl) as Hace.
  pose proof (word_is n0 w0 "Two" 0 Hk0 eq_refl) as Htwo.
  apply indexInRanking_lookup in Hk0.
  set (t := [n0; n1; n2; n3; n4]).
  assert (wordAt 4 t = Ok w4) as E4 by exact Hw4.
  assert (wordAt 0 t = Ok w0) as E0 by exact Hw0.
  assert (wordAt 0 (delete 4 t) = Ok w0) as E0' by exact Hw0.
  pose proof (consecutiveFrom_spec (keyOf n0) 1 [n1; n2; n3; n4]) as Hfour.
  pose proof (consecutiveFrom_spec (keyOf n0) 1 [n1; n2; n3]) as Hthree.
  cbn [map length seq] in Hfour, Hthree.
  unfold straightTail. rewrite E4. cbn [bind]. rewrite E0.
  assert (forall k, map keyOf t = seq k 5 ->
            k = keyOf n0 /\
            [keyOf n1; keyOf n2; keyOf n3; keyOf n4]
            = [S k; S (S k); S (S (S k)); S (S (S (S k)))]) as Hseq.
  { intros k Hk. unfold t in Hk. cbn [map seq] in Hk.
    injection Hk as K0 K1 K2 K3 K4. by rewrite K0, K1, K2, K3, K4. }
  destruct (String.eqb w4 "Ace"); cbn [bind].
  - destruct (String.eqb w0 "Two"); cbn [bind].
    + rewrite E0'. cbn [bind]. rewrite Hk0.
      change (drop 1 (delete 4 t)) with [n1; n2; n3].
      rewrite Hthree by by repeat constructor.
      assert (keyOf n0 = 0) as E by by apply Htwo.
      assert (keyOf n4 = 12) as E' by by apply Hace.
      rewrite E. cbn [Nat.add]. split.
      * intros [= E1 E2 E3]. right. unfold t. cbn [map].
        by rewrite E, E', E1, E2, E3.
      * intros [[k Hk]|Hk].
        -- apply Hseq in Hk as [-> Hk]. rewrite E in Hk.
           injection Hk as _ _ _ Hk. lia.
        -- unfold t in Hk. cbn [map] in Hk.
           injection Hk as _ E1 E2 E3 _. by rewrite E1, E2, E3.
    + rewrite E0. cbn [bind]. rewrite Hk0.
      change (drop 1 t) with [n1; n2; n3; n4].
      rewrite Hfour by by repeat constructor.
      replace (keyOf n0 + 1) with (S (keyOf n0)) by lia. split.
      * intros Hk. left. exists (keyOf n0). unfold t. cbn [map seq].
        by rewrite Hk.
      * intros [[k Hk]|Hk].
        -- by apply Hseq in Hk as [-> ->].
        -- unfold t in Hk. cbn [map] in Hk. injection Hk as Hk _ _ _ _.
           apply Htwo in Hk. done.
  - rewrite E0. cbn [bind]. rewrite Hk0.
    change (drop 1 t) with [n1; n2; n3; n4].
    rewrite Hfour by by repeat constructor.
    replace (keyOf n0 + 1) with (S (keyOf n0)) by lia. split.
    + intros Hk. left. exists (keyOf n0). unfold t. cbn [map seq].
      by rewrite Hk.
    + intros [[k Hk]|Hk].
      * by apply Hseq in Hk as [-> ->].
      * unfold t in Hk. cbn [map] in Hk. injection Hk as _ _ _ _ Hk.
        apply Hace in Hk. done.
Qed.

Lemma StronglySorted_seq (k n : nat) : StronglySorted le (seq k n).
Proof.
  revert k. induction n as [|n IH]; intros k; simpl; constructor.
  - apply IH.
  - apply Forall_forall. intros x Hx%elem_of_seq. lia.
Qed.

(** X12.  On five cards with types of the deck, [isStraight] answers [True]
    exactly when the ranks of the cards are five ranks in a row, or are
    those of Two, Three, Four, Five and Ace, in whatever order the cards
    come. *)
Theorem isStraight_finds_the_straights (cards : list Card) :
  length cards = 5 ->
  Forall (fun c => typed c = true) cards ->
  isStraight cards = Ok true
  <-> (exists k, map rankOf cards ≡ₚ seq k 5)
      \/ map rankOf cards ≡ₚ [0; 1; 2; 3; 12].
Proof.
  intros Hlen Hall.
  assert (Forall typedName (map getCardName cards)) as Hn.
  { apply Forall_fmap. eapply Forall_impl; [exact Hall|].
    intros c Hc. by apply typed_typedName. }
  rewrite isStraight_tail, sortByRank_selectionSort;
    [|eapply Forall_impl; [exact Hn|apply typedName_worded]].
  cbn [bind]. rewrite length_fmap.
  set (t := selectionSort (length cards) (map getCardName cards)).
  assert (t ≡ₚ map getCardName cards) as Hperm by apply selectionSort_perm.
  assert (map keyOf t ≡ₚ map rankOf cards) as Hkeys.
  { rewrite Hperm. unfold rankOf. by rewrite <- list_fmap_compose. }
  assert (StronglySorted le (map keyOf t)) as Hsorted.
  { apply selectionSort_sorted. by rewrite length_fmap. }
  rewrite straightTail_spec;
    [|by rewrite Hperm, length_fmap|by rewrite Hperm].
  split.
  - intros [[k Hk]|Hk]; [left; exists k|right]; by rewrite <- Hkeys, Hk.
  - intros [[k Hk]|Hk]; [left; exists k|right].
    + apply (StronglySorted_unique le);
        [done|apply StronglySorted_seq|by rewrite Hkeys].
    + apply (StronglySorted_unique le); [done| |by rewrite Hkeys].
      repeat constructor; lia.
Qed.

Lemma isStraight_finds_the_straights_witness :
  isStraight (take 5 wheelHand) = Ok true
  <-> (exists k, map rankOf (take 5 wheelHand) ≡ₚ seq k 5)
      \/ map rankOf (take 5 wheelHand) ≡ₚ [0; 1; 2; 3; 12].
Proof.
  apply (isStraight_finds_the_straights (take 5 wheelHand)).
  - reflexivity.
  - repeat constructor.
Defined.

(** ** The flush on the cards of the deck *)

Lemma suits_as_isFlush_reads_them :
  Forall (fun c =>
            Forall (fun c' =>
                      readable c = true -> readable c' = true ->
                      suitRead c = suitRead c' <-> getSuit c = getSuit c')
                   oneDeck)
         oneDeck.
Proof. apply (bool_decide_unpack _). vm_compute. reflexivity. Qed.

(** X13.  All cards of the deck but the Six and the Seven of Clubs, of
    Diamonds and of Hearts are read by every test as the cards they are,
    and on such cards [isFlush] answers [True] exactly when all of them have
    the suit that [getSuit] gives. *)
Theorem isFlush_compares_the_suits (cards : list Card) :
  Forall (fun c => c ∈ oneDeck /\ readable c = true) cards ->
  (isFlush cards = true
   <-> forall c c', c ∈ cards -> c' ∈ cards -> getSuit c = getSuit c') /\
  filter (fun c => readable c = false) oneDeck
  = [mkCard "Six of Clubs"; mkCard "Six of Diamonds"; mkCard "Six of Hearts";
     mkCard "Seven of Clubs"; mkCard "Seven of Diamonds";
     mkCard "Seven of Hearts"].
Proof.
  intros Hall. split; [|vm_compute; reflexivity].
  assert (forall c c', c ∈ cards -> c' ∈ cards ->
            suitRead c = suitRead c' <-> getSuit c = getSuit c') as Hsuit.
  { intros c c' Hc Hc'. rewrite Forall_forall in Hall.
    destruct (Hall c Hc) as [Hd Hr], (Hall c' Hc') as [Hd' Hr'].
    pose proof suits_as_isFlush_reads_them as Htable.
    rewrite Forall_forall in Htable. specialize (Htable c Hd).
    rewrite Forall_forall in Htable. by apply Htable. }
  rewrite isFlush_allSame, allSame_spec.
  2: { eapply Forall_impl; [exact Hall|]. intros c [_ Hr].
       unfold readable in Hr. by apply andb_prop in Hr as [_ ?]. }
  split.
  - intros Hsame c c' Hc Hc'. apply Hsuit; [done..|].
    apply Hsame; apply list_elem_of_fmap; eauto.
  - intros Hsame x y (c & -> & Hc)%list_elem_of_fmap
                     (c' & -> & Hc')%list_elem_of_fmap.
    apply Hsuit; [done..|]. by apply Hsame.
Qed.

Lemma isFlush_compares_the_suits_witness :
  (isFlush royalSpades = true
   <-> forall c c', c ∈ royalSpades -> c' ∈ royalSpades ->
                    getSuit c = getSuit c') /\
  filter (fun c => readable c = false) oneDeck
  = [mkCard "Six of Clubs"; mkCard "Six of Diamonds"; mkCard "Six of Hearts";
     mkCard "Seven of Clubs"; mkCard "Seven of Diamonds";
     mkCard "Seven of Hearts"].
Proof.
  apply (isFlush_compares_the_suits royalSpades).
  apply (bool_decide_unpack _). vm_compute. reflexivity.
Defined.

(** ** The high card *)

Lemma deck_cards_are_typed : Forall (fun c => typed c = true) oneDeck.
Proof. apply (bool_decide_unpack _). vm_compute. reflexivity. Qed.

(** On the names of the deck the substring test of [getHighCard] finds a
    type in a name exactly when it is the first word of the name. *)
Lemma contains_type_of_deck_card :
  Forall (fun c =>
            Forall (fun ranking =>
                      Py.contains ranking (getCardName c)
                      = String.eqb ranking (wordOf c))
                   aList)
         oneDeck.
Proof. apply (bool_decide_unpack _). vm_compute. reflexivity. Qed.

Lemma find_ext_in {A} (f g : A -> bool) (l : list A) :
  (forall x, x ∈ l -> f x = g x) -> find f l = find g l.
Proof.
  induction l as [|x l IH]; intros Hfg; [done|].
  simpl. rewrite (Hfg x) by apply list_elem_of_here.
  rewrite IH; [done|]. intros y Hy. apply Hfg. by apply list_elem_of_further.
Qed.

Lemma find_rev_last {A} (f : A -> bool) (l : list A) :
  match find f (rev l) with
  | Some r =>
      f r = true /\
      exists i, l !! i = Some r /\
                forall j r', l !! j = Some r' -> f r' = true -> j <= i
  | None => forall r, r ∈ l -> f r = false
  end.
Proof.
  induction l as [|x l IH] using rev_ind.
  - simpl. by intros r ?%elem_of_nil.
  - rewrite rev_app_distr. simpl. destruct (f x) eqn:Ex.
    + split; [done|]. exists (length l). split.
      * by rewrite list_lookup_middle.
      * intros j r' Hj _. apply lookup_lt_Some in Hj.
        rewrite length_app in Hj. simpl in Hj. lia.
    + destruct (find f (rev l)) as [r|].
      * destruct IH as (Hr & i & Hi & Hmax). split; [done|].
        exists i. split; [by apply lookup_app_l_Some|].
        intros j r' Hj Hr'.
        destruct (decide (j < length l)) as [Hlt|Hge].
        -- rewrite lookup_app_l in Hj by done. by eapply Hmax.
        -- rewrite lookup_app_r in Hj by lia.
           destruct (j - length l) as [|n]; simpl in Hj; [|done].
           injection Hj as <-. congruence.
      * intros r [Hr| ->%list_elem_of_singleton]%elem_of_app; [by apply IH|done].
Qed.

Lemma rankOf_lookup (c : Card) :
  typed c = true -> aList !! rankOf c = Some (wordOf c).
Proof.
  intros Ht. destruct (typedName_key _ (typed_typedName c Ht)) as (w & Hw & Hk).
  unfold rankOf. rewrite Hk. f_equal. unfold wordOf, getType. by rewrite Hw.
Qed.

Lemma existsb_contains (cards : list Card) (ranking : string) :
  Forall (fun c => c ∈ oneDeck) cards -> ranking ∈ aList ->
  existsb (fun card => Py.contains ranking (getCardName card)) cards
  = existsb (fun c => String.eqb ranking (wordOf c)) cards.
Proof.
  intros Hdeck Hr. induction Hdeck as [|c cards Hc _ IH]; [done|].
  simpl. rewrite IH. f_equal.
  pose proof contains_type_of_deck_card as Htable.
  rewrite Forall_forall in Htable. specialize (Htable c Hc).
  rewrite Forall_forall in Htable. by apply Htable.
Qed.

(** X14.  For cards of the deck, [getHighCard] returns the type of a card
    that no other card of the list outranks, with the ace highest; for the
    empty list it returns [None]. *)
Theorem getHighCard_names_the_highest (cards : list Card) :
  cards <> [] ->
  Forall (fun c => c ∈ oneDeck) cards ->
  (exists c,
     c ∈ cards /\ getHighCard cards = Some (wordOf c) /\
     getType c = Ok (wordOf c) /\
     forall c', c' ∈ cards -> rankOf c' <= rankOf c) /\
  getHighCard [] = None.
Proof.
  intros Hne Hdeck. split; [|done].
  assert (Forall (fun c => typed c = true) cards) as Htyped.
  { eapply Forall_impl; [exact Hdeck|]. intros c Hc.
    by apply (proj1 (Forall_forall _ _) deck_cards_are_typed). }
  rewrite Forall_forall in Htyped.
  unfold getHighCard.
  rewrite (find_ext_in _ (fun ranking =>
                            existsb (fun c => String.eqb ranking (wordOf c))
                                    cards)).
  2: { intros ranking Hr. apply existsb_contains; [done|].
       apply list_elem_of_In, in_rev. by apply list_elem_of_In. }
  pose proof (find_rev_last
                (fun ranking =>
                   existsb (fun c => String.eqb ranking (wordOf c)) cards)
                aList) as Hfind.
  destruct (find _ (rev aList)) as [r|].
  - destruct Hfind as (Hr & i & Hi & Hmax).
    apply existsb_exists in Hr as (c & Hc%list_elem_of_In & ->%String.eqb_eq).
    exists c. split; [done|]. split; [done|]. split.
    + by apply typed_word, Htyped.
    + intros c' Hc'.
      apply indexInRanking_lookup in Hi as Hic.
      pose proof (rankOf_lookup c (Htyped c Hc)) as Hkc.
      apply indexInRanking_lookup in Hkc. rewrite <- Hkc, Hic.
      apply (Hmax _ (wordOf c')); [by apply rankOf_lookup, Htyped|].
      apply existsb_exists. exists c'.
      split; [by apply list_elem_of_In|apply String.eqb_refl].
  - destruct cards as [|c cards]; [done|]. exfalso.
    assert (c ∈ c :: cards) as Hc by apply list_elem_of_here.
    specialize (Hfind (wordOf c) (typed_aList c (Htyped c Hc))).
    simpl in Hfind. by rewrite String.eqb_refl in Hfind.
Qed.

Lemma getHighCard_names_the_highest_witness :
  (exists c,
     c ∈ twosAndNines /\ getHighCard twosAndNines = Some (wordOf c) /\
     getType c = Ok (wordOf c) /\
     forall c', c' ∈ twosAndNines -> rankOf c' <= rankOf c) /\
  getHighCard [] = None.
Proof.
  apply (getHighCard_names_the_highest twosAndNines).
  - discriminate.
  - apply (bool_decide_unpack _). vm_compute. reflexivity.
Defined.

(** ** The answers of [checkHand] *)

Lemma firstCategory_name (tests : list ((list Card -> result bool) * string))
  (hands : list (list Card)) (name : string) :
  firstCategory tests hands = Ok (Some name) -> name ∈ map snd tests.
Proof.
  induction tests as [|[test n] tests IH]; [done|].
  simpl. intros H. apply bind_Ok in H as (found & _ & H).
  destruct found.
  - injection H as <-. apply list_elem_of_here.
  - apply list_elem_of_further. by apply IH.
Qed.

Lemma getHighCard_type (cards : list Card) (w : string) :
  getHighCard cards = Some w -> w ∈ aList.
Proof.
  unfold getHighCard. intros [H _]%find_some.
  by apply list_elem_of_In, in_rev.
Qed.

(** X15.  What [checkHand] returns is either one of the first nine names of
    [_CARD_HANDS], which [determineWinner] scores from 0 to 8, or what
    [getHighCard] says of the player's two cards, a card type or [None],
    which [determineWinner] scores -1.  The tenth name, "No Pair", is never
    returned. *)
Theorem checkHand_answers (cards : list Card) (r : option string) :
  checkHandCards cards = Ok r ->
  ((exists name,
      r = Some name /\ name ∈ take 9 CARD_HANDS /\
      (0 <= handScore r <= 8)%Z)
   \/ (r = getHighCard (drop 5 cards) /\ handScore r = (-1)%Z /\
       forall w, r = Some w -> w ∈ aList))
  /\ r <> Some "No Pair".
Proof.
  intros H. unfold checkHandCards in H.
  apply bind_Ok in H as (found & Hfound & H).
  destruct found as [name|].
  - injection H as <-. apply firstCategory_name in Hfound.
    change (map snd (zip functions CARD_HANDS)) with (take 9 CARD_HANDS)
      in Hfound.
    split.
    + left. exists name. split; [done|]. split; [done|].
      unfold CARD_HANDS in Hfound. cbn [take] in Hfound.
      decompose_list_elem_of; subst; vm_compute; split; discriminate.
    + intros [= ->]. unfold CARD_HANDS in Hfound. cbn [take] in Hfound.
      decompose_list_elem_of; discriminate.
  - injection H as <-. split.
    + right. split; [done|]. split; [apply handScore_getHighCard|].
      intros w. apply getHighCard_type.
    + intros Hw%getHighCard_type. unfold aList, TYPES in Hw.
      cbn [drop app] in Hw. decompose_list_elem_of; discriminate.
Qed.

Lemma checkHand_answers_witness :
  ((exists name,
      Some "Straight" = Some name /\ name ∈ take 9 CARD_HANDS /\
      (0 <= handScore (Some "Straight") <= 8)%Z)
   \/ (Some "Straight" = getHighCard (drop 5 wheelHand) /\
       handScore (Some "Straight") = (-1)%Z /\
       forall w, Some "Straight" = Some w -> w ∈ aList))
  /\ Some "Straight" <> Some "No Pair".
Proof.
  apply (checkHand_answers wheelHand). vm_compute. reflexivity.
Defined.

(** ** The hands [checkHand] tries *)

(** X16.  For seven cards the loops of [checkHand] over [j] and [k] build
    42 hands, each of five of the seven cards; and every choice of five of
    the seven cards is among them, up to the order of its cards. *)
Theorem checkHand_tries_every_five_of_seven (cards : list Card) :
  length cards = 7 ->
  length (fiveCardHands cards) = 42 /\
  (forall h, h ∈ fiveCardHands cards -> length h = 5 /\ h ⊆+ cards) /\
  (forall h, length h = 5 -> h ⊆+ cards ->
             exists h', h' ∈ fiveCardHands cards /\ h' ≡ₚ h).
Proof.
  intros Hlen. split; [|split].
  - destruct cards as [|c0 [|c1 [|c2 [|c3 [|c4 [|c5 [|c6 [|]]]]]]]];
      try done.
  - intros h Hh. destruct (fiveCardHands_sub cards h Hlen Hh). done.
  - intros h Hh Hsub.
    pose proof (fiveCardHands_all cards h Hlen Hh Hsub) as Hex.
    apply Exists_exists in Hex as (h' & Hin & Hperm). by exists h'.
Qed.

Lemma checkHand_tries_every_five_of_seven_witness :
  length (fiveCardHands wheelHand) = 42 /\
  (forall h, h ∈ fiveCardHands wheelHand -> length h = 5 /\ h ⊆+ wheelHand) /\
  (forall h, length h = 5 -> h ⊆+ wheelHand ->
             exists h', h' ∈ fiveCardHands wheelHand /\ h' ≡ₚ h).
Proof.
  apply (checkHand_tries_every_five_of_seven wheelHand). reflexivity.
Defined.

(** * More about the game *)

(** ** Dealing *)

Lemma drawCard_spec (g : Game) (c : Card) (g' : Game) :
  drawCard g = Ok (c, g') ->
  exists rest,
    cardsInDeck (cardDeck g) = rest ++ [c] /\
    g' = set_cardDeck (mkDeck rest (cardsOutOfDeck (cardDeck g) ++ [c])
                              (deckMultiple (cardDeck g))) g.
Proof.
  unfold drawCard, getCardFromDeck.
  destruct (Py.pop (cardsInDeck (cardDeck g))) as [[c' rest]|] eqn:E;
    simpl; [|done].
  intros [= <- <-]. exists rest. split; [by apply pop_Some|done].
Qed.

Lemma drawCard_total (g : Game) :
  cardsInDeck (cardDeck g) <> [] -> exists c g', drawCard g = Ok (c, g').
Proof.
  intros Hne. unfold drawCard, getCardFromDeck.
  destruct (Py.pop (cardsInDeck (cardDeck g))) as [[c rest]|] eqn:E; simpl.
  - by eexists _, _.
  - by apply pop_None in E.
Qed.

Lemma oneDeck_NoDup : NoDup oneDeck.
Proof. apply (bool_decide_unpack _). vm_compute. reflexivity. Qed.

(** While fewer than 52 cards are out, a card is left in the deck. *)
Lemma deck_not_empty (d : Deck) :
  allCards d ≡ₚ oneDeck -> length (cardsOutOfDeck d) < 52 ->
  cardsInDeck d <> [].
Proof.
  intros Hperm Hout Hin. apply Permutation_length in Hperm.
  unfold allCards in Hperm. rewrite Hin, oneDeck_length in Hperm.
  simpl in Hperm. lia.
Qed.

Lemma displayCardAt_dealt (i : nat) (g : Game) :
  i < 5 -> dealtUpTo i g ->
  exists g',
    displayCardAt i g = Ok g' /\ dealtUpTo (S i) g' /\
    cardsInDisplay g' = cardsInDisplay g.
Proof.
  intros Hi (Hperm & Hout & Hlen).
  destruct (drawCard_total g) as (c & g1 & Hdraw).
  { apply deck_not_empty; [done|]. rewrite Hout, length_app, length_take.
    simpl. lia. }
  unfold displayCardAt. rewrite Hdraw. cbn [bind fst snd].
  apply drawCard_spec in Hdraw as (rest & Hin & ->).
  unfold setItem. cbn [displayCards set_cardDeck].
  assert ((i <? length (displayCards g)) = true) as -> by (apply Nat.ltb_lt; lia).
  cbn [bind]. eexists. split; [reflexivity|]. split; [|done].
  unfold dealtUpTo, allCards, holeCards in *. simpl.
  split; [|split].
  - rewrite <- Hperm, Hin. solve_Permutation.
  - rewrite Hout, <- app_assoc. f_equal.
    rewrite (take_S_r _ _ c) by (apply list_lookup_insert_eq; lia).
    by rewrite take_insert_ge.
  - by rewrite length_insert.
Qed.

Lemma dealtUpTo_set_currentWager (i : nat) (v : Q) (g : Game) :
  dealtUpTo i (set_currentWager v g) <-> dealtUpTo i g.
Proof. done. Qed.

Lemma displayFlop_dealt (g : Game) :
  dealtUpTo 0 g ->
  exists g', __displayFlop g = Ok g' /\ dealtUpTo 3 g' /\ cardsInDisplay g' = 3.
Proof.
  intros H0. unfold __displayFlop.
  apply (dealtUpTo_set_currentWager 0 MINIMUM_BET_WAGE) in H0.
  destruct (displayCardAt_dealt 0 _ ltac:(lia) H0) as (g1 & E1 & H1 & _).
  destruct (displayCardAt_dealt 1 _ ltac:(lia) H1) as (g2 & E2 & H2 & _).
  destruct (displayCardAt_dealt 2 _ ltac:(lia) H2) as (g3 & E3 & H3 & _).
  cbn [seq foldM]. rewrite E1. cbn [bind]. rewrite E2. cbn [bind].
  rewrite E3. cbn [bind]. by eexists.
Qed.

Lemma displayFourthCard_dealt (g : Game) :
  dealtUpTo 3 g ->
  exists g',
    __displayFourthCard g = Ok g' /\ dealtUpTo 4 g' /\ cardsInDisplay g' = 4.
Proof.
  intros H3. unfold __displayFourthCard.
  apply (dealtUpTo_set_currentWager 3 MINIMUM_BET_WAGE) in H3.
  destruct (displayCardAt_dealt 3 _ ltac:(lia) H3) as (g1 & E1 & H1 & _).
  rewrite E1. cbn [bind]. by eexists.
Qed.

Lemma displayLastCard_dealt (g : Game) :
  dealtUpTo 4 g ->
  exists g',
    __displayLastCard g = Ok g' /\ dealtUpTo 5 g' /\ cardsInDisplay g' = 5.
Proof.
  intros H4. unfold __displayLastCard.
  apply (dealtUpTo_set_currentWager 4 MINIMUM_BET_WAGE) in H4.
  destruct (displayCardAt_dealt 4 _ ltac:(lia) H4) as (g1 & E1 & H1 & _).
  rewrite E1. cbn [bind]. by eexists.
Qed.

Lemma dealt_cases (g : Game) :
  dealt g ->
  (cardsInDisplay g = 0 /\ dealtUpTo 0 g) \/
  (cardsInDisplay g = 3 /\ dealtUpTo 3 g) \/
  (cardsInDisplay g = 4 /\ dealtUpTo 4 g) \/
  (cardsInDisplay g = 5 /\ dealtUpTo 5 g).
Proof.
  intros [Hd Hc]. decompose_list_elem_of; rewrite H in Hd; rewrite H; tauto.
Qed.

(** With the deal in order, [__displayNextCardSet] returns, the deal stays
    in order, and the wager is back at the minimum unless all five cards
    were shown already. *)
Lemma displayNextCardSet_dealt (g : Game) :
  dealt g ->
  exists g',
    __displayNextCardSet g = Ok g' /\ dealt g' /\
    (cardsInDisplay g < 5 ->
     cardsInDisplay g < cardsInDisplay g' /\
     offTable g' = offTable (set_currentWager MINIMUM_BET_WAGE g)) /\
    (cardsInDisplay g = 5 -> g' = g).
Proof.
  intros Hd. unfold __displayNextCardSet.
  destruct (dealt_cases g Hd) as [[E H]|[[E H]|[[E H]|[E H]]]]; rewrite E;
    cbn [Nat.eqb].
  - destruct (displayFlop_dealt g H) as (g' & Ef & Hf & Ec).
    exists g'. split; [done|]. split; [|split; [|lia]].
    + split; rewrite Ec; [done|]. repeat constructor.
    + intros _. split; [lia|by apply displayFlop_offTable].
  - destruct (displayFourthCard_dealt g H) as (g' & Ef & Hf & Ec).
    exists g'. split; [done|]. split; [|split; [|lia]].
    + split; rewrite Ec; [done|]. repeat constructor.
    + intros _. split; [lia|by apply displayFourthCard_offTable].
  - destruct (displayLastCard_dealt g H) as (g' & Ef & Hf & Ec).
    exists g'. split; [done|]. split; [|split; [|lia]].
    + split; rewrite Ec; [done|]. repeat constructor.
    + intros _. split; [lia|by apply displayLastCard_offTable].
  - exists g. split; [done|]. split; [done|]. split; [lia|done].
Qed.

(** ** What the evaluator can raise *)

Lemma raisesOnly_Ok {A} (allowed : list exn) (a : A) :
  raisesOnly allowed (Ok a).
Proof. intros e. discriminate. Qed.

Lemma raisesOnly_bind {A B} (allowed : list exn) (m : result A)
  (f : A -> result B) :
  raisesOnly allowed m -> (forall a, m = Ok a -> raisesOnly allowed (f a)) ->
  raisesOnly allowed (bind m f).
Proof.
  intros Hm Hf e. destruct m as [a|e']; simpl.
  - by apply Hf.
  - intros [= <-]. by apply Hm.
Qed.

Lemma raisesOnly_foldM {A B} (allowed : list exn) (f : B -> A -> result B)
  (b : B) (l : list A) :
  (forall b x, raisesOnly allowed (f b x)) -> raisesOnly allowed (foldM f b l).
Proof.
  intros Hf. revert b. induction l as [|x l IH]; intros b; simpl.
  - apply raisesOnly_Ok.
  - apply raisesOnly_bind; [apply Hf|]. intros b' _. apply IH.
Qed.

Lemma split0_raises (s : string) : raisesOnly [IndexError] (Py.split0 s).
Proof.
  intros e. unfold Py.split0. destruct (Py.takeWord _); [|done].
  intros [= <-]. apply list_elem_of_here.
Qed.

Lemma IndexError_raises {A} : raisesOnly [IndexError] (@Raise A IndexError).
Proof. intros e [= <-]. apply list_elem_of_here. Qed.

Lemma isStraight_raises (cards : list Card) :
  raisesOnly [IndexError] (isStraight cards).
Proof.
  assert (forall i t, raisesOnly [IndexError] (wordAt i t)) as HwordAt.
  { intros i t. unfold wordAt. destruct (t !! i); [apply split0_raises|].
    apply IndexError_raises. }
  unfold isStraight. apply raisesOnly_bind.
  { unfold sortByRank. apply raisesOnly_foldM. intros t i.
    apply raisesOnly_foldM. intros t' j. unfold swapIfGreater.
    destruct (t' !! i); [|apply IndexError_raises].
    destruct (t' !! j); [|apply IndexError_raises].
    unfold rankValue.
    repeat (apply raisesOnly_bind;
            [apply raisesOnly_bind; [apply split0_raises|];
             intros; apply raisesOnly_Ok|intros]).
    apply raisesOnly_Ok. }
  intros temp _. apply raisesOnly_bind; [apply HwordAt|]. intros w4 _.
  apply raisesOnly_bind.
  { destruct (String.eqb w4 "Ace"); [|apply raisesOnly_Ok].
    apply raisesOnly_bind; [apply HwordAt|]. intros; apply raisesOnly_Ok. }
  intros wheel _. apply raisesOnly_bind; [apply HwordAt|]. intros w0 _.
  generalize (indexInRanking w0) 1 (drop 1 (if wheel then delete 4 temp else temp)).
  intros start i rest. revert i.
  induction rest as [|name rest IH]; intros i; simpl.
  - apply raisesOnly_Ok.
  - apply raisesOnly_bind; [apply split0_raises|]. intros word _.
    destruct (aList !! (start + i)); [|apply IndexError_raises].
    destruct (String.eqb word _); [apply IH|apply raisesOnly_Ok].
Qed.

Lemma countOccurrences_raisesOnly (cards : list Card) :
  raisesOnly [IndexError] (countOccurrences cards).
Proof.
  unfold countOccurrences. apply raisesOnly_foldM. intros occ name.
  apply raisesOnly_bind; [apply split0_raises|]. intros; apply raisesOnly_Ok.
Qed.

Lemma isXofAKind_raises (cards : list Card) (X : Z) :
  (0 <= X <= 4)%Z -> raisesOnly [IndexError] (isXofAKind cards X).
Proof.
  intros HX. unfold isXofAKind.
  assert (((X <? 0) || (4 <? X))%Z = false) as -> by lia.
  apply raisesOnly_bind; [apply countOccurrences_raisesOnly|].
  intros; apply raisesOnly_Ok.
Qed.

Lemma functions_raise :
  Forall (fun test : list Card -> result bool =>
            forall h, raisesOnly [IndexError] (test h))
         functions.
Proof.
  unfold functions.
  repeat (apply Forall_cons; split); [intros h..|done].
  - unfold isRoyalFlush. destruct (negb _); [apply raisesOnly_Ok|].
    apply raisesOnly_bind; [|intros; apply raisesOnly_Ok].
    apply raisesOnly_foldM. intros needed value.
    apply raisesOnly_bind; [apply split0_raises|]. intros; apply raisesOnly_Ok.
  - unfold isStraightFlush.
    destruct (isFlush h); [apply isStraight_raises|apply raisesOnly_Ok].
  - apply isXofAKind_raises. lia.
  - unfold isFullHouse. apply raisesOnly_bind; [apply isXofAKind_raises; lia|].
    intros [|] _; [apply isXofAKind_raises; lia|apply raisesOnly_Ok].
  - apply raisesOnly_Ok.
  - apply isStraight_raises.
  - apply isXofAKind_raises. lia.
  - unfold isTwoPairs.
    apply raisesOnly_bind; [apply countOccurrences_raisesOnly|].
    intros; apply raisesOnly_Ok.
  - apply isXofAKind_raises. lia.
Qed.

Lemma checkHand_raises (userHand : bool) (g : Game) :
  raisesOnly [IndexError] (checkHand userHand g).
Proof.
  unfold checkHand, checkHandCards.
  apply raisesOnly_bind;
    [|intros [name|] _; apply raisesOnly_Ok].
  generalize (fiveCardHands
                (displayCards g ++
                 (if userHand then [userCard1 g; userCard2 g]
                  else [computerCard1 g; computerCard2 g]))).
  intros hands.
  assert (Forall (fun t : (list Card -> result bool) * string =>
                    forall h, raisesOnly [IndexError] (t.1 h))
                 (zip functions CARD_HANDS)) as Htests.
  { generalize CARD_HANDS as names.
    induction functions_raise as [|test tests Htest _ IH]; intros names.
    - constructor.
    - destruct names as [|name names]; constructor; [done|apply IH]. }
  induction Htests as [|[test name] tests Htest _ IH]; simpl.
  - apply raisesOnly_Ok.
  - apply raisesOnly_bind.
    + clear IH. induction hands as [|h hands IHh]; simpl.
      * apply raisesOnly_Ok.
      * apply raisesOnly_bind; [apply Htest|].
        intros [|] _; [apply raisesOnly_Ok|apply IHh].
    + intros [|] _; [apply raisesOnly_Ok|apply IH].
Qed.

(** ** Whole bets *)

Global Instance multipleOf20_proper : Proper (Qeq ==> iff) multipleOf20.
Proof.
  intros x y Hxy. unfold multipleOf20. by setoid_rewrite Hxy.
Qed.

Lemma multipleOf20_Z (z : Z) : multipleOf20 (inject_Z (20 * z)).
Proof. by exists z. Qed.

Lemma multipleOf20_plus (x y : Q) :
  multipleOf20 x -> multipleOf20 y -> multipleOf20 (x + y).
Proof.
  intros [a Ha] [b Hb]. exists (a + b)%Z. rewrite Ha, Hb.
  rewrite <- inject_Z_plus. f_equiv. lia.
Qed.

Lemma multipleOf20_minus (x y : Q) :
  multipleOf20 x -> multipleOf20 y -> multipleOf20 (x - y).
Proof.
  intros [a Ha] [b Hb]. exists (a - b)%Z. rewrite Ha, Hb.
  unfold Qminus. rewrite <- inject_Z_opp, <- inject_Z_plus. f_equiv. lia.
Qed.

Lemma multipleOf20_double (x : Q) : multipleOf20 x -> multipleOf20 (2 * x).
Proof.
  intros Hx. assert (2 * x == x + x)%Q as -> by ring.
  by apply multipleOf20_plus.
Qed.

Lemma multipleOf20_20 : multipleOf20 20.
Proof. by exists 1%Z. Qed.

Lemma multipleOf20_40 : multipleOf20 40.
Proof. by exists 2%Z. Qed.

Lemma multipleOf20_0 : multipleOf20 0.
Proof. by exists 0%Z. Qed.

Lemma multipleOf20_START_BALANCE : multipleOf20 START_BALANCE.
Proof. by exists 25%Z. Qed.

(** ** The invariant, one function at a time *)

Lemma raisesOnly_weaken {A} (r : result A) :
  raisesOnly [IndexError] r -> raisesOnly [PygameQuit; IndexError] r.
Proof.
  intros H e He. apply H in He. apply list_elem_of_singleton in He as ->.
  apply list_elem_of_further, list_elem_of_here.
Qed.

Lemma showRest_dealt (g : Game) :
  dealt g ->
  exists g',
    showRest g = Ok g' /\ dealt g' /\ cardsInDisplay g' = 5 /\
    (currentWager g = MINIMUM_BET_WAGE -> offTable g' = offTable g).
Proof.
  intros Hd. unfold showRest.
  assert (forall g, dealtUpTo 5 g -> cardsInDisplay g = 5 -> dealt g) as H5.
  { intros g0 H0 E0. split; rewrite E0; [done|]. repeat constructor. }
  destruct (dealt_cases g Hd) as [[E H]|[[E H]|[[E H]|[E H]]]].
  - destruct (displayFlop_dealt g H) as (g1 & E1 & H1 & C1).
    destruct (displayFourthCard_dealt g1 H1) as (g2 & E2 & H2 & C2).
    destruct (displayLastCard_dealt g2 H2) as (g3 & E3 & H3 & C3).
    rewrite E. cbn [Nat.eqb]. rewrite E1. cbn [bind]. rewrite C1.
    cbn [Nat.eqb]. rewrite E2. cbn [bind]. rewrite C2. cbn [Nat.eqb].
    rewrite E3.
    exists g3. split; [done|]. split; [by apply H5|]. split; [done|].
    intros Hw.
    apply displayFlop_offTable in E1. apply displayFourthCard_offTable in E2.
    apply displayLastCard_offTable in E3.
    rewrite set_currentWager_same in E1 by done.
    rewrite set_currentWager_same in E2
      by by rewrite (offTable_currentWager _ _ E1).
    rewrite set_currentWager_same in E3
      by by rewrite (offTable_currentWager _ _ E2),
              (offTable_currentWager _ _ E1).
    congruence.
  - destruct (displayFourthCard_dealt g H) as (g2 & E2 & H2 & C2).
    destruct (displayLastCard_dealt g2 H2) as (g3 & E3 & H3 & C3).
    rewrite E. cbn [Nat.eqb bind]. rewrite E. cbn [Nat.eqb]. rewrite E2.
    cbn [bind]. rewrite C2. cbn [Nat.eqb]. rewrite E3.
    exists g3. split; [done|]. split; [by apply H5|]. split; [done|].
    intros Hw.
    apply displayFourthCard_offTable in E2.
    apply displayLastCard_offTable in E3.
    rewrite set_currentWager_same in E2 by done.
    rewrite set_currentWager_same in E3
      by by rewrite (offTable_currentWager _ _ E2).
    congruence.
  - destruct (displayLastCard_dealt g H) as (g3 & E3 & H3 & C3).
    rewrite E. cbn [Nat.eqb bind]. rewrite E. cbn [Nat.eqb bind].
    rewrite E. cbn [Nat.eqb]. rewrite E3.
    exists g3. split; [done|]. split; [by apply H5|]. split; [done|].
    intros Hw. apply displayLastCard_offTable in E3.
    by rewrite set_currentWager_same in E3.
  - exists g. rewrite E. cbn [Nat.eqb bind]. rewrite E. cbn [Nat.eqb bind].
    by rewrite E.
Qed.

Lemma fold_showRest (g : Game) :
  __fold g
  = let! uh := checkHand true (folded g) in
    let! ch := checkHand false (set_userHand uh (folded g)) in
    showRest (set_computerHand ch (set_userHand uh (folded g))).
Proof. unfold __fold, showRest, folded. reflexivity. Qed.

Lemma dealt_folded (g : Game) (uh ch : option string) :
  dealt g -> dealt (set_computerHand ch (set_userHand uh (folded g))).
Proof. intros H. exact H. Qed.

Lemma fold_dealt (g : Game) :
  dealt g ->
  raisesOnly [IndexError] (__fold g) /\
  forall g', __fold g = Ok g' -> dealt g' /\ cardsInDisplay g' = 5.
Proof.
  intros Hd. rewrite fold_showRest. split.
  - apply raisesOnly_bind; [apply checkHand_raises|]. intros uh _.
    apply raisesOnly_bind; [apply checkHand_raises|]. intros ch _.
    destruct (showRest_dealt _ (dealt_folded g uh ch Hd)) as (g' & -> & _).
    apply raisesOnly_Ok.
  - intros g' H.
    apply bind_Ok in H as (uh & _ & H). apply bind_Ok in H as (ch & _ & H).
    destruct (showRest_dealt _ (dealt_folded g uh ch Hd))
      as (g'' & E & Hd' & Hc & _).
    rewrite E in H. injection H as <-. done.
Qed.

Lemma moneyInv_wager (g : Game) : moneyInv g -> multipleOf20 (currentWager g).
Proof.
  intros ([E|E] & _); rewrite E;
    [apply multipleOf20_20|apply multipleOf20_40].
Qed.

Lemma fold_inv (g : Game) :
  dealt g -> moneyInv g ->
  raisesOnly [IndexError] (__fold g) /\
  forall g', __fold g = Ok g' -> gameInv g'.
Proof.
  intros Hd Hm. destruct (fold_dealt g Hd) as [Hraise Hok].
  split; [done|]. intros g' H. destruct (Hok g' H) as [Hd' Hc].
  apply fold_Ok in H as (Eu & Ec & Ep & Ew & Er & Ee & _).
  destruct Hm as (_ & Hpot & Hu & Hcm & Hr & _).
  split; [done|]. unfold wagerInv, moneyInv.
  rewrite Eu, Ec, Ep, Ew, Er, Ee, Hc. unfold MINIMUM_BET_WAGE.
  repeat split; try done.
  - by left.
  - apply multipleOf20_plus; [done|]. rewrite Hpot.
    by apply multipleOf20_double.
  - apply multipleOf20_0.
Qed.

Lemma highCardScore_deck :
  Forall (fun c =>
            Forall (fun c' => isOk (highCardScore [c; c']) = true) oneDeck)
         oneDeck.
Proof. apply (bool_decide_unpack _). vm_compute. reflexivity. Qed.

Lemma dealt_holeCards (g : Game) :
  dealt g -> Forall (fun c => c ∈ oneDeck) (holeCards g).
Proof.
  intros [(Hperm & Hout & _) _]. apply Forall_forall. intros c Hc.
  rewrite <- Hperm. unfold allCards. rewrite Hout.
  apply elem_of_app. right. apply elem_of_app. by left.
Qed.

Lemma determineWinner_total (g : Game) :
  dealt g -> exists g', determineWinner g = Ok g'.
Proof.
  intros Hd. apply dealt_holeCards in Hd. unfold holeCards in Hd.
  apply Forall_cons in Hd as [H1 Hd]. apply Forall_cons in Hd as [H2 Hd].
  apply Forall_cons in Hd as [H3 Hd]. apply Forall_cons in Hd as [H4 _].
  pose proof highCardScore_deck as Htable. rewrite Forall_forall in Htable.
  pose proof (Htable _ H1) as Hu. rewrite Forall_forall in Hu.
  specialize (Hu _ H2).
  pose proof (Htable _ H3) as Hc. rewrite Forall_forall in Hc.
  specialize (Hc _ H4).
  unfold determineWinner.
  destruct (highCardScore [userCard1 g; userCard2 g]); [|done].
  destruct (highCardScore [computerCard1 g; computerCard2 g]); [|done].
  cbn [bind]. by eexists.
Qed.

Lemma determineWinner_dealt (g g' : Game) :
  determineWinner g = Ok g' ->
  dealt g -> dealt g' /\ cardsInDisplay g' = cardsInDisplay g.
Proof.
  unfold determineWinner.
  destruct (highCardScore [userCard1 g; userCard2 g]) as [u|]; simpl; [|done].
  destruct (highCardScore [computerCard1 g; computerCard2 g]) as [c|];
    simpl; [|done].
  intros [= <-].
  generalize (decideWinner (handScore (userHand g))
                (handScore (computerHand g)) u c) as w.
  intros w Hd.
  destruct (String.eqb w "User"); [split; [exact Hd|done]|].
  destruct (String.eqb w "Computer"); split; (exact Hd || done).
Qed.

Lemma half_of_the_pot (pot risked : Q) :
  (pot == 2 * risked)%Q -> (pot / 2 == risked)%Q.
Proof. intros ->. field. Qed.

Lemma determineWinner_inv (g : Game) :
  dealt g -> moneyInv g -> cardsInDisplay g = 5 ->
  (exists g', determineWinner g = Ok g') /\
  forall g', determineWinner g = Ok g' -> gameInv g'.
Proof.
  intros Hd Hm Hc. split; [by apply determineWinner_total|].
  intros g' H. destruct (determineWinner_dealt g g' H Hd) as [Hd' Hc'].
  split; [done|].
  apply determineWinner_Ok in H.
  destruct H as (u & c & _ & _ & Ewin & HU & HC & HN & Ep & Ew & Er & Ee & _).
  destruct Hm as (_ & Hpot & Hu & Hcm & Hr & _).
  assert (multipleOf20 (currentPot g)) as Hp
    by (rewrite Hpot; by apply multipleOf20_double).
  unfold wagerInv, moneyInv. rewrite Ep, Ew, Er, Ee, Hc', Hc.
  unfold MINIMUM_BET_WAGE. rewrite Ewin in HU, HC, HN.
  assert (multipleOf20 (userMoney g') /\ multipleOf20 (computerMoney g'))
    as [Hu' Hcm'].
  { destruct (decideWinner_cases (handScore (userHand g))
                (handScore (computerHand g)) u c) as [E|[E|E]].
    - destruct (HU E) as [-> ->]. split; [by apply multipleOf20_plus|done].
    - destruct (HC E) as [-> ->]. split; [done|by apply multipleOf20_plus].
    - destruct (HN E) as [-> ->].
      rewrite (half_of_the_pot _ _ Hpot).
      split; by apply multipleOf20_plus. }
  repeat split; try done.
  - by left.
  - apply multipleOf20_0.
Qed.

Lemma showdown_inv (g : Game) :
  dealt g -> moneyInv g ->
  raisesOnly [IndexError] (showdown g) /\
  forall g', showdown g = Ok g' ->
             (cardsInDisplay g = 5 -> gameInv g') /\
             (cardsInDisplay g <> 5 -> g' = g).
Proof.
  intros Hd Hm. unfold showdown.
  destruct (cardsInDisplay g =? 5) eqn:E.
  - apply Nat.eqb_eq in E.
    assert (forall uh ch,
              (exists g', determineWinner
                            (set_computerHand ch (set_userHand uh g)) = Ok g')
              /\ forall g', determineWinner
                              (set_computerHand ch (set_userHand uh g)) = Ok g'
                            -> gameInv g') as Hdw.
    { intros uh ch. apply determineWinner_inv; [exact Hd|exact Hm|exact E]. }
    split.
    + apply raisesOnly_bind; [apply checkHand_raises|]. intros uh _.
      apply raisesOnly_bind; [apply checkHand_raises|]. intros ch _.
      destruct (Hdw uh ch) as [[g' Hg'] _].
      cbv zeta. rewrite Hg'. apply raisesOnly_Ok.
    + intros g' H.
      apply bind_Ok in H as (uh & _ & H). apply bind_Ok in H as (ch & _ & H).
      split; [|done]. intros _. by apply (Hdw uh ch).
  - apply Nat.eqb_neq in E. split; [apply raisesOnly_Ok|].
    intros g' [= <-]. done.
Qed.

Lemma call_inv (now : Q) (g : Game) :
  gameInv g -> computerHasTurn g = false ->
  raisesOnly [IndexError] (__call now g) /\
  forall g', __call now g = Ok g' -> gameInv g'.
Proof.
  intros [Hd [Hm Hw]] Hturn. unfold __call.
  pose proof (moneyInv_wager g Hm) as Hwager.
  destruct Hm as (Hw2 & Hpot & Hu & Hcm & Hr & He).
  destruct (Qltb (userMoney g - currentWager g) 0).
  - apply fold_inv; [exact Hd|].
    unfold moneyInv; simpl. repeat split; try done.
    + apply multipleOf20_START_BALANCE.
    + apply multipleOf20_START_BALANCE.
    + apply multipleOf20_0.
  - cbv zeta.
    match goal with |- context [showdown ?x] => set (gM := x) end.
    assert (dealt gM) as HdM by exact Hd.
    assert (moneyInv gM) as HmM.
    { unfold moneyInv, gM; simpl. repeat split; try done.
      - rewrite Hpot. ring.
      - by apply multipleOf20_minus.
      - by apply multipleOf20_minus.
      - by apply multipleOf20_plus. }
    destruct (showdown_inv gM HdM HmM) as [Hraise Hok].
    split; [done|]. intros g' H. destruct (Hok g' H) as [H5 Hn5].
    destruct (decide (cardsInDisplay g = 5)) as [E|E].
    + by apply H5.
    + rewrite (Hn5 E). split; [done|]. split; [done|].
      intros [Hf|Hc]; [done|]. by destruct E.
Qed.

Lemma raise_inv (now : Q) (g : Game) :
  gameInv g -> computerHasTurn g = false ->
  raisesOnly [IndexError] (__raise now g) /\
  forall g', __raise now g = Ok g' -> gameInv g'.
Proof.
  intros Hinv Hturn. unfold __raise.
  destruct (Qltb (userMoney g) (2 * currentWager g)).
  { split; [apply raisesOnly_Ok|]. by intros g' [= <-]. }
  destruct Hinv as [Hd [Hm Hw]].
  assert (currentWager g == 20)%Q as Hw20 by (apply Hw; by left).
  destruct Hm as (Hw2 & Hpot & Hu & Hcm & Hr & He).
  cbv zeta.
  match goal with |- context [showdown ?x] => set (gM := x) end.
  assert (dealt gM) as HdM by exact Hd.
  assert (moneyInv gM) as HmM.
  { unfold moneyInv, gM; simpl. rewrite Hw20. repeat split; try done.
    - by right.
    - rewrite Hpot. ring.
    - apply multipleOf20_minus; [done|]. by exists 2%Z.
    - apply multipleOf20_minus; [done|]. by exists 2%Z.
    - apply multipleOf20_plus; [done|]. by exists 2%Z. }
  destruct (showdown_inv gM HdM HmM) as [Hraise Hok].
  split; [done|]. intros g' H. destruct (Hok g' H) as [H5 Hn5].
  destruct (decide (cardsInDisplay g = 5)) as [E|E].
  - by apply H5.
  - rewrite (Hn5 E). split; [done|]. split; [done|].
    intros [Hf|Hc]; [done|]. by destruct E.
Qed.

Lemma drawCard_next (g : Game) (outs : list Card) :
  allCards (cardDeck g) ≡ₚ oneDeck ->
  cardsOutOfDeck (cardDeck g) = outs -> length outs < 52 ->
  exists c d,
    drawCard g = Ok (c, set_cardDeck d g) /\
    allCards d ≡ₚ oneDeck /\ cardsOutOfDeck d = outs ++ [c].
Proof.
  intros Hperm Hout Hlen.
  destruct (drawCard_total g) as (c & g' & Hdraw).
  { apply deck_not_empty; [done|]. by rewrite Hout. }
  pose proof Hdraw as Hspec.
  apply drawCard_spec in Hspec as (rest & Hin & ->).
  eexists _, _. split; [exact Hdraw|]. unfold allCards. simpl.
  split; [|by rewrite Hout].
  rewrite <- Hperm. unfold allCards. rewrite Hin. solve_Permutation.
Qed.

Lemma startNewRound_inv (rs : list nat) (g : Game) :
  allCards (cardDeck g) ≡ₚ oneDeck -> length (displayCards g) = 5 ->
  multipleOf20 (userMoney g) -> multipleOf20 (computerMoney g) ->
  exists g', __startNewRound rs g = Ok g' /\ gameInv g'.
Proof.
  intros Hperm Hlen Hu Hc. unfold __startNewRound. cbv zeta.
  match goal with |- context [drawCard ?x] => set (g0 := x) end.
  assert (allCards (cardDeck g0) ≡ₚ oneDeck) as H0.
  { unfold g0, allCards; simpl. rewrite app_nil_r, shuffleCards_perm.
    rewrite <- Hperm. unfold allCards. solve_Permutation. }
  destruct (drawCard_next g0 [] H0 eq_refl ltac:(simpl; lia))
    as (c1 & d1 & E1 & H1 & O1).
  rewrite E1. cbn [bind fst snd].
  match goal with |- context [drawCard ?x] => set (g1 := x) end.
  destruct (drawCard_next g1 [c1] H1 O1 ltac:(simpl; lia))
    as (c2 & d2 & E2 & H2 & O2).
  rewrite E2. cbn [bind fst snd].
  match goal with |- context [drawCard ?x] => set (g2 := x) end.
  destruct (drawCard_next g2 [c1; c2] H2 O2 ltac:(simpl; lia))
    as (c3 & d3 & E3 & H3 & O3).
  rewrite E3. cbn [bind fst snd].
  match goal with |- context [drawCard ?x] => set (g3 := x) end.
  destruct (drawCard_next g3 [c1; c2; c3] H3 O3 ltac:(simpl; lia))
    as (c4 & d4 & E4 & H4 & O4).
  rewrite E4. cbn [bind fst snd].
  eexists. split; [reflexivity|].
  split.
  - split; [|repeat constructor]. split; [exact H4|].
    split; [|exact Hlen]. simpl. rewrite O4. reflexivity.
  - unfold wagerInv, moneyInv; simpl. unfold MINIMUM_BET_WAGE.
    repeat split; try done.
    + by left.
    + apply multipleOf20_0.
Qed.

Lemma endComputerTurn_inv (now : Q) (g : Game) :
  gameInv g ->
  exists g', endComputerTurn now g = Ok g' /\ gameInv g'.
Proof.
  intros [Hd [Hm Hw]]. unfold endComputerTurn.
  destruct (computerHasTurn g && _); [|by exists g].
  destruct (displayNextCardSet_dealt g Hd) as (g1 & E1 & Hd1 & Hlt & Heq).
  rewrite E1. cbn [bind]. eexists. split; [reflexivity|].
  split; [exact Hd1|].
  destruct (decide (cardsInDisplay g = 5)) as [E5|E5].
  - rewrite (Heq E5). split; [exact Hm|]. intros _. apply Hw. by right.
  - assert (cardsInDisplay g < 5) as Hc.
    { destruct Hd as [_ Hc]. decompose_list_elem_of; lia. }
    destruct (Hlt Hc) as [Hmore Hoff].
    apply offTable_fields in Hoff.
    destruct Hoff as (Eu & Ec & Ep & Ew & Er & Ee & _).
    destruct Hm as (_ & Hpot & Hu & Hcm & Hr & He).
    unfold wagerInv, moneyInv. simpl. simpl in *.
    rewrite Eu, Ec, Ep, Ew, Er, Ee. unfold MINIMUM_BET_WAGE.
    repeat split; try done.
    + by left.
    + intros Hended. specialize (He Hended). lia.
Qed.

Lemma checkForClickabilityChanges_inv (g : Game) :
  gameInv g -> gameInv (__checkForClickabilityChanges g).
Proof.
  intros Hinv. unfold __checkForClickabilityChanges.
  repeat match goal with |- context [if ?b then _ else _] => destruct b end;
    exact Hinv.
Qed.

Lemma gameInv_money (g : Game) : gameInv g -> dealt g /\ moneyInv g.
Proof. intros [Hd [Hm _]]. done. Qed.

(** A step of the loop keeps the invariant and raises nothing but
    [PygameQuit] and [IndexError]. *)
Lemma step_inv (i : Input) (g : Game) :
  gameInv g ->
  raisesOnly [PygameQuit; IndexError] (step i g) /\
  forall g', step i g = Ok g' -> gameInv g'.
Proof.
  intros Hinv. destruct i as [now|pos now rs|key t1 t2| |]; cbn [step].
  - destruct (endComputerTurn_inv now g Hinv) as (g1 & -> & Hinv1).
    split; [apply raisesOnly_Ok|]. by intros g' [= <-].
  - unfold mouseButtonDown.
    destruct (computerHasTurn g) eqn:Hturn.
    { split; [apply raisesOnly_Ok|]. by intros g' [= <-]. }
    destruct (roundHasEnded g); cbn [negb].
    + destruct (_ && _).
      * destruct Hinv as [[(Hperm & _ & Hlen) _] [(_ & _ & Hu & Hc & _) _]].
        destruct (startNewRound_inv rs g Hperm Hlen Hu Hc) as (g1 & -> & H1).
        split; [apply raisesOnly_Ok|]. by intros g' [= <-].
      * destruct (_ && _).
        -- split; [|done]. intros e [= <-]. apply list_elem_of_here.
        -- split; [apply raisesOnly_Ok|]. by intros g' [= <-].
    + destruct (_ && _).
      { destruct (gameInv_money g Hinv) as [Hd Hm].
        destruct (fold_inv g Hd Hm) as [Hraise Hok].
        split; [by apply raisesOnly_weaken|done]. }
      destruct (_ && _).
      { destruct (call_inv now g Hinv Hturn) as [Hraise Hok].
        split; [by apply raisesOnly_weaken|done]. }
      destruct (_ && _).
      { destruct (raise_inv now g Hinv Hturn) as [Hraise Hok].
        split; [by apply raisesOnly_weaken|done]. }
      split; [apply raisesOnly_Ok|]. by intros g' [= <-].
  - unfold keyDown. destruct (_ && _).
    + destruct (gameInv_money g Hinv) as [Hd Hm].
      destruct (fold_inv g Hd Hm) as [Hraise Hok]. split.
      * apply raisesOnly_bind; [by apply raisesOnly_weaken|].
        intros; apply raisesOnly_Ok.
      * intros g' H. apply bind_Ok in H as (g1 & H1 & [= <-]).
        exact (Hok g1 H1).
    + split; [apply raisesOnly_Ok|]. by intros g' [= <-].
  - split; [|done]. intros e [= <-]. apply list_elem_of_here.
  - split; [apply raisesOnly_Ok|]. intros g' [= <-].
    by apply checkForClickabilityChanges_inv.
Qed.

Lemma runFrom_inv (inputs : list Input) (g : Game) :
  gameInv g ->
  raisesOnly [PygameQuit; IndexError] (runFrom g inputs) /\
  forall g', runFrom g inputs = Ok g' -> gameInv g'.
Proof.
  unfold runFrom. revert g.
  induction inputs as [|i inputs IH]; intros g Hinv; cbn [foldM].
  - split; [apply raisesOnly_Ok|]. by intros g' [= <-].
  - destruct (step_inv i g Hinv) as [Hraise Hok].
    destruct (step i g) as [g1|e] eqn:E; cbn [bind].
    + apply IH. by apply Hok.
    + split; [|done]. intros e' [= <-]. by apply Hraise.
Qed.

Lemma start_inv (rs0 rs1 : list nat) :
  exists g0, __startNewRound rs1 (init rs0) = Ok g0 /\ gameInv g0.
Proof.
  apply startNewRound_inv.
  - change (cardDeck (init rs0)) with (shuffle rs0 (newDeck 1)).
    unfold allCards, shuffle. cbn [cardsInDeck cardsOutOfDeck].
    rewrite app_nil_r, shuffleCards_perm.
    change (cardsInDeck (newDeck 1)) with (oneDeck ++ []).
    by rewrite app_nil_r.
  - reflexivity.
  - change (userMoney (init rs0)) with START_BALANCE.
    apply multipleOf20_START_BALANCE.
  - change (computerMoney (init rs0)) with START_BALANCE.
    apply multipleOf20_START_BALANCE.
Qed.

Lemma gameInv_reachable (g : Game) : reachable g -> gameInv g.
Proof.
  intros (rs0 & rs1 & g0 & inputs & E0 & H).
  destruct (start_inv rs0 rs1) as (g0' & E0' & Hinv0).
  rewrite E0 in E0'. injection E0' as <-.
  by apply (runFrom_inv inputs g0).
Qed.

(** ** What holds in every state of a run *)

(** X17.  In every state that a run of the game reaches, the cards out of
    the deck are exactly the four hole cards and the shared cards shown, in
    the order they were dealt; together with the cards in the deck they are
    the 52 cards, so no card lies on the table twice; none, three, four or
    five shared cards are shown, and all five once the round has ended. *)
Theorem cards_on_the_table_come_from_the_deck (g : Game) :
  reachable g ->
  cardsOutOfDeck (cardDeck g) = cardsOnTable g /\
  cardsInDeck (cardDeck g) ++ cardsOnTable g ≡ₚ oneDeck /\
  NoDup (cardsOnTable g) /\
  cardsInDisplay g ∈ [0; 3; 4; 5] /\
  getNumOfCardsInDeck (cardDeck g) = 48 - cardsInDisplay g /\
  (roundHasEnded g = true -> cardsInDisplay g = 5).
Proof.
  intros Hr. apply gameInv_reachable in Hr.
  destruct Hr as [[(Hperm & Hout & Hlen) Hc] [(_ & _ & _ & _ & _ & He) _]].
  unfold allCards in Hperm. unfold cardsOnTable. rewrite <- Hout.
  split; [done|]. split; [done|].
  assert (NoDup (cardsInDeck (cardDeck g) ++ cardsOutOfDeck (cardDeck g)))
    as Hnd by (rewrite Hperm; apply oneDeck_NoDup).
  split; [by apply NoDup_app in Hnd as (_ & _ & ?)|].
  split; [done|]. split; [|done].
  apply Permutation_length in Hperm.
  rewrite length_app, Hout, length_app, length_take, oneDeck_length in Hperm.
  unfold getNumOfCardsInDeck. simpl in Hperm.
  decompose_list_elem_of; lia.
Qed.

Lemma cards_on_the_table_come_from_the_deck_witness :
  cardsOutOfDeck (cardDeck computerInDebt) = cardsOnTable computerInDebt /\
  cardsInDeck (cardDeck computerInDebt) ++ cardsOnTable computerInDebt
  ≡ₚ oneDeck /\
  NoDup (cardsOnTable computerInDebt) /\
  cardsInDisplay computerInDebt ∈ [0; 3; 4; 5] /\
  getNumOfCardsInDeck (cardDeck computerInDebt)
  = 48 - cardsInDisplay computerInDebt /\
  (roundHasEnded computerInDebt = true -> cardsInDisplay computerInDebt = 5).
Proof.
  apply (cards_on_the_table_come_from_the_deck computerInDebt).
  apply computerInDebt_reachable.
Defined.

(** X18.  In every state that a run of the game reaches the wager is 20 or
    40 dollars, and 20 whenever the user may act: a call costs 20 dollars
    and a raise 40.  The pot is twice the amount the user has at risk, and
    the two balances and the pot are whole multiples of 20 dollars, so that
    half a pot is a whole amount. *)
Theorem wager_is_the_minimum_when_the_user_acts (g : Game) :
  reachable g ->
  (currentWager g == 20 \/ currentWager g == 40)%Q /\
  (computerHasTurn g = false -> (currentWager g == 20)%Q) /\
  (currentPot g == 2 * currentBeingRisked g)%Q /\
  multipleOf20 (userMoney g) /\ multipleOf20 (computerMoney g) /\
  multipleOf20 (currentPot g) /\ multipleOf20 (currentPot g / 2).
Proof.
  intros Hr. apply gameInv_reachable in Hr.
  destruct Hr as [_ [(Hw & Hpot & Hu & Hc & Hrisk & _) Hturn]].
  split; [done|]. split; [intros E; apply Hturn; by left|].
  split; [done|]. split; [done|]. split; [done|]. split.
  - rewrite Hpot. by apply multipleOf20_double.
  - by rewrite (half_of_the_pot _ _ Hpot).
Qed.

Lemma wager_is_the_minimum_when_the_user_acts_witness :
  (currentWager computerInDebt == 20 \/ currentWager computerInDebt == 40)%Q /\
  (computerHasTurn computerInDebt = false ->
   (currentWager computerInDebt == 20)%Q) /\
  (currentPot computerInDebt == 2 * currentBeingRisked computerInDebt)%Q /\
  multipleOf20 (userMoney computerInDebt) /\
  multipleOf20 (computerMoney computerInDebt) /\
  multipleOf20 (currentPot computerInDebt) /\
  multipleOf20 (currentPot computerInDebt / 2).
Proof.
  apply (wager_is_the_minimum_when_the_user_acts computerInDebt).
  apply computerInDebt_reachable.
Defined.

(** X19.  A run of the game ends, if it ends, by [pygame.quit()] or by an
    [IndexError] of the evaluator; the deck never runs out and
    [determineWinner] always finds the high cards.  Both ends occur: the
    window can be closed, and when the user holds two aces and folds on a
    flop of jack, queen and king, [isStraight] reads [aList[13]]. *)
Theorem run_ends_by_quit_or_IndexError :
  (forall rs0 rs1 inputs e,
     run rs0 rs1 inputs = Raise e -> e = PygameQuit \/ e = IndexError) /\
  run [] [] [QUIT] = Raise PygameQuit /\
  run [] acesAndFaceCards foldAfterTheFlop = Raise IndexError.
Proof.
  split; [|split; vm_compute; reflexivity].
  intros rs0 rs1 inputs e. unfold run.
  destruct (start_inv rs0 rs1) as (g0 & E0 & Hinv0).
  rewrite E0. cbn [bind]. intros He.
  destruct (runFrom_inv inputs g0 Hinv0) as [Hraise _].
  apply Hraise in He. decompose_list_elem_of; [by left|by right].
Qed.
